(** * Receipt processor: the scoring engine and the receipt registry

    A shallow embedding of [server.go]: the receipt data model, the
    point-scoring function [calculatePoints] with the Go library calls
    it makes, and the two request handlers [processReceipt] and
    [getPoints] over the in-memory [receiptStore].

    Conventions.
    - A Go [string] is a sequence of bytes: Rocq's [string].
    - A Go [int] is a 64-bit two's-complement integer: a [Z] with the
      wrap-around written out ([wrap64]).
    - A Go [float64] is an IEEE-754 binary64 value: [spec_float] with
      [prec = 53] and [emax = 1024].
    - A run-time panic is an explicit outcome ([Panic]).
    - The functions of Go's standard library that the program calls
      are modelled after their documented behaviour, on a 64-bit
      platform. *)

From Stdlib Require Import ZArith Lia Bool List String Ascii.
From Corelib Require Import SpecFloat.
From stdpp Require Import gmap strings.

Local Open Scope string_scope.
Local Open Scope Z_scope.

(** ** Bytes and machine integers *)

Definition byte_code (c : ascii) : Z := Z.of_N (N_of_ascii c).

Definition len (s : string) : Z := Z.of_nat (String.length s).

Definition minInt64 : Z := - 2 ^ 63.
Definition maxInt64 : Z := 2 ^ 63 - 1.
Definition maxUint64 : Z := 2 ^ 64 - 1.

(** Two's-complement reduction of an integer to the range of [int]. *)
Definition wrap64 (z : Z) : Z := (z + 2 ^ 63) mod 2 ^ 64 - 2 ^ 63.

Definition add64 (a b : Z) : Z := wrap64 (a + b).
Definition mul64 (a b : Z) : Z := wrap64 (a * b).

Definition isDigit (c : ascii) : bool :=
  (48 <=? byte_code c) && (byte_code c <=? 57).

(** ASCII lower-casing as the parsers do it: [c | ('x' - 'X')]. *)
Definition lower (c : ascii) : Z := Z.lor (byte_code c) 32.

(** ** Outcome of a function that may panic *)

Inductive result (A : Type) : Type :=
  | Ok (a : A)
  | Panic (msg : string).
Arguments Ok {A} a.
Arguments Panic {A} msg.

(** ** Packages [unicode/utf8] and [unicode] *)

Module utf8.

Definition RuneError : Z := 0xFFFD.
Definition RuneSelf : Z := 0x80.
Definition UTFMax : Z := 4.

(** The table [first]: what a leading byte announces. *)
Inductive firstInfo : Type :=
  | as_ascii
  | xx_invalid
  | lead (size : nat) (lo hi : Z).

Definition first (s0 : Z) : firstInfo :=
  if s0 <? 0x80 then as_ascii
  else if s0 <? 0xC2 then xx_invalid
  else if s0 <? 0xE0 then lead 2 0x80 0xBF
  else if s0 =? 0xE0 then lead 3 0xA0 0xBF
  else if s0 <? 0xED then lead 3 0x80 0xBF
  else if s0 =? 0xED then lead 3 0x80 0x9F
  else if s0 <? 0xF0 then lead 3 0x80 0xBF
  else if s0 =? 0xF0 then lead 4 0x90 0xBF
  else if s0 <? 0xF4 then lead 4 0x80 0xBF
  else if s0 =? 0xF4 then lead 4 0x80 0x8F
  else xx_invalid.

Definition continuation (b : Z) : bool := (0x80 <=? b) && (b <=? 0xBF).

(** [DecodeRuneInString]: the first rune of [s] and its width in
    bytes; an invalid encoding is [RuneError] of width 1. *)
Definition DecodeRuneInString (s : string) : Z * nat :=
  match s with
  | EmptyString => (RuneError, 0%nat)
  | String c0 t =>
      let s0 := byte_code c0 in
      match first s0 with
      | as_ascii => (s0, 1%nat)
      | xx_invalid => (RuneError, 1%nat)
      | lead sz lo hi =>
          if (String.length s <? sz)%nat then (RuneError, 1%nat)
          else
            match t with
            | EmptyString => (RuneError, 1%nat)
            | String c1 t1 =>
                let s1 := byte_code c1 in
                if (s1 <? lo) || (hi <? s1) then (RuneError, 1%nat)
                else if (sz <=? 2)%nat then
                  (Z.lor (Z.shiftl (Z.land s0 0x1F) 6) (Z.land s1 0x3F), 2%nat)
                else
                  match t1 with
                  | EmptyString => (RuneError, 1%nat)
                  | String c2 t2 =>
                      let s2 := byte_code c2 in
                      if negb (continuation s2) then (RuneError, 1%nat)
                      else if (sz <=? 3)%nat then
                        (Z.lor (Z.shiftl (Z.land s0 0x0F) 12)
                           (Z.lor (Z.shiftl (Z.land s1 0x3F) 6)
                                  (Z.land s2 0x3F)), 3%nat)
                      else
                        match t2 with
                        | EmptyString => (RuneError, 1%nat)
                        | String c3 _ =>
                            let s3 := byte_code c3 in
                            if negb (continuation s3) then (RuneError, 1%nat)
                            else
                              (Z.lor (Z.shiftl (Z.land s0 0x07) 18)
                                 (Z.lor (Z.shiftl (Z.land s1 0x3F) 12)
                                    (Z.lor (Z.shiftl (Z.land s2 0x3F) 6)
                                           (Z.land s3 0x3F))), 4%nat)
                        end
                  end
            end
      end
  end.

(** [RuneStart(b)]: [b] is not a continuation byte. *)
Definition RuneStart (b : Z) : bool := negb (Z.land b 0xC0 =? 0x80).

Definition byteAt (s : string) (i : Z) : Z :=
  match String.get (Z.to_nat i) s with
  | Some c => byte_code c
  | None => 0
  end.

(** [for start--; start >= lim; start-- { if RuneStart(s[start]) { break } }] *)
Fixpoint backToStart (s : string) (steps : nat) (start lim : Z) : Z :=
  match steps with
  | O => start
  | S k =>
      if start <? lim then start
      else if RuneStart (byteAt s start) then start
      else backToStart s k (start - 1) lim
  end.

(** [DecodeLastRuneInString]: the last rune of [s] and its width. *)
Definition DecodeLastRuneInString (s : string) : Z * nat :=
  let end_ := len s in
  if end_ =? 0 then (RuneError, 0%nat)
  else
    let start := end_ - 1 in
    let r := byteAt s start in
    if r <? RuneSelf then (r, 1%nat)
    else
      let lim := Z.max (end_ - UTFMax) 0 in
      let start := backToStart s 4 (start - 1) lim in
      let start := Z.max start 0 in
      let '(r, size) :=
        DecodeRuneInString
          (substring (Z.to_nat start) (Z.to_nat (end_ - start)) s) in
      if start + Z.of_nat size =? end_ then (r, size)
      else (RuneError, 1%nat).

(** [RuneCountInString]: the number of runes (characters) of [s]. *)
Fixpoint runeCountLoop (fuel : nat) (s : string) (n : Z) : Z :=
  match fuel with
  | O => n
  | S fuel' =>
      match s with
      | EmptyString => n
      | _ =>
          let '(_, size) := DecodeRuneInString s in
          runeCountLoop fuel'
            (substring size (String.length s - size) s) (n + 1)
      end
  end.

Definition RuneCountInString (s : string) : Z :=
  runeCountLoop (String.length s) s 0.

End utf8.

Module unicode.

(** [IsSpace]: the code points with Unicode's White_Space property. *)
Definition IsSpace (r : Z) : bool :=
  if r <=? 0xFF then
    ((0x09 <=? r) && (r <=? 0x0D)) || (r =? 0x20) || (r =? 0x85) || (r =? 0xA0)
  else
    (r =? 0x1680) || ((0x2000 <=? r) && (r <=? 0x200A))
    || (r =? 0x2028) || (r =? 0x2029) || (r =? 0x202F)
    || (r =? 0x205F) || (r =? 0x3000).

End unicode.

(** ** Package [strings] *)

Module gostrings.

(** [len(s) >= len(suffix) && s[len(s)-len(suffix):] == suffix] *)
Definition HasSuffix (s suffix : string) : bool :=
  (String.length suffix <=? String.length s)%nat &&
  String.eqb
    (substring (String.length s - String.length suffix)
               (String.length suffix) s)
    suffix.

(** [ReplaceAll(s, old, new)] for a one-byte [old], the only way the
    program calls it. *)
Fixpoint ReplaceAll (s : string) (old : ascii) (new : string) : string :=
  match s with
  | EmptyString => EmptyString
  | String c s' =>
      if Ascii.eqb c old then new ++ ReplaceAll s' old new
      else String c (ReplaceAll s' old new)
  end.

(** [Split(s, sep)] for a one-byte [sep]: the pieces between the
    separators, one more than there are separators. *)
Fixpoint Split (s : string) (sep : ascii) : list string :=
  match s with
  | EmptyString => [EmptyString]
  | String c s' =>
      if Ascii.eqb c sep then EmptyString :: Split s' sep
      else match Split s' sep with
           | piece :: rest => String c piece :: rest
           | [] => [String c EmptyString]
           end
  end.

(** [TrimLeftFunc(s, f)]: drop leading runes while [f] holds. Every
    round drops at least one byte, so [length s] rounds suffice. *)
Fixpoint trimLeftLoop (fuel : nat) (f : Z -> bool) (s : string) : string :=
  match fuel with
  | O => s
  | S fuel' =>
      match s with
      | EmptyString => EmptyString
      | _ =>
          let '(r, size) := utf8.DecodeRuneInString s in
          if f r then
            trimLeftLoop fuel' f (substring size (String.length s - size) s)
          else s
      end
  end.

Definition TrimLeftFunc (s : string) (f : Z -> bool) : string :=
  trimLeftLoop (String.length s) f s.

(** [TrimRightFunc(s, f)]: drop trailing runes while [f] holds. *)
Fixpoint trimRightLoop (fuel : nat) (f : Z -> bool) (s : string) : string :=
  match fuel with
  | O => s
  | S fuel' =>
      match s with
      | EmptyString => EmptyString
      | _ =>
          let '(r, size) := utf8.DecodeLastRuneInString s in
          if f r then
            trimRightLoop fuel' f (substring 0 (String.length s - size) s)
          else s
      end
  end.

Definition TrimRightFunc (s : string) (f : Z -> bool) : string :=
  trimRightLoop (String.length s) f s.

Definition TrimFunc (s : string) (f : Z -> bool) : string :=
  TrimRightFunc (TrimLeftFunc s f) f.

(** [TrimSpace(s)]: [s] without its leading and trailing white
    space, as Unicode defines it. *)
Definition TrimSpace (s : string) : string := TrimFunc s unicode.IsSpace.

End gostrings.

(** ** Package [regexp]: the character class of the program *)

Module regexp.

(** The compiled pattern [[a-zA-Z0-9]]: one byte of one of the three
    ranges. No byte of a multi-byte rune lies in them. *)
Definition alnum (c : ascii) : bool :=
  let b := byte_code c in
  ((97 <=? b) && (b <=? 122)) || ((65 <=? b) && (b <=? 90))
  || ((48 <=? b) && (b <=? 57)).

(** [FindAllString(s, -1)] for that pattern: the successive matches,
    each one byte long. *)
Fixpoint FindAllString (s : string) : list string :=
  match s with
  | EmptyString => []
  | String c s' =>
      if alnum c then String c EmptyString :: FindAllString s'
      else FindAllString s'
  end.

End regexp.

(** ** Package [time]: parsing with the layout ["15:04"] *)

Module gotime.

Record Time : Type := { Hour : Z; Minute : Z }.

(** [getnum(s, fixed)]: a one- or two-digit number at the head of
    [s]; two digits are demanded when [fixed]. *)
Definition getnum (s : string) (fixed : bool) : option (Z * string) :=
  match s with
  | EmptyString => None
  | String c0 s1 =>
      if negb (isDigit c0) then None
      else
        match s1 with
        | String c1 s2 =>
            if isDigit c1 then
              Some ((byte_code c0 - 48) * 10 + (byte_code c1 - 48), s2)
            else if fixed then None
            else Some (byte_code c0 - 48, s1)
        | EmptyString =>
            if fixed then None else Some (byte_code c0 - 48, s1)
        end
  end.

(** [Parse("15:04", value)]: an hour of one or two digits below 24,
    a colon, a minute of two digits below 60, and nothing more.
    [None] stands for any parse error. *)
Definition Parse (value : string) : option Time :=
  match getnum value false with
  | None => None
  | Some (hour, value) =>
      if (hour <? 0) || (24 <=? hour) then None
      else
        match value with
        | String ":" value =>
            match getnum value true with
            | None => None
            | Some (min, value) =>
                if (min <? 0) || (60 <=? min) then None
                else
                  match value with
                  | EmptyString => Some {| Hour := hour; Minute := min |}
                  | _ => None
                  end
            end
        | _ => None
        end
  end.

End gotime.

(** ** [float64]: IEEE-754 binary64 *)

Definition float64 : Type := spec_float.

Module f64.

Definition prec : Z := 53.
Definition emax : Z := 1024.

(** Multiplication, rounded to nearest, ties to even. *)
Definition mul (x y : float64) : float64 := SFmul prec emax x y.

(** The binary64 nearest to the integer [m] times [2^e]. *)
Definition of_scaled (neg : bool) (m e : Z) : float64 :=
  match m with
  | Zpos p => binary_round prec emax neg p e
  | _ => S754_zero neg
  end.

(** The binary64 nearest to the quotient [n / d] of two positive
    integers: the quotient is taken with enough bits, and the
    remainder says on which side of the midpoint the quotient lies. *)
Definition of_quotient (neg : bool) (n d : Z) : float64 :=
  let '(q, e, l) := SFdiv_core_binary prec emax n 0 d 0 in
  binary_round_aux prec emax neg q e l.

(** The constant [0.2] as a [float64]: [0x3FC999999999999A]. *)
Definition c0_2 : float64 := Eval vm_compute in of_quotient false 2 10.

Definition is_inf (x : float64) : bool :=
  match x with S754_infinity _ => true | _ => false end.

(** The integer part, towards zero, of a finite value. *)
Definition trunc (x : float64) : Z :=
  match x with
  | S754_finite s m e =>
      let a := if 0 <=? e then Z.pos m * 2 ^ e else Z.pos m / 2 ^ (- e) in
      if s then - a else a
  | _ => 0
  end.

(** Whether a finite value is an integer. *)
Definition integral (x : float64) : bool :=
  match x with
  | S754_finite _ m e => (0 <=? e) || (Z.pos m mod 2 ^ (- e) =? 0)
  | _ => true
  end.

End f64.

Module math.

(** [math.Ceil]: the least integer value not below [x]; zeros,
    infinities and NaN are returned as they are. *)
Definition Ceil (x : float64) : float64 :=
  match x with
  | S754_finite s m e =>
      if f64.integral x then x
      else
        let t := f64.trunc x in
        if s then f64.of_scaled true (- t) 0
        else f64.of_scaled false (t + 1) 0
  | _ => x
  end.

End math.

(** The conversion [int(x)] of a [float64]: the value without its
    fraction. For a value that no [int] holds (too large, an infinity,
    NaN) the language leaves the result to the implementation; the
    bit pattern [0x8000000000000000] that amd64 produces is taken. *)
Definition int_of_float64 (x : float64) : Z :=
  match x with
  | S754_zero _ => 0
  | S754_finite _ _ _ =>
      let t := f64.trunc x in
      if (minInt64 <=? t) && (t <=? maxInt64) then t else minInt64
  | _ => minInt64
  end.

Inductive NumError : Type := ErrSyntax | ErrRange.

(** ** Package [strconv]: the scanner of floating-point text *)

Module atof.

(** State of the scan of the mantissa in [readFloat]. The model
    keeps every digit in [mant]; the library keeps the first 19 and
    a truncation flag and converts exactly from the decimal text
    when they do not suffice, to the same correctly rounded value. *)
Record scan : Type := {
  sawdot : bool;
  sawdigits : bool;
  nd : Z;
  dp : Z;
  mant : Z;
  underscores : bool
}.

Definition scan0 : scan :=
  {| sawdot := false; sawdigits := false; nd := 0; dp := 0; mant := 0;
     underscores := false |}.

Definition isHexLetter (c : ascii) : bool :=
  (97 <=? lower c) && (lower c <=? 102).

(** The loop over the mantissa: it returns the state and what is
    left of the text. *)
Fixpoint readMantissa (hex : bool) (s : string) (st : scan) : scan * string :=
  match s with
  | EmptyString => (st, s)
  | String c s' =>
      if Ascii.eqb c "_" then
        readMantissa hex s'
          {| sawdot := sawdot st; sawdigits := sawdigits st; nd := nd st;
             dp := dp st; mant := mant st; underscores := true |}
      else if Ascii.eqb c "." then
        if sawdot st then (st, s)
        else
          readMantissa hex s'
            {| sawdot := true; sawdigits := sawdigits st; nd := nd st;
               dp := nd st; mant := mant st; underscores := underscores st |}
      else if isDigit c then
        if Ascii.eqb c "0" && (nd st =? 0) then
          readMantissa hex s'
            {| sawdot := sawdot st; sawdigits := true; nd := nd st;
               dp := dp st - 1; mant := mant st;
               underscores := underscores st |}
        else
          readMantissa hex s'
            {| sawdot := sawdot st; sawdigits := true; nd := nd st + 1;
               dp := dp st;
               mant := mant st * (if hex then 16 else 10) + (byte_code c - 48);
               underscores := underscores st |}
      else if hex && isHexLetter c then
        readMantissa hex s'
          {| sawdot := sawdot st; sawdigits := true; nd := nd st + 1;
             dp := dp st; mant := mant st * 16 + (lower c - 97 + 10);
             underscores := underscores st |}
      else (st, s)
  end.

(** The digits of the exponent: [e] stops growing at 10000. *)
Fixpoint readExponent (s : string) (e : Z) (us : bool) : Z * bool * string :=
  match s with
  | EmptyString => (e, us, s)
  | String c s' =>
      if Ascii.eqb c "_" then readExponent s' e true
      else if isDigit c then
        readExponent s' (if e <? 10000 then e * 10 + (byte_code c - 48) else e) us
      else (e, us, s)
  end.

(** What [readFloat] finds: sign, base, the digits as an integer,
    the exponent of the base ([10], or [2] for a hexadecimal
    mantissa), the number of digits read, whether an underscore was
    seen, and the text left over. *)
Record parts : Type := {
  neg : bool;
  hex : bool;
  mantissa : Z;
  exp : Z;
  digits : Z;
  seen_underscore : bool;
  rest : string
}.

Definition readFloat (s : string) : option parts :=
  match s with
  | EmptyString => None
  | String c0 s0 =>
      let neg := Ascii.eqb c0 "-" in
      let s1 := if Ascii.eqb c0 "+" || neg then s0 else s in
      let hex :=
        match s1 with
        | String z (String x (String _ _)) =>
            Ascii.eqb z "0" && (lower x =? 120)
        | _ => false
        end in
      let s2 := if hex then substring 2 (String.length s1 - 2) s1 else s1 in
      let '(st, s3) := readMantissa hex s2 scan0 in
      if negb (sawdigits st) then None
      else
        let dp := if sawdot st then dp st else nd st in
        let dp := if hex then dp * 4 else dp in
        let ndm := if hex then nd st * 4 else nd st in
        let expChar := if hex then 112 else 101 in
        let finish (dp : Z) (us : bool) (s : string) :=
          Some {| neg := neg; hex := hex; mantissa := mant st;
                  exp := if mant st =? 0 then 0 else dp - ndm;
                  digits := nd st;
                  seen_underscore := us; rest := s |} in
        match s3 with
        | String ce s4 =>
            if lower ce =? expChar then
              match s4 with
              | EmptyString => None
              | String cs s5 =>
                  let esign := if Ascii.eqb cs "-" then -1 else 1 in
                  let s6 :=
                    if Ascii.eqb cs "+" || Ascii.eqb cs "-" then s5 else s4 in
                  match s6 with
                  | EmptyString => None
                  | String cd _ =>
                      if negb (isDigit cd) then None
                      else
                        let '(e, us, s7) :=
                          readExponent s6 0 (underscores st) in
                        finish (dp + e * esign) us s7
                  end
              end
            else if hex then None
            else finish dp (underscores st) s3
        | EmptyString =>
            if hex then None else finish dp (underscores st) s3
        end
  end.

(** [underscoreOK]: an underscore only between two digits, or
    between a base prefix and a digit. [saw] is the kind of the
    previous byte: [0] start of the number, [1] digit or base prefix,
    [2] underscore, [3] anything else. *)
Fixpoint underscoreLoop (hex : bool) (s : string) (saw : Z) : bool :=
  match s with
  | EmptyString => negb (saw =? 2)
  | String c s' =>
      if isDigit c || (hex && isHexLetter c) then underscoreLoop hex s' 1
      else if Ascii.eqb c "_" then
        if negb (saw =? 1) then false else underscoreLoop hex s' 2
      else if saw =? 2 then false
      else underscoreLoop hex s' 3
  end.

Definition underscoreOK (s : string) : bool :=
  let s :=
    match s with
    | String c s' => if Ascii.eqb c "-" || Ascii.eqb c "+" then s' else s
    | EmptyString => s
    end in
  match s with
  | String "0" (String x s') =>
      if (lower x =? 98) || (lower x =? 111) || (lower x =? 120) then
        underscoreLoop (lower x =? 120) s' 1
      else underscoreLoop false s 0
  | _ => underscoreLoop false s 0
  end.

(** [commonPrefixLenIgnoreCase(s, prefix)] for a lower-case [prefix]. *)
Fixpoint commonPrefixLenIgnoreCase (s prefix : string) : Z :=
  match s, prefix with
  | String c s', String p prefix' =>
      let c := byte_code c in
      let c := if (65 <=? c) && (c <=? 90) then c + 32 else c in
      if c =? byte_code p then 1 + commonPrefixLenIgnoreCase s' prefix'
      else 0
  | _, _ => 0
  end.

(** [special]: an infinity or NaN at the head of [s], and how many
    bytes spell it. *)
Definition special (s : string) : option (float64 * Z) :=
  match s with
  | EmptyString => None
  | String c0 s' =>
      let signed := Ascii.eqb c0 "+" || Ascii.eqb c0 "-" in
      if signed || Ascii.eqb c0 "i" || Ascii.eqb c0 "I" then
        let nsign := if signed then 1 else 0 in
        let s1 := if signed then s' else s in
        let n := commonPrefixLenIgnoreCase s1 "infinity" in
        let n := if (3 <? n) && (n <? 8) then 3 else n in
        if (n =? 3) || (n =? 8) then
          Some (S754_infinity (Ascii.eqb c0 "-"), nsign + n)
        else None
      else if Ascii.eqb c0 "n" || Ascii.eqb c0 "N" then
        if commonPrefixLenIgnoreCase s "nan" =? 3 then Some (S754_nan, 3)
        else None
      else None
  end.

(** The correctly rounded value of [mantissa * 10^exp]. A number
    whose decimal point lies more than 310 places to the right of
    its first digit overflows, one where it lies more than 330
    places to the left is zero: no power of ten is computed then. *)
Definition decimalValue (neg : bool) (mantissa exp digits : Z) : float64 :=
  if mantissa =? 0 then S754_zero neg
  else
    let dp := digits + exp in
    if 310 <? dp then S754_infinity neg
    else if dp <? -330 then S754_zero neg
    else if 0 <=? exp then f64.of_scaled neg (mantissa * 10 ^ exp) 0
    else f64.of_quotient neg mantissa (10 ^ (- exp)).

(** The correctly rounded value of [mantissa * 2^exp]. *)
Definition hexValue (neg : bool) (mantissa exp : Z) : float64 :=
  f64.of_scaled neg mantissa exp.

End atof.

(** ** Package [strconv] *)

Module strconv.

(** The digit loop of the fast path of [Atoi]:
    [ch -= '0'; if ch > 9 { return 0, syntaxError }; n = n*10 + int(ch)]
    with [ch] a byte. *)
Fixpoint atoiDigits (s : string) (n : Z) : option Z :=
  match s with
  | EmptyString => Some n
  | String ch s' =>
      let ch := (byte_code ch - 48) mod 256 in
      if 9 <? ch then None else atoiDigits s' (n * 10 + ch)
  end.

(** The loop of [ParseUint(s, 10, 64)]. A range error is reported as
    soon as the accumulated value overflows, before the rest of the
    string is looked at. *)
Fixpoint parseUintLoop (s : string) (n : Z) : Z * option NumError :=
  match s with
  | EmptyString => (n, None)
  | String c s' =>
      if isDigit c then
        let d := byte_code c - 48 in
        let cutoff := maxUint64 / 10 + 1 in
        if cutoff <=? n then (maxUint64, Some ErrRange)
        else
          let n1 := n * 10 + d in
          if maxUint64 <? n1 then (maxUint64, Some ErrRange)
          else parseUintLoop s' n1
      else (0, Some ErrSyntax)
  end.

Definition ParseUint (s : string) : Z * option NumError :=
  match s with
  | EmptyString => (0, Some ErrSyntax)
  | _ => parseUintLoop s 0
  end.

(** [ParseInt(s, 10, 0)] on a 64-bit platform. *)
Definition ParseInt (s : string) : Z * option NumError :=
  match s with
  | EmptyString => (0, Some ErrSyntax)
  | String c0 s' =>
      let neg := Ascii.eqb c0 "-" in
      let s1 := if Ascii.eqb c0 "+" || neg then s' else s in
      match ParseUint s1 with
      | (_, Some ErrSyntax) => (0, Some ErrSyntax)
      | (un, _) =>
          let cutoff := 2 ^ 63 in
          if negb neg && (cutoff <=? un) then (cutoff - 1, Some ErrRange)
          else if neg && (cutoff <? un) then (- cutoff, Some ErrRange)
          else (if neg then - un else un, None)
      end
  end.

(** [Atoi]: strings of 1 to 18 bytes take the fast path, the others
    go through [ParseInt]. *)
Definition Atoi (s : string) : Z * option NumError :=
  let sLen := len s in
  if (0 <? sLen) && (sLen <? 19) then
    match s with
    | EmptyString => (0, Some ErrSyntax)
    | String c0 s' =>
        let signed := Ascii.eqb c0 "-" || Ascii.eqb c0 "+" in
        let s1 := if signed then s' else s in
        if signed && (len s1 <? 1) then (0, Some ErrSyntax)
        else
          match atoiDigits s1 0 with
          | None => (0, Some ErrSyntax)
          | Some n => (if Ascii.eqb c0 "-" then - n else n, None)
          end
    end
  else ParseInt s.



(** [ParseFloat(s, 64)]: the value and the error. A text that is
    not a number in full is a syntax error with value 0; a number too
    large is an infinity with a range error. *)
Definition ParseFloat (s : string) : float64 * option NumError :=
  match atof.special s with
  | Some (val, n) =>
      if n =? len s then (val, None) else (S754_zero false, Some ErrSyntax)
  | None =>
      match atof.readFloat s with
      | None => (S754_zero false, Some ErrSyntax)
      | Some p =>
          if negb (String.eqb (atof.rest p) EmptyString) then
            (S754_zero false, Some ErrSyntax)
          else if atof.seen_underscore p && negb (atof.underscoreOK s) then
            (S754_zero false, Some ErrSyntax)
          else
            let f :=
              if atof.hex p then
                atof.hexValue (atof.neg p) (atof.mantissa p) (atof.exp p)
              else
                atof.decimalValue (atof.neg p) (atof.mantissa p)
                  (atof.exp p) (atof.digits p) in
            (f, if f64.is_inf f then Some ErrRange else None)
      end
  end.

End strconv.


(** ** The data model *)

(** An individual product purchased on a receipt. *)
Record Item : Type := {
  ShortDescription : string;
  Price : string
}.

(** A purchase receipt. *)
Record Receipt : Type := {
  Retailer : string;
  PurchaseDate : string;
  PurchaseTime : string;
  Items : list Item;
  Total : string
}.

(** ** The scoring engine *)

(** The body of the loop over the items:
    [if trimmedLen%3 == 0 { ...; points += roundedPoints }]. *)
Definition itemStep (points : Z) (item : Item) : Z :=
  let trimmedLen := len (gostrings.TrimSpace (ShortDescription item)) in
  if Z.rem trimmedLen 3 =? 0 then
    let '(price, _) := strconv.ParseFloat (Price item) in
    let roundedPoints := int_of_float64 (math.Ceil (f64.mul price f64.c0_2)) in
    add64 points roundedPoints
  else points.

(** [calculatePoints], statement by statement. Indexing [dateParts]
    out of range is the one place where it can panic. *)
Definition calculatePoints (receipt : Receipt) : result Z :=
  let points := 0 in
  (* one point for every alphanumeric character in the retailer name *)
  let matches := regexp.FindAllString (Retailer receipt) in
  let matchCount := Z.of_nat (length matches) in
  let points := add64 points matchCount in
  (* 50 points if the total is a round dollar amount with no cents *)
  let points :=
    if gostrings.HasSuffix (Total receipt) ".00" then add64 points 50
    else points in
  (* 25 points if the total is a multiple of 0.25 *)
  let '(totalInCents, _) :=
    strconv.Atoi (gostrings.ReplaceAll (Total receipt) "." "") in
  let points :=
    if Z.rem totalInCents 25 =? 0 then add64 points 25 else points in
  (* 5 points for every two items on the receipt *)
  let itemPoints := mul64 (Z.quot (Z.of_nat (length (Items receipt))) 2) 5 in
  let points := add64 points itemPoints in
  (* the description rule, item by item *)
  let points := fold_left itemStep (Items receipt) points in
  (* 6 points if the day in the purchase date is odd *)
  let dateParts := gostrings.Split (PurchaseDate receipt) "-" in
  match nth_error dateParts 2 with
  | None => Panic "index out of range"
  | Some dayText =>
      let points :=
        match strconv.Atoi dayText with
        | (day, None) => if Z.rem day 2 =? 1 then add64 points 6 else points
        | (_, Some _) => points
        end in
      (* 10 points if the time of purchase is after 2:00pm and before 4:00pm *)
      let points :=
        match gotime.Parse (PurchaseTime receipt) with
        | Some purchaseTime =>
            let hour := gotime.Hour purchaseTime in
            let min := gotime.Minute purchaseTime in
            if ((hour =? 14) && (0 <? min)) || (hour =? 15) then
              add64 points 10
            else points
        | None => points
        end in
      Ok points
  end.

(** ** The contribution of each rule *)

Definition retailerPoints (receipt : Receipt) : Z :=
  Z.of_nat (length (regexp.FindAllString (Retailer receipt))).

Definition roundDollarPoints (receipt : Receipt) : Z :=
  if gostrings.HasSuffix (Total receipt) ".00" then 50 else 0.

Definition totalInCents (receipt : Receipt) : Z :=
  fst (strconv.Atoi (gostrings.ReplaceAll (Total receipt) "." "")).

Definition quarterPoints (receipt : Receipt) : Z :=
  if Z.rem (totalInCents receipt) 25 =? 0 then 25 else 0.

Definition itemCountPoints (receipt : Receipt) : Z :=
  mul64 (Z.quot (Z.of_nat (length (Items receipt))) 2) 5.

Definition trimmedLen (item : Item) : Z :=
  len (gostrings.TrimSpace (ShortDescription item)).

(** [int(math.Ceil(price * 0.2))] for the text of a price. *)
Definition roundedPoints (price : string) : Z :=
  int_of_float64
    (math.Ceil (f64.mul (fst (strconv.ParseFloat price)) f64.c0_2)).

Definition itemPoints (item : Item) : Z :=
  if Z.rem (trimmedLen item) 3 =? 0 then roundedPoints (Price item) else 0.

Definition descriptionPoints (items : list Item) : Z :=
  fold_right (fun item acc => itemPoints item + acc) 0 items.

Definition dayPoints (dayText : string) : Z :=
  match strconv.Atoi dayText with
  | (day, None) => if Z.rem day 2 =? 1 then 6 else 0
  | (_, Some _) => 0
  end.

Definition timePoints (receipt : Receipt) : Z :=
  match gotime.Parse (PurchaseTime receipt) with
  | Some t =>
      if ((gotime.Hour t =? 14) && (0 <? gotime.Minute t))
         || (gotime.Hour t =? 15)
      then 10 else 0
  | None => 0
  end.

(** The sum of the seven contributions, before it is reduced to an
    [int]. [dayText] is the third field of the purchase date. *)
Definition pointsSum (receipt : Receipt) (dayText : string) : Z :=
  retailerPoints receipt + roundDollarPoints receipt + quarterPoints receipt
  + itemCountPoints receipt + descriptionPoints (Items receipt)
  + dayPoints dayText + timePoints receipt.

(** ** Receipts that follow the data model *)

Definition digitValue (c : ascii) : Z := byte_code c - 48.

(** A monetary amount as the data model prints it: one or more
    digits, a point, exactly two digits. The result is the amount in
    cents. *)
Fixpoint moneyCents (s : string) (acc : Z) (seen : bool) : option Z :=
  match s with
  | EmptyString => None
  | String c s' =>
      if isDigit c then moneyCents s' (acc * 10 + digitValue c) true
      else if Ascii.eqb c "." && seen then
        match s' with
        | String d1 (String d2 EmptyString) =>
            if isDigit d1 && isDigit d2 then
              Some (acc * 100 + digitValue d1 * 10 + digitValue d2)
            else None
        | _ => None
        end
      else None
  end.

Definition cents (s : string) : option Z := moneyCents s 0 false.

Definition isMoney (s : string) : bool :=
  match cents s with Some _ => true | None => false end.

(** A calendar date printed [YYYY-MM-DD]. *)
Definition isDate (s : string) : bool :=
  match s with
  | String y1 (String y2 (String y3 (String y4 (String "-"
      (String m1 (String m2 (String "-"
        (String d1 (String d2 EmptyString))))))))) =>
      isDigit y1 && isDigit y2 && isDigit y3 && isDigit y4
      && isDigit m1 && isDigit m2 && isDigit d1 && isDigit d2
  | _ => false
  end.

(** A time of day printed [HH:MM] on the 24-hour clock. *)
Definition isTime (s : string) : bool :=
  match s with
  | String h1 (String h2 (String ":" (String m1 (String m2 EmptyString)))) =>
      isDigit h1 && isDigit h2 && isDigit m1 && isDigit m2
      && (digitValue h1 * 10 + digitValue h2 <? 24)
      && (digitValue m1 * 10 + digitValue m2 <? 60)
  | _ => false
  end.

Definition nonEmpty (s : string) : bool :=
  match s with EmptyString => false | _ => true end.

Definition validItem (item : Item) : bool :=
  nonEmpty (ShortDescription item) && isMoney (Price item).

(** Every required field is present and printed as the data model
    prescribes. *)
Definition validReceipt (receipt : Receipt) : bool :=
  nonEmpty (Retailer receipt)
  && isDate (PurchaseDate receipt)
  && isTime (PurchaseTime receipt)
  && isMoney (Total receipt)
  && forallb validItem (Items receipt).

(** ** The receipt registry and the two handlers *)

(** What a handler answers. *)
Inductive response : Type :=
  | OK_id (id : string)
  | BadRequest
  | OK_points (points : Z)
  | NotFound
  | InternalServerError.

(** [processReceipt]. [bound] is what binding the request body gave
    ([None] when the body is not a valid receipt) and [id] is the
    identifier that [uuid.New] returns on this call. *)
Definition processReceipt (bound : option Receipt) (id : string)
    (receiptStore : gmap string Receipt) : gmap string Receipt * response :=
  match bound with
  | None => (receiptStore, BadRequest)
  | Some receipt => (<[id := receipt]> receiptStore, OK_id id)
  end.

(** [getPoints]. A panic of [calculatePoints] is caught by the
    router's recovery and answered with a server error. *)
Definition getPoints (id : string) (receiptStore : gmap string Receipt)
    : gmap string Receipt * response :=
  match receiptStore !! id with
  | None => (receiptStore, NotFound)
  | Some receipt =>
      match calculatePoints receipt with
      | Ok points => (receiptStore, OK_points points)
      | Panic _ => (receiptStore, InternalServerError)
      end
  end.

(** A request to the service; the store is locked for the whole of
    the access to it, so requests act on it one after the other. *)
Inductive request : Type :=
  | Process (bound : option Receipt) (id : string)
  | GetPoints (id : string).

Definition handle (receiptStore : gmap string Receipt) (rq : request)
    : gmap string Receipt * response :=
  match rq with
  | Process bound id => processReceipt bound id receiptStore
  | GetPoints id => getPoints id receiptStore
  end.

(** The store after a sequence of requests. *)
Definition run (receiptStore : gmap string Receipt) (rqs : list request)
    : gmap string Receipt :=
  fold_left (fun st rq => fst (handle st rq)) rqs receiptStore.

(** The identifiers under which the requests registered a receipt. *)
Fixpoint registered (rqs : list request) : list string :=
  match rqs with
  | [] => []
  | Process (Some _) id :: rqs' => id :: registered rqs'
  | _ :: rqs' => registered rqs'
  end.

(** ** Auxiliary notions *)

(** The digits of a decimal number and its point: at least one digit,
    and at least one more behind the point when there is one. *)
Fixpoint decimalTail (s : string) (digit point : bool) : bool :=
  match s with
  | EmptyString => digit
  | String c s' =>
      if isDigit c then decimalTail s' true point
      else if Ascii.eqb c "." && digit && negb point then
        decimalTail s' false true
      else false
  end.

(** A decimal number: an optional sign, digits, and optionally a point
    and more digits. *)
Definition isDecimal (s : string) : bool :=
  match s with
  | EmptyString => false
  | String c s' =>
      if Ascii.eqb c "-" || Ascii.eqb c "+" then decimalTail s' false false
      else decimalTail s false false
  end.

(** Bytes with which no text that [ParseFloat] accepts starts: every
    byte but a digit, a sign, a point, an underscore and the first
    letters of "infinity" and "nan". *)
Definition noNumberStart (c : ascii) : bool :=
  negb (isDigit c || Ascii.eqb c "+" || Ascii.eqb c "-" || Ascii.eqb c "."
        || Ascii.eqb c "_" || Ascii.eqb c "i" || Ascii.eqb c "I"
        || Ascii.eqb c "n" || Ascii.eqb c "N").

(** [ParseFloat] reports a syntax error on the price of the item: the
    text is none of the numbers that [ParseFloat] reads, which are the
    decimal and the hexadecimal floating-point literals, with or
    without underscores between their digits, the infinities and
    NaN. *)
Definition priceSyntaxError (item : Item) : bool :=
  match snd (strconv.ParseFloat (Price item)) with
  | Some ErrSyntax => true
  | _ => false
  end.

(** Texts of ASCII characters only. *)
Fixpoint isASCII (s : string) : bool :=
  match s with
  | EmptyString => true
  | String c s' => (byte_code c <? 128) && isASCII s'
  end.

(** The price of the item follows the data model and is below ten
    trillion dollars. *)
Definition priceBelowTenTrillion (item : Item) : bool :=
  match cents (Price item) with
  | Some c => c <? 10 ^ 15
  | None => false
  end.

(** A receipt of a size for which no [int] overflows: a retailer name
    shorter than [2^62] bytes, at most a million items, each priced
    below ten trillion dollars. *)
Definition modest (receipt : Receipt) : bool :=
  (len (Retailer receipt) <? 2 ^ 62)
  && (Z.of_nat (length (Items receipt)) <=? 10 ^ 6)
  && forallb priceBelowTenTrillion (Items receipt).

(** *** Rounding *)

(** A record [(m, r, s)] stands for the number [m + rho / D]. *)
Definition stands_for (mrs : shr_record) (m rho D : Z) : Prop :=
  shr_m mrs = m /\ 0 <= m /\ 0 <= rho < D
  /\ shr_r mrs = (D <=? 2 * rho)
  /\ shr_s mrs = negb (rho =? 0) && negb (2 * rho =? D).

(** The location [l] is that of the fraction [rho / D]. *)
Definition locates (l : location) (rho D : Z) : Prop :=
  0 <= rho < D
  /\ l = (if rho =? 0 then loc_Exact else loc_Inexact (2 * rho ?= D)).

(** *** The scan of a mantissa *)

(** One digit of the mantissa. *)
Definition digitStep (ch : ascii) (st : atof.scan) : atof.scan :=
  if Ascii.eqb ch "0" && (atof.nd st =? 0) then
    {| atof.sawdot := atof.sawdot st; atof.sawdigits := true;
       atof.nd := atof.nd st; atof.dp := atof.dp st - 1;
       atof.mant := atof.mant st; atof.underscores := atof.underscores st |}
  else
    {| atof.sawdot := atof.sawdot st; atof.sawdigits := true;
       atof.nd := atof.nd st + 1; atof.dp := atof.dp st;
       atof.mant := atof.mant st * 10 + (byte_code ch - 48);
       atof.underscores := atof.underscores st |}.

(** The decimal point. *)
Definition dotStep (st : atof.scan) : atof.scan :=
  {| atof.sawdot := true; atof.sawdigits := atof.sawdigits st;
     atof.nd := atof.nd st; atof.dp := atof.nd st; atof.mant := atof.mant st;
     atof.underscores := atof.underscores st |}.

(** What the scan knows after a run of digits: [mant] is their value
    and [nd] the number of them from the first non-zero one on. *)
Definition digitsRead (st : atof.scan) : Prop :=
  0 <= atof.nd st
  /\ (atof.nd st = 0 -> atof.mant st = 0)
  /\ (0 < atof.nd st ->
      10 ^ (atof.nd st - 1) <= atof.mant st < 10 ^ atof.nd st).

(** ** Example receipts *)

Definition pepsi : Item :=
  {| ShortDescription := "Pepsi - 12-oz"; Price := "1.25" |}.

Definition scenarioA : Receipt :=
  {| Retailer := "Target";
     PurchaseDate := "2022-01-01";
     PurchaseTime := "13:01";
     Items := [pepsi];
     Total := "1.25" |}.

(** The receipt of the README, bought at another time of day. *)
Definition atTime (purchaseTime : string) : Receipt :=
  {| Retailer := "Target";
     PurchaseDate := "2022-01-02";
     PurchaseTime := purchaseTime;
     Items := [pepsi];
     Total := "1.25" |}.

Definition hundred : Receipt :=
  {| Retailer := "Target";
     PurchaseDate := "2022-01-02";
     PurchaseTime := "13:01";
     Items := [ {| ShortDescription := "Pepsi - 12-oz"; Price := "100.00" |} ];
     Total := "100.00" |}.

(** A total that is not a number but ends in ".00". *)
Definition malformedTotal : Receipt :=
  {| Retailer := "Target";
     PurchaseDate := "2022-01-02";
     PurchaseTime := "13:01";
     Items := [pepsi];
     Total := "abc.00" |}.

(** An item whose price is not a number, next to one whose price is. *)
Definition gift : Item := {| ShortDescription := "Gum"; Price := "free" |}.
Definition pizza : Item :=
  {| ShortDescription := "Emils Cheese Pizza"; Price := "12.25" |}.

Definition withGift : Receipt :=
  {| Retailer := "Target";
     PurchaseDate := "2022-01-02";
     PurchaseTime := "13:01";
     Items := [gift; pizza];
     Total := "12.25" |}.

(** "Pâté": four characters, six bytes in UTF-8. *)
Definition pate : Item :=
  {| ShortDescription :=
       String "P" (String "195" (String "162"
         (String "t" (String "195" (String "169" EmptyString)))));
     Price := "5.00" |}.

(** "Thé": three characters, four bytes in UTF-8. *)
Definition the : Item :=
  {| ShortDescription :=
       String "T" (String "h" (String "195" (String "169" EmptyString)));
     Price := "5.00" |}.

(** A purchase date without hyphens: it passes the binding of the
    request, which only asks for a text that is not empty. *)
Definition undated : Receipt :=
  {| Retailer := "Target";
     PurchaseDate := "20220102";
     PurchaseTime := "13:01";
     Items := [pepsi];
     Total := "1.25" |}.

(** An item with the price [s]. *)
Definition gum (s : string) : Item :=
  {| ShortDescription := "Gum"; Price := s |}.

(** A receipt with one such item. *)
Definition withPrice (s : string) : Receipt :=
  {| Retailer := "Target";
     PurchaseDate := "2022-01-02";
     PurchaseTime := "13:01";
     Items := [gum s];
     Total := "1.25" |}.


(** Two items of forty quintillion dollars each. *)
Definition fortune : Item :=
  {| ShortDescription := "Yacht fleet!"; Price := "40000000000000000000.00" |}.

Definition overflowing : Receipt :=
  {| Retailer := "Target";
     PurchaseDate := "2022-01-02";
     PurchaseTime := "13:01";
     Items := [fortune; fortune];
     Total := "80000000000000000000.00" |}.

(** ** Notions for the further properties *)

(** The number of occurrences of the byte [b] in [s]. *)
Fixpoint countByte (b : ascii) (s : string) : nat :=
  match s with
  | EmptyString => 0%nat
  | String c s' =>
      if Ascii.eqb c b then S (countByte b s') else countByte b s'
  end.

(** What the store holds under [id] after the requests, when it held
    [before] under it: the receipt of the last registration that was
    given this identifier. *)
Fixpoint lastRegistered (rqs : list request) (id : string)
    (before : option Receipt) : option Receipt :=
  match rqs with
  | [] => before
  | Process (Some receipt) id' :: rqs' =>
      lastRegistered rqs' id (if String.eqb id' id then Some receipt else before)
  | _ :: rqs' => lastRegistered rqs' id before
  end.

(** The answer to a lookup of [receipt]. *)
Definition pointsAnswer (receipt : Receipt) : response :=
  match calculatePoints receipt with
  | Ok points => OK_points points
  | Panic _ => InternalServerError
  end.

(** The receipt [withGift] with its two items in the other order. *)
Definition swapped : Receipt :=
  {| Retailer := "Target";
     PurchaseDate := "2022-01-02";
     PurchaseTime := "13:01";
     Items := [pizza; gift];
     Total := "12.25" |}.

(** Texts of decimal digits only. *)
Fixpoint allDigits (s : string) : bool :=
  match s with
  | EmptyString => true
  | String c s' => isDigit c && allDigits s'
  end.

(** The number that the digits of [s] denote, read after a number
    [acc]. *)
Fixpoint digitsValue (s : string) (acc : Z) : Z :=
  match s with
  | EmptyString => acc
  | String c s' => digitsValue s' (acc * 10 + digitValue c)
  end.

(** Texts of ASCII letters and digits only. *)
Fixpoint allAlnum (s : string) : bool :=
  match s with
  | EmptyString => true
  | String c s' => regexp.alnum c && allAlnum s'
  end.

(** The number of ASCII letters and digits of a text, as the retailer
    rule counts them. *)
Definition alnumCount (s : string) : Z :=
  Z.of_nat (length (regexp.FindAllString s)).

(** The day of the month of a date printed [YYYY-MM-DD]. *)
Definition dayOfMonth (date : string) : Z :=
  match String.get 8 date, String.get 9 date with
  | Some d1, Some d2 => digitValue d1 * 10 + digitValue d2
  | _, _ => 0
  end.

(** The texts that the time rule rewards: ["14:01"] to ["14:59"] and
    ["15:00"] to ["15:59"]. *)
Definition afternoonText (s : string) : bool :=
  match s with
  | String h1 (String h2 (String c (String m1 (String m2 EmptyString)))) =>
      Ascii.eqb h1 "1" && Ascii.eqb c ":"
      && isDigit m1 && isDigit m2 && (digitValue m1 <? 6)
      && (Ascii.eqb h2 "5"
          || (Ascii.eqb h2 "4"
              && negb (Ascii.eqb m1 "0" && Ascii.eqb m2 "0")))
  | _ => false
  end.

(** The time of day, in minutes after midnight, of a time printed
    [HH:MM]. *)
Definition minutesOfDay (time : string) : Z :=
  match String.get 0 time, String.get 1 time,
        String.get 3 time, String.get 4 time with
  | Some h1, Some h2, Some m1, Some m2 =>
      (digitValue h1 * 10 + digitValue h2) * 60
      + digitValue m1 * 10 + digitValue m2
  | _, _, _, _ => 0
  end.

(** The blank characters of ASCII: tab, line feed, vertical tab, form
    feed, carriage return and space. *)
Definition isBlank (c : ascii) : bool :=
  let b := byte_code c in ((9 <=? b) && (b <=? 13)) || (b =? 32).

(** Texts of blank characters only. *)
Fixpoint allBlank (s : string) : bool :=
  match s with
  | EmptyString => true
  | String c s' => isBlank c && allBlank s'
  end.

(** The rules of [calculatePoints] as its comments word them, in exact
    arithmetic on the amounts in cents: for an item, a fifth of the
    price, rounded up to the nearest integer, when the trimmed length
    of the description is a multiple of 3. *)
Definition exactItemPoints (item : Item) : Z :=
  match cents (Price item) with
  | Some c => if trimmedLen item mod 3 =? 0 then (c + 499) / 500 else 0
  | None => 0
  end.

(** The points of a receipt by these rules. *)
Definition exactScore (receipt : Receipt) : Z :=
  (* one point for every alphanumeric character in the retailer name *)
  alnumCount (Retailer receipt)
  (* 50 points if the total is a round dollar amount with no cents,
     25 points if the total is a multiple of 0.25 *)
  + match cents (Total receipt) with
    | Some c =>
        (if c mod 100 =? 0 then 50 else 0) + (if c mod 25 =? 0 then 25 else 0)
    | None => 0
    end
  (* 5 points for every two items on the receipt *)
  + 5 * (Z.of_nat (length (Items receipt)) / 2)
  + fold_right (fun item acc => exactItemPoints item + acc) 0 (Items receipt)
  (* 6 points if the day in the purchase date is odd *)
  + (if Z.odd (dayOfMonth (PurchaseDate receipt)) then 6 else 0)
  (* 10 points if the time of purchase is after 2:00pm and before 4:00pm *)
  + (if (14 * 60 <? minutesOfDay (PurchaseTime receipt))
        && (minutesOfDay (PurchaseTime receipt) <? 16 * 60)
     then 10 else 0).

(** * Properties *)

(** ** The library functions on some inputs *)

Example Atoi_examples :
  strconv.Atoi "125" = (125, None)
  /\ strconv.Atoi "01" = (1, None)
  /\ strconv.Atoi "-3" = (-3, None)
  /\ strconv.Atoi "abc00" = (0, Some ErrSyntax)
  /\ strconv.Atoi "" = (0, Some ErrSyntax)
  /\ strconv.Atoi "8000000000000000000000" = (maxInt64, Some ErrRange)
  /\ strconv.Atoi "-8000000000000000000000" = (minInt64, Some ErrRange).
Proof. vm_compute. repeat split; reflexivity. Qed.

Example ParseFloat_examples :
  strconv.ParseFloat "1.25" = (S754_finite false 5629499534213120 (-52), None)
  /\ strconv.ParseFloat "0.1" = (S754_finite false 7205759403792794 (-56), None)
  /\ strconv.ParseFloat "1e23" = (S754_finite false 5960464477539062 24, None)
  /\ strconv.ParseFloat "5e-324" = (S754_finite false 1 (-1074), None)
  /\ strconv.ParseFloat "1_000.5" = (S754_finite false 8800491068719104 (-43), None)
  /\ strconv.ParseFloat "0x1p4" = (S754_finite false 4503599627370496 (-48), None)
  /\ strconv.ParseFloat "-0" = (S754_zero true, None)
  /\ strconv.ParseFloat "Infinity" = (S754_infinity false, None)
  /\ strconv.ParseFloat "1e999" = (S754_infinity false, Some ErrRange)
  /\ strconv.ParseFloat "1e-999" = (S754_zero false, None)
  /\ strconv.ParseFloat "abc" = (S754_zero false, Some ErrSyntax)
  /\ strconv.ParseFloat "1.2.3" = (S754_zero false, Some ErrSyntax)
  /\ strconv.ParseFloat " 1" = (S754_zero false, Some ErrSyntax)
  /\ strconv.ParseFloat "" = (S754_zero false, Some ErrSyntax).
Proof. vm_compute. repeat split; reflexivity. Qed.

Example roundedPoints_examples :
  roundedPoints "12.25" = 3 /\ roundedPoints "12.00" = 3
  /\ roundedPoints "5.00" = 1 /\ roundedPoints "5.01" = 2
  /\ roundedPoints "0.00" = 0 /\ roundedPoints "-1.25" = 0
  /\ roundedPoints "free" = 0.
Proof. vm_compute. repeat split; reflexivity. Qed.

Example text_examples :
  gostrings.TrimSpace "   Klarbrunn 12-PK 12 FL OZ  " = "Klarbrunn 12-PK 12 FL OZ"
  /\ gostrings.TrimSpace "   " = ""
  /\ gostrings.Split "2022-01-01" "-" = ["2022"; "01"; "01"]
  /\ gostrings.Split "20220101" "-" = ["20220101"]
  /\ gostrings.ReplaceAll "35.35" "." "" = "3535"
  /\ gostrings.HasSuffix "9.00" ".00" = true
  /\ gostrings.HasSuffix "00" ".00" = false
  /\ length (regexp.FindAllString "M&M Corner Market") = 14%nat.
Proof. vm_compute. repeat split; reflexivity. Qed.

Example Parse_examples :
  gotime.Parse "14:01" = Some {| gotime.Hour := 14; gotime.Minute := 1 |}
  /\ gotime.Parse "9:05" = Some {| gotime.Hour := 9; gotime.Minute := 5 |}
  /\ gotime.Parse "24:00" = None
  /\ gotime.Parse "14:60" = None
  /\ gotime.Parse "14:5" = None
  /\ gotime.Parse "2pm" = None.
Proof. vm_compute. repeat split; reflexivity. Qed.

(** A receipt whose purchase date has no third field makes
    [calculatePoints] panic, and [getPoints] answer a server error. *)
Example undated_panics :
  calculatePoints undated = Panic "index out of range"
  /\ snd (getPoints "id-1" {[ "id-1" := undated ]}) = InternalServerError.
Proof. vm_compute. split; reflexivity. Qed.

(** ** Machine integers *)

Lemma wrap64_small z : minInt64 <= z <= maxInt64 -> wrap64 z = z.
Proof.
  unfold wrap64, minInt64, maxInt64. intros H.
  rewrite Z.mod_small; lia.
Qed.

Lemma wrap64_range z : minInt64 <= wrap64 z <= maxInt64.
Proof.
  unfold wrap64, minInt64, maxInt64.
  pose proof (Z.mod_pos_bound (z + 2 ^ 63) (2 ^ 64) ltac:(lia)). lia.
Qed.

Lemma wrap64_add_l a b : wrap64 (wrap64 a + b) = wrap64 (a + b).
Proof.
  unfold wrap64.
  replace ((a + 2 ^ 63) mod 2 ^ 64 - 2 ^ 63 + b + 2 ^ 63)
    with ((a + 2 ^ 63) mod 2 ^ 64 + b) by lia.
  rewrite Zplus_mod_idemp_l.
  replace (a + 2 ^ 63 + b) with (a + b + 2 ^ 63) by lia. reflexivity.
Qed.

Lemma add64_wrap a b : add64 (wrap64 a) b = wrap64 (a + b).
Proof. apply wrap64_add_l. Qed.

(** ** The score is the sum of the contributions *)

Lemma fold_itemStep items : forall a,
  fold_left itemStep items (wrap64 a) = wrap64 (a + descriptionPoints items).
Proof.
  induction items as [|item items IH]; intros a; simpl.
  - f_equal. lia.
  - unfold itemStep at 2, itemPoints, trimmedLen, roundedPoints.
    destruct (Z.rem _ 3 =? 0).
    + destruct (strconv.ParseFloat (Price item)) as [price e]. simpl fst.
      rewrite add64_wrap, IH. f_equal. lia.
    + rewrite IH. f_equal; lia.
Qed.

(** Whenever the purchase date has a third field, [calculatePoints]
    returns the sum of the seven contributions, reduced to an [int]. *)
Lemma calculatePoints_sum receipt dayText :
  nth_error (gostrings.Split (PurchaseDate receipt) "-") 2 = Some dayText ->
  calculatePoints receipt = Ok (wrap64 (pointsSum receipt dayText)).
Proof.
  intros Hday. unfold calculatePoints, pointsSum. rewrite Hday.
  unfold retailerPoints, roundDollarPoints, quarterPoints, totalInCents,
    itemCountPoints, dayPoints, timePoints.
  destruct (strconv.Atoi (gostrings.ReplaceAll _ _ _)) as [cents0 e0].
  simpl fst.
  set (m := Z.of_nat (length (regexp.FindAllString (Retailer receipt)))).
  set (ic := mul64 _ 5).
  assert (H0 : add64 0 m = wrap64 m) by (unfold add64; f_equal).
  rewrite H0. clear H0.
  f_equal.
  repeat match goal with
  | |- context [if ?b then _ else _] => destruct b
  | |- context [match ?x with (_, _) => _ end] => destruct x
  | |- context [match ?x with Some _ => _ | None => _ end] => destruct x
  end;
  repeat rewrite ?add64_wrap, ?fold_itemStep; f_equal; lia.
Qed.

Lemma calculatePoints_panics receipt :
  nth_error (gostrings.Split (PurchaseDate receipt) "-") 2 = None ->
  calculatePoints receipt = Panic "index out of range".
Proof.
  intros H. unfold calculatePoints. rewrite H.
  destruct (strconv.Atoi _); reflexivity.
Qed.

(** ** Texts *)

Lemma append_nil s : EmptyString ++ s = s.
Proof. reflexivity. Qed.

Lemma append_cons c s1 s2 : String c s1 ++ s2 = String c (s1 ++ s2).
Proof. reflexivity. Qed.

Lemma string_length_app s1 s2 :
  String.length (s1 ++ s2) = (String.length s1 + String.length s2)%nat.
Proof.
  induction s1 as [|c s1 IH]; [reflexivity|].
  change (S (String.length (s1 ++ s2)) = S (String.length s1 + String.length s2)).
  f_equal. exact IH.
Qed.

Lemma substring_whole s : substring 0 (String.length s) s = s.
Proof.
  induction s as [|c s IH]; [reflexivity|].
  cbn [String.length substring]. f_equal. exact IH.
Qed.

Lemma substring_after pre suf :
  substring (String.length pre) (String.length suf) (pre ++ suf) = suf.
Proof.
  induction pre as [|c pre IH]; [apply substring_whole | exact IH].
Qed.

Lemma substring_split s : forall k,
  (k <= String.length s)%nat ->
  s = substring 0 k s ++ substring k (String.length s - k) s.
Proof.
  induction s as [|c s IH]; intros k Hk.
  - destruct k; reflexivity.
  - destruct k as [|k].
    + rewrite Nat.sub_0_r, substring_whole. reflexivity.
    + cbn in Hk. cbn [substring String.length Nat.sub]. rewrite append_cons.
      f_equal. apply IH. lia.
Qed.

(** [HasSuffix] holds exactly of the texts that end in the suffix. *)
Lemma HasSuffix_spec s suffix :
  gostrings.HasSuffix s suffix = true <-> exists pre, s = pre ++ suffix.
Proof.
  unfold gostrings.HasSuffix. rewrite andb_true_iff, Nat.leb_le, String.eqb_eq.
  split.
  - intros [Hlen Hsub].
    exists (substring 0 (String.length s - String.length suffix) s).
    pose proof (substring_split s (String.length s - String.length suffix)
                  ltac:(lia)) as Hsp.
    replace (String.length s - (String.length s - String.length suffix))%nat
      with (String.length suffix) in Hsp by lia.
    rewrite Hsub in Hsp. exact Hsp.
  - intros [pre ->]. rewrite string_length_app. split; [lia|].
    replace (String.length pre + String.length suffix - String.length suffix)%nat
      with (String.length pre) by lia.
    apply substring_after.
Qed.

Lemma isASCII_substring s : forall i n,
  isASCII s = true -> isASCII (substring i n s) = true.
Proof.
  induction s as [|c s IH]; intros i n H.
  - destruct i, n; reflexivity.
  - cbn [isASCII] in H. apply andb_true_iff in H as [Hc Hs].
    destruct i as [|i].
    + destruct n as [|n]; [reflexivity|]. cbn [substring isASCII].
      rewrite Hc. cbn [andb]. apply IH. exact Hs.
    + cbn [substring]. apply IH. exact Hs.
Qed.

Lemma trimLeftLoop_ascii f fuel : forall s,
  isASCII s = true -> isASCII (gostrings.trimLeftLoop fuel f s) = true.
Proof.
  induction fuel as [|fuel IH]; intros s H; [exact H|].
  cbn [gostrings.trimLeftLoop]. destruct s as [|c s]; [reflexivity|].
  destruct (utf8.DecodeRuneInString (String c s)) as [r size].
  destruct (f r); [|exact H]. apply IH, isASCII_substring, H.
Qed.

Lemma trimRightLoop_ascii f fuel : forall s,
  isASCII s = true -> isASCII (gostrings.trimRightLoop fuel f s) = true.
Proof.
  induction fuel as [|fuel IH]; intros s H; [exact H|].
  cbn [gostrings.trimRightLoop]. destruct s as [|c s]; [reflexivity|].
  destruct (utf8.DecodeLastRuneInString (String c s)) as [r size].
  destruct (f r); [|exact H]. apply IH, isASCII_substring, H.
Qed.

Lemma TrimSpace_ascii s :
  isASCII s = true -> isASCII (gostrings.TrimSpace s) = true.
Proof.
  intros H. unfold gostrings.TrimSpace, gostrings.TrimFunc,
    gostrings.TrimRightFunc, gostrings.TrimLeftFunc.
  apply trimRightLoop_ascii, trimLeftLoop_ascii, H.
Qed.

Lemma runeCountLoop_ascii fuel : forall s n,
  isASCII s = true -> (String.length s <= fuel)%nat ->
  utf8.runeCountLoop fuel s n = n + len s.
Proof.
  induction fuel as [|fuel IH]; intros s n H Hf.
  - destruct s; [cbn; unfold len; cbn; lia | cbn in Hf; lia].
  - cbn [utf8.runeCountLoop]. destruct s as [|c s].
    + unfold len. cbn. lia.
    + cbn [isASCII] in H. apply andb_true_iff in H as [Hc Hs].
      assert (Hdec : utf8.DecodeRuneInString (String c s) = (byte_code c, 1%nat)).
      { unfold utf8.DecodeRuneInString, utf8.first.
        change (byte_code c <? 128) with (byte_code c <? 128) in Hc.
        replace (byte_code c <? 0x80) with true by (symmetry; exact Hc).
        reflexivity. }
      rewrite Hdec.
      change (String.length (String c s)) with (S (String.length s)).
      replace (S (String.length s) - 1)%nat with (String.length s) by lia.
      cbn [substring]. rewrite substring_whole.
      rewrite IH; [|exact Hs|cbn in Hf; lia].
      unfold len. cbn [String.length]. lia.
Qed.

(** The bytes of an ASCII text are its characters. *)
Lemma RuneCount_ascii s :
  isASCII s = true -> utf8.RuneCountInString s = len s.
Proof.
  intros H. unfold utf8.RuneCountInString.
  rewrite runeCountLoop_ascii by (try assumption; lia). lia.
Qed.

Lemma substring_length_le s : forall n m,
  (String.length (substring n m s) <= m)%nat.
Proof.
  induction s as [|c s IH]; intros n m.
  - destruct n, m; cbn; lia.
  - destruct n as [|n].
    + destruct m as [|m]; [cbn; lia|]. cbn [substring String.length].
      specialize (IH 0%nat m). lia.
    + cbn [substring]. apply IH.
Qed.

(** A rune of a text that is not empty takes one to four bytes. *)
Lemma DecodeRuneInString_size c s :
  (1 <= snd (utf8.DecodeRuneInString (String c s)) <= 4)%nat.
Proof.
  unfold utf8.DecodeRuneInString.
  repeat case_match; cbn [snd]; lia.
Qed.

Lemma backToStart_le s steps : forall start lim,
  utf8.backToStart s steps start lim <= start.
Proof.
  induction steps as [|k IH]; intros start lim; cbn [utf8.backToStart]; [lia|].
  repeat case_match; try lia. specialize (IH (start - 1) lim). lia.
Qed.

Lemma DecodeLastRuneInString_size c s :
  (1 <= snd (utf8.DecodeLastRuneInString (String c s)))%nat.
Proof.
  unfold utf8.DecodeLastRuneInString.
  assert (Hlen : 1 <= len (String c s)) by (unfold len; cbn [String.length]; lia).
  destruct (Z.eqb_spec (len (String c s)) 0); [lia|].
  destruct (_ <? utf8.RuneSelf); [cbn; lia|].
  set (start := Z.max _ 0).
  assert (Hstart : start <= len (String c s) - 1).
  { unfold start.
    pose proof (backToStart_le (String c s) 4 (len (String c s) - 1 - 1)
                  (Z.max (len (String c s) - utf8.UTFMax) 0)). lia. }
  destruct (utf8.DecodeRuneInString _) as [r size].
  destruct (Z.eqb_spec (start + Z.of_nat size) (len (String c s))); cbn [snd]; lia.
Qed.

(** The loops of the trimming functions stop because a rune fails the
    test or the text is used up, never for want of fuel. *)
Lemma trimLeftLoop_stops f fuel : forall s,
  (String.length s <= fuel)%nat ->
  gostrings.trimLeftLoop fuel f s = EmptyString
  \/ f (fst (utf8.DecodeRuneInString (gostrings.trimLeftLoop fuel f s))) = false.
Proof.
  induction fuel as [|fuel IH]; intros s Hlen.
  - destruct s; [left; reflexivity | cbn in Hlen; lia].
  - cbn [gostrings.trimLeftLoop]. destruct s as [|c s]; [left; reflexivity|].
    pose proof (DecodeRuneInString_size c s) as Hsize.
    destruct (utf8.DecodeRuneInString (String c s)) as [r size] eqn:Hdec.
    cbn [snd] in Hsize.
    destruct (f r) eqn:Hf.
    + apply IH.
      pose proof (substring_length_le (String c s) size
                    (String.length (String c s) - size)).
      cbn [String.length] in *. lia.
    + right. rewrite Hdec. exact Hf.
Qed.

Lemma trimRightLoop_stops f fuel : forall s,
  (String.length s <= fuel)%nat ->
  gostrings.trimRightLoop fuel f s = EmptyString
  \/ f (fst (utf8.DecodeLastRuneInString (gostrings.trimRightLoop fuel f s))) = false.
Proof.
  induction fuel as [|fuel IH]; intros s Hlen.
  - destruct s; [left; reflexivity | cbn in Hlen; lia].
  - cbn [gostrings.trimRightLoop]. destruct s as [|c s]; [left; reflexivity|].
    pose proof (DecodeLastRuneInString_size c s) as Hsize.
    destruct (utf8.DecodeLastRuneInString (String c s)) as [r size] eqn:Hdec.
    cbn [snd] in Hsize.
    destruct (f r) eqn:Hf.
    + apply IH.
      pose proof (substring_length_le (String c s) 0
                    (String.length (String c s) - size)).
      cbn [String.length] in *. lia.
    + right. rewrite Hdec. exact Hf.
Qed.

(** [TrimSpace] leaves no white space at the end of its result. *)
Lemma TrimSpace_stops s :
  gostrings.TrimSpace s = EmptyString
  \/ unicode.IsSpace
       (fst (utf8.DecodeLastRuneInString (gostrings.TrimSpace s))) = false.
Proof.
  unfold gostrings.TrimSpace, gostrings.TrimFunc, gostrings.TrimRightFunc.
  apply trimRightLoop_stops. lia.
Qed.

(** ** Rounding to binary64 *)

Lemma digits2_pos_bounds p :
  2 ^ (Z.pos (digits2_pos p) - 1) <= Z.pos p < 2 ^ Z.pos (digits2_pos p).
Proof.
  induction p as [p IH|p IH|]; cbn [digits2_pos].
  - rewrite Pos2Z.inj_succ.
    replace (Z.succ (Z.pos (digits2_pos p)) - 1) with (Z.succ (Z.pos (digits2_pos p) - 1)) by lia.
    rewrite !Z.pow_succ_r by lia. lia.
  - rewrite Pos2Z.inj_succ.
    replace (Z.succ (Z.pos (digits2_pos p)) - 1) with (Z.succ (Z.pos (digits2_pos p) - 1)) by lia.
    rewrite !Z.pow_succ_r by lia. lia.
  - cbn. lia.
Qed.

Lemma shr_1_eq m r s :
  0 <= m ->
  shr_1 {| shr_m := m; shr_r := r; shr_s := s |}
  = {| shr_m := m / 2; shr_r := Z.odd m; shr_s := r || s |}.
Proof.
  intros Hm. destruct m as [|p|p]; [reflexivity| |lia].
  destruct p as [p|p|]; cbn [shr_1]; f_equal.
  - apply Z.div_unique with 1; lia.
  - apply Z.div_unique with 0; lia.
Qed.

Lemma shr_1_stands_for mrs m rho D :
  stands_for mrs m rho D ->
  stands_for (shr_1 mrs) (m / 2) ((m mod 2) * D + rho) (2 * D).
Proof.
  intros (Hm & Hm0 & Hrho & Hr & Hs).
  destruct mrs as [m' r s]. cbn [shr_m shr_r shr_s] in *. subst m'.
  rewrite shr_1_eq by assumption.
  assert (Hmod : 0 <= m mod 2 < 2) by (apply Z.mod_pos_bound; lia).
  assert (Hdiv : m = 2 * (m / 2) + m mod 2) by (apply Z.div_mod; lia).
  assert (Hodd : Z.odd m = (m mod 2 =? 1)).
  { rewrite Zmod_odd. destruct (Z.odd m); reflexivity. }
  unfold stands_for. cbn [shr_m shr_r shr_s]. rewrite Hodd. subst r s.
  assert (Hb : m mod 2 = 0 \/ m mod 2 = 1) by lia.
  destruct Hb as [Hb|Hb]; rewrite Hb;
    (split; [reflexivity|]); (split; [lia|]); (split; [lia|]);
    destruct (Z.eqb_spec rho 0), (Z.leb_spec D (2 * rho)), (Z.eqb_spec (2 * rho) D);
    cbn [negb andb orb];
    repeat match goal with
    | |- context [Z.leb ?a ?b] => destruct (Z.leb_spec a b)
    | |- context [Z.eqb ?a ?b] => destruct (Z.eqb_spec a b)
    end; cbn [negb andb orb]; try (split; reflexivity); lia.
Qed.

Lemma iter_pos_nat {A} (f : A -> A) p : forall x,
  SpecFloat.iter_pos f p x = Nat.iter (Pos.to_nat p) f x.
Proof.
  induction p as [p IH|p IH|]; intros x; cbn [SpecFloat.iter_pos].
  - rewrite !IH, Pos2Nat.inj_xI.
    replace (S (2 * Pos.to_nat p)) with (Pos.to_nat p + (Pos.to_nat p + 1))%nat by lia.
    rewrite !Nat.iter_add. reflexivity.
  - rewrite !IH, Pos2Nat.inj_xO.
    replace (2 * Pos.to_nat p)%nat with (Pos.to_nat p + Pos.to_nat p)%nat by lia.
    rewrite Nat.iter_add. reflexivity.
  - reflexivity.
Qed.

Lemma iter_shr_1_stands_for n : forall mrs m rho D,
  stands_for mrs m rho D ->
  stands_for (Nat.iter n shr_1 mrs) (m / 2 ^ Z.of_nat n)
    ((m mod 2 ^ Z.of_nat n) * D + rho) (2 ^ Z.of_nat n * D).
Proof.
  induction n as [|n IH]; intros mrs m rho D H.
  - cbn [Nat.iter]. change (2 ^ Z.of_nat 0) with 1.
    rewrite Z.div_1_r, Z.mod_1_r. replace (0 * D + rho) with rho by lia.
    replace (1 * D) with D by lia. exact H.
  - cbn [Nat.iter]. apply IH in H. apply shr_1_stands_for in H.
    destruct H as (H1 & H2 & H3 & H4 & H5).
    assert (Hp : 0 < 2 ^ Z.of_nat n) by (apply Z.pow_pos_nonneg; lia).
    assert (E1 : m / 2 ^ Z.of_nat n / 2 = m / 2 ^ Z.of_nat (S n)).
    { rewrite Nat2Z.inj_succ, Z.pow_succ_r by lia.
      rewrite Z.div_div by lia. f_equal. lia. }
    assert (E2 : (m / 2 ^ Z.of_nat n) mod 2 * (2 ^ Z.of_nat n * D) + (m mod 2 ^ Z.of_nat n * D + rho)
                 = m mod 2 ^ Z.of_nat (S n) * D + rho).
    { rewrite Nat2Z.inj_succ, Z.pow_succ_r by lia.
      rewrite (Z.mul_comm 2 (2 ^ Z.of_nat n)).
      rewrite Z.rem_mul_r by lia. lia. }
    assert (E3 : 2 * (2 ^ Z.of_nat n * D) = 2 ^ Z.of_nat (S n) * D).
    { rewrite Nat2Z.inj_succ, Z.pow_succ_r by lia. lia. }
    unfold stands_for. rewrite <- E1, <- E2, <- E3. repeat split; try assumption; lia.
Qed.

Lemma Zdigits2_unique m k :
  2 ^ (k - 1) <= m < 2 ^ k -> 0 < m -> Zdigits2 m = k.
Proof.
  intros H Hm. destruct m as [|p|p]; try lia. cbn [Zdigits2].
  pose proof (digits2_pos_bounds p) as Hp.
  set (d := Z.pos (digits2_pos p)) in *.
  assert (Hd : 0 < d) by (unfold d; lia).
  destruct (Z.lt_trichotomy d k) as [Hlt|[Heq|Hgt]]; [|assumption|].
  - assert (2 ^ d <= 2 ^ (k - 1)) by (apply Z.pow_le_mono_r; lia). lia.
  - assert (0 <= k).
    { destruct (Z.le_gt_cases 0 k); [assumption|].
      rewrite (Z.pow_neg_r 2 k) in H by lia. lia. }
    assert (2 ^ k <= 2 ^ (d - 1)) by (apply Z.pow_le_mono_r; lia). lia.
Qed.

Lemma Zdigits2_bounds m :
  0 < m -> 2 ^ (Zdigits2 m - 1) <= m < 2 ^ Zdigits2 m.
Proof.
  intros Hm. destruct m as [|p|p]; try lia. apply digits2_pos_bounds.
Qed.

Ltac bsimp :=
  cbn [negb andb orb shr_m shr_r shr_s shr_record_of_loc loc_of_shr_record
       round_nearest_even].

Ltac bool_cases :=
  repeat match goal with
  | |- context [Z.leb ?a ?b] => destruct (Z.leb_spec a b)
  | |- context [Z.eqb ?a ?b] => destruct (Z.eqb_spec a b)
  end; bsimp; try reflexivity; try lia.

Lemma record_of_loc_stands_for m l rho D :
  0 <= m -> locates l rho D -> stands_for (shr_record_of_loc m l) m rho D.
Proof.
  intros Hm [Hrho ->]. unfold stands_for.
  destruct (Z.eqb_spec rho 0) as [E|E].
  - bsimp. repeat split; bool_cases.
  - destruct (Z.compare_spec (2 * rho) D) as [C|C|C]; bsimp;
      repeat split; bool_cases.
Qed.

Lemma loc_of_stands_for mrs m rho D :
  stands_for mrs m rho D -> locates (loc_of_shr_record mrs) rho D.
Proof.
  intros (Hm & Hm0 & Hrho & Hr & Hs). split; [assumption|].
  destruct mrs as [m' r s]. cbn [shr_m shr_r shr_s] in *. subst r s.
  cbn [loc_of_shr_record].
  destruct (Z.eqb_spec rho 0), (Z.leb_spec D (2 * rho)), (Z.eqb_spec (2 * rho) D),
    (Z.compare_spec (2 * rho) D); bsimp; try reflexivity; lia.
Qed.

Lemma round_nearest_even_spec m l rho D :
  locates l rho D ->
  (round_nearest_even m l = m \/ round_nearest_even m l = m + 1)
  /\ 2 * (m * D + rho) - D <= 2 * (round_nearest_even m l * D)
     <= 2 * (m * D + rho) + D
  /\ (rho = 0 -> round_nearest_even m l = m)
  /\ (2 * rho < D -> round_nearest_even m l = m)
  /\ (D < 2 * rho -> round_nearest_even m l = m + 1).
Proof.
  intros [Hrho ->].
  destruct (Z.eqb_spec rho 0) as [E|E]; cbn [round_nearest_even].
  - repeat split; try (left; reflexivity); try reflexivity; try lia.
  - destruct (Z.compare_spec (2 * rho) D) as [C|C|C].
    + destruct (Z.even m); repeat split; auto; try lia.
    + repeat split; auto; try lia.
    + repeat split; auto; try lia.
Qed.

Lemma shr_stands_for mrs e n m rho D :
  stands_for mrs m rho D -> 0 <= n ->
  stands_for (fst (shr mrs e n)) (m / 2 ^ n) ((m mod 2 ^ n) * D + rho) (2 ^ n * D)
  /\ snd (shr mrs e n) = e + n.
Proof.
  intros H Hn. destruct n as [|p|p]; [| |lia].
  - cbn [shr fst snd]. change (2 ^ 0) with 1.
    rewrite Z.div_1_r, Z.mod_1_r. replace (0 * D + rho) with rho by lia.
    replace (1 * D) with D by lia. split; [exact H|lia].
  - cbn [shr fst snd]. split; [|reflexivity].
    rewrite iter_pos_nat. rewrite <- (positive_nat_Z p).
    apply iter_shr_1_stands_for. exact H.
Qed.

Lemma fexp_normal e : -1074 <= e - 53 -> fexp 53 1024 e = e - 53.
Proof. unfold fexp, emin. lia. Qed.

(** Rounding a number with at least 53 significant bits, in the
    normal range: the result is [m1] units of the grid [2^(ex + n)],
    [n] being the number of bits dropped, and [m1] is within half a
    unit of the number. *)
Lemma binary_round_aux_grid sx mx ex lx rho D :
  0 < mx -> locates lx rho D ->
  53 <= Zdigits2 mx ->
  -1074 <= ex + Zdigits2 mx - 53 ->
  ex + Zdigits2 mx - 53 + 1 <= 971 ->
  let n := Zdigits2 mx - 53 in
  exists m e m1,
    binary_round_aux 53 1024 sx mx ex lx = S754_finite sx m e
    /\ 2 ^ 52 <= Z.pos m < 2 ^ 53
    /\ ((e = ex + n /\ Z.pos m = m1) \/ (e = ex + n + 1 /\ 2 * Z.pos m = m1))
    /\ 2 ^ 52 <= m1 <= 2 ^ 53
    /\ 2 * (mx * D + rho) - 2 ^ n * D <= 2 * (m1 * (2 ^ n * D))
       <= 2 * (mx * D + rho) + 2 ^ n * D
    /\ (rho = 0 -> mx mod 2 ^ n = 0 -> m1 * 2 ^ n = mx).
Proof.
  intros Hmx Hloc Hd Hlo Hhi n.
  assert (Hn : 0 <= n) by (unfold n; lia).
  assert (Hpn : 0 < 2 ^ n) by (apply Z.pow_pos_nonneg; lia).
  pose proof (Zdigits2_bounds mx Hmx) as Hb.
  replace (Zdigits2 mx - 1) with (n + 52) in Hb by (unfold n; lia).
  replace (Zdigits2 mx) with (n + 53) in Hb by (unfold n; lia).
  rewrite !Z.pow_add_r in Hb by lia.
  assert (Hdm : mx = 2 ^ n * (mx / 2 ^ n) + mx mod 2 ^ n)
    by (apply Z.div_mod; lia).
  assert (Hmod : 0 <= mx mod 2 ^ n < 2 ^ n) by (apply Z.mod_pos_bound; lia).
  assert (Hq : 2 ^ 52 <= mx / 2 ^ n < 2 ^ 53).
  { split.
    - apply Z.div_le_lower_bound; lia.
    - apply Z.div_lt_upper_bound; lia. }
  unfold binary_round_aux, shr_fexp.
  rewrite (fexp_normal (Zdigits2 mx + ex)) by lia.
  replace (Zdigits2 mx + ex - 53 - ex) with n by (unfold n; lia).
  destruct (shr_stands_for (shr_record_of_loc mx lx) ex n mx rho D) as [H1 H2];
    [apply record_of_loc_stands_for; [lia|assumption] | assumption |].
  destruct (shr (shr_record_of_loc mx lx) ex n) as [mrs' e'].
  cbn [fst snd] in H1, H2. subst e'.
  pose proof (loc_of_stands_for _ _ _ _ H1) as Hloc'.
  destruct H1 as (Hm' & _).
  rewrite Hm'.
  destruct (round_nearest_even_spec (mx / 2 ^ n) _ _ _ Hloc')
    as (Hcase & Hnear & Hex & _).
  set (m1 := round_nearest_even (mx / 2 ^ n) (loc_of_shr_record mrs')) in *.
  assert (Hnear' : 2 * (mx * D + rho) - 2 ^ n * D <= 2 * (m1 * (2 ^ n * D))
                   <= 2 * (mx * D + rho) + 2 ^ n * D).
  { replace (mx * D + rho)
      with (mx / 2 ^ n * (2 ^ n * D) + (mx mod 2 ^ n * D + rho)) by nia.
    exact Hnear. }
  assert (Hexact : rho = 0 -> mx mod 2 ^ n = 0 -> m1 * 2 ^ n = mx).
  { intros E1 E2. rewrite Hex by (rewrite E1, E2; lia). lia. }
  assert (Hm1 : 2 ^ 52 <= m1 <= 2 ^ 53) by lia.
  destruct (Z.eq_dec m1 (2 ^ 53)) as [Etop|Etop].
  - (* the mantissa is carried to the next binade *)
    rewrite Etop in *.
    change (Zdigits2 (2 ^ 53)) with 54.
    rewrite (fexp_normal (54 + (ex + n))) by (unfold n; lia).
    replace (54 + (ex + n) - 53 - (ex + n)) with 1 by lia.
    cbn [shr shr_record_of_loc SpecFloat.iter_pos]. rewrite shr_1_eq by lia.
    cbn [shr_m]. change (2 ^ 53 / 2) with (Z.pos (2 ^ 52)%positive).
    cbv beta iota.
    replace (ex + n + 1 <=? 1024 - 53) with true
      by (symmetry; apply Z.leb_le; unfold n; lia).
    exists (2 ^ 52)%positive, (ex + n + 1), (2 ^ 53).
    split; [reflexivity|]. split; [cbn; lia|]. split; [right; cbn; lia|].
    split; [lia|]. split; assumption.
  - assert (Hdig : Zdigits2 m1 = 53) by (apply Zdigits2_unique; lia).
    rewrite Hdig.
    rewrite (fexp_normal (53 + (ex + n))) by (unfold n; lia).
    replace (53 + (ex + n) - 53 - (ex + n)) with 0 by lia.
    cbn [shr shr_record_of_loc shr_m].
    destruct m1 as [|p|p] eqn:Em1; try lia.
    replace (ex + n <=? 1024 - 53) with true
      by (symmetry; apply Z.leb_le; unfold n; lia).
    exists p, (ex + n), (Z.pos p).
    split; [reflexivity|]. split; [lia|]. split; [left; lia|].
    split; [lia|]. split; assumption.
Qed.

(** The same on a common scale: values are counted in units of
    [2^(-N)]. *)
Lemma binary_round_aux_scaled sx mx ex lx rho D N :
  0 < mx -> locates lx rho D ->
  53 <= Zdigits2 mx ->
  -1074 <= ex + Zdigits2 mx - 53 ->
  ex + Zdigits2 mx - 53 + 1 <= 971 ->
  0 <= ex + N ->
  let n := Zdigits2 mx - 53 in
  let X := (mx * D + rho) * 2 ^ (ex + N) in
  exists m e m1 G,
    binary_round_aux 53 1024 sx mx ex lx = S754_finite sx m e
    /\ 2 ^ 52 <= Z.pos m < 2 ^ 53
    /\ ex + n <= e <= ex + n + 1
    /\ G = 2 ^ (ex + n + N)
    /\ Z.pos m * 2 ^ (e + N) = m1 * G
    /\ 2 ^ 52 <= m1 <= 2 ^ 53
    /\ 2 * X - G * D <= 2 * (m1 * G) * D <= 2 * X + G * D
    /\ 2 ^ 52 * (G * D) <= X < 2 ^ 53 * (G * D)
    /\ (rho = 0 -> mx mod 2 ^ n = 0 -> m1 * G * D = X).
Proof.
  intros Hmx Hloc Hd Hlo Hhi HN n X.
  destruct (binary_round_aux_grid sx mx ex lx rho D Hmx Hloc Hd Hlo Hhi)
    as (m & e & m1 & Hbra & Hm & He & Hm1 & Hnear & Hexact).
  fold n in He, Hnear, Hexact.
  assert (Hn : 0 <= n) by (unfold n; lia).
  set (E := 2 ^ (ex + N)).
  assert (HE : 0 < E) by (apply Z.pow_pos_nonneg; lia).
  assert (HG : 2 ^ (ex + n + N) = 2 ^ n * E).
  { unfold E. rewrite <- Z.pow_add_r by lia. f_equal. lia. }
  assert (Hpn : 0 < 2 ^ n) by (apply Z.pow_pos_nonneg; lia).
  destruct Hloc as [Hrho _].
  pose proof (Zdigits2_bounds mx Hmx) as Hb.
  replace (Zdigits2 mx - 1) with (n + 52) in Hb by (unfold n; lia).
  replace (Zdigits2 mx) with (n + 53) in Hb by (unfold n; lia).
  rewrite !Z.pow_add_r in Hb by lia.
  exists m, e, m1, (2 ^ n * E).
  split; [exact Hbra|]. split; [exact Hm|]. split; [lia|].
  split; [symmetry; exact HG|]. split.
  { destruct He as [[-> <-]|[-> <-]].
    - rewrite HG. reflexivity.
    - replace (ex + n + 1 + N) with (ex + n + N + 1) by lia.
      rewrite Z.pow_add_r, HG by lia. change (2 ^ 1) with 2. ring. }
  split; [exact Hm1|]. unfold X. fold E. split.
  { destruct Hnear as [Hl Hu].
    apply (Z.mul_le_mono_nonneg_r _ _ E) in Hl; [|lia].
    apply (Z.mul_le_mono_nonneg_r _ _ E) in Hu; [|lia].
    split.
    - replace (2 * ((mx * D + rho) * E) - 2 ^ n * E * D)
        with ((2 * (mx * D + rho) - 2 ^ n * D) * E) by ring.
      replace (2 * (m1 * (2 ^ n * E)) * D)
        with (2 * (m1 * (2 ^ n * D)) * E) by ring.
      exact Hl.
    - replace (2 * ((mx * D + rho) * E) + 2 ^ n * E * D)
        with ((2 * (mx * D + rho) + 2 ^ n * D) * E) by ring.
      replace (2 * (m1 * (2 ^ n * E)) * D)
        with (2 * (m1 * (2 ^ n * D)) * E) by ring.
      exact Hu. }
  split.
  { assert (H1 : 2 ^ 52 * (2 ^ n * D) <= mx * D + rho) by nia.
    assert (H2 : mx * D + rho < 2 ^ 53 * (2 ^ n * D)) by nia.
    split.
    - apply (Z.mul_le_mono_nonneg_r _ _ E) in H1; [|lia].
      replace (2 ^ 52 * (2 ^ n * E * D)) with (2 ^ 52 * (2 ^ n * D) * E) by ring.
      exact H1.
    - apply (Z.mul_lt_mono_pos_r E) in H2; [|lia].
      replace (2 ^ 53 * (2 ^ n * E * D)) with (2 ^ 53 * (2 ^ n * D) * E) by ring.
      exact H2. }
  intros E1 E2. specialize (Hexact E1 E2). subst rho.
  rewrite <- Hexact. ring.
Qed.

Lemma iter_xO p k : Z.pos (Pos.iter xO p k) = Z.pos p * 2 ^ Z.pos k.
Proof.
  induction k as [|k IH] using Pos.peano_ind.
  - cbn [Pos.iter]. change (2 ^ 1) with 2. lia.
  - rewrite Pos.iter_succ, Pos2Z.inj_xO, IH, Pos2Z.inj_succ, Z.pow_succ_r by lia.
    ring.
Qed.

(** A positive integer below [2^53] is a binary64 value: rounding it
    returns a float of that very value. *)
Lemma binary_round_small_int p :
  Z.pos p < 2 ^ 53 ->
  exists m e,
    binary_round 53 1024 false p 0 = S754_finite false m e
    /\ e <= 0 /\ -52 <= e /\ Z.pos m = Z.pos p * 2 ^ (- e).
Proof.
  intros Hp. unfold binary_round.
  pose proof (digits2_pos_bounds p) as Hb.
  set (d := Z.pos (digits2_pos p)) in *.
  assert (Hd0 : 0 < d) by (unfold d; lia).
  assert (Hd : d <= 53).
  { destruct (Z.le_gt_cases d 53); [assumption|].
    assert (2 ^ 53 <= 2 ^ (d - 1)) by (apply Z.pow_le_mono_r; lia). lia. }
  rewrite (fexp_normal (d + 0)) by lia.
  unfold shl_align.
  assert (Hgrid : forall mz ez, Z.pos mz = Z.pos p * 2 ^ (- ez) -> ez = d - 53 ->
            exists m e, binary_round_aux 53 1024 false (Z.pos mz) ez loc_Exact
                        = S754_finite false m e
            /\ e <= 0 /\ -52 <= e /\ Z.pos m = Z.pos p * 2 ^ (- e)).
  { intros mz ez Hmz Hez.
    assert (Hdig : Zdigits2 (Z.pos mz) = 53).
    { apply Zdigits2_unique; [|lia]. rewrite Hmz.
      replace (- ez) with (53 - d) by lia.
      change (2 ^ (53 - 1)) with (2 ^ 52).
      replace (2 ^ 52) with (2 ^ (d - 1) * 2 ^ (53 - d))
        by (rewrite <- Z.pow_add_r by lia; f_equal; lia).
      replace (2 ^ 53) with (2 ^ d * 2 ^ (53 - d))
        by (rewrite <- Z.pow_add_r by lia; f_equal; lia).
      assert (0 < 2 ^ (53 - d)) by (apply Z.pow_pos_nonneg; lia).
      nia. }
    destruct (binary_round_aux_grid false (Z.pos mz) ez loc_Exact 0 1)
      as (m & e & m1 & Hbra & Hm & He & Hm1 & _ & Hexact).
    - lia.
    - split; [lia|reflexivity].
    - lia.
    - lia.
    - lia.
    - pose proof (Zdigits2_bounds (Z.pos mz) ltac:(lia)) as Hmzb.
      rewrite Hdig in *. replace (53 - 53) with 0 in * by lia.
      change (2 ^ 0) with 1 in Hexact.
      specialize (Hexact eq_refl (Z.mod_1_r _)).
      exists m, e. split; [exact Hbra|].
      destruct He as [[-> E]|[-> E]]; [|lia].
      split; [lia|]. split; [lia|].
      replace (ez + 0) with ez by lia. lia. }
  destruct (d + 0 - 53 - 0) as [|q|q] eqn:Eq.
  - apply Hgrid; [|lia]. replace (- 0) with 0 by lia. change (2 ^ 0) with 1. lia.
  - lia.
  - apply Hgrid; [|lia]. rewrite iter_xO. f_equal. f_equal. lia.
Qed.

Lemma Zdigits2_ge m k : 0 <= k -> 2 ^ k <= m -> k + 1 <= Zdigits2 m.
Proof.
  intros Hk Hm.
  assert (0 < 2 ^ k) by (apply Z.pow_pos_nonneg; lia).
  pose proof (Zdigits2_bounds m ltac:(lia)) as [_ Hb].
  destruct (Z.le_gt_cases (k + 1) (Zdigits2 m)); [assumption|].
  assert (2 ^ Zdigits2 m <= 2 ^ k).
  { destruct (Z.le_gt_cases 0 (Zdigits2 m)).
    - apply Z.pow_le_mono_r; lia.
    - rewrite Z.pow_neg_r by lia. lia. }
  lia.
Qed.

Lemma Zdigits2_le m k : 0 < m -> m < 2 ^ k -> Zdigits2 m <= k.
Proof.
  intros Hm Hk.
  pose proof (Zdigits2_bounds m Hm) as [Hb _].
  destruct (Z.le_gt_cases (Zdigits2 m) k); [assumption|].
  assert (0 <= k).
  { destruct (Z.le_gt_cases 0 k); [assumption|]. rewrite Z.pow_neg_r in Hk by lia. lia. }
  assert (2 ^ k <= 2 ^ (Zdigits2 m - 1)) by (apply Z.pow_le_mono_r; lia).
  lia.
Qed.

(** The amount of [c] cents in dollars, as a binary64 value [P]
    counted in units of [2^(-64)]. *)
Lemma of_quotient_cents c :
  0 < c < 2 ^ 59 ->
  exists m e m1 G,
    f64.of_quotient false c 100 = S754_finite false m e
    /\ 2 ^ 52 <= Z.pos m < 2 ^ 53
    /\ -59 <= e <= 1
    /\ Z.pos m * 2 ^ (e + 64) = m1 * G
    /\ 2 * (c * 2 ^ 64) - G * 100 <= 2 * (m1 * G) * 100
       <= 2 * (c * 2 ^ 64) + G * 100
    /\ 2 ^ 52 * (G * 100) <= c * 2 ^ 64
    /\ (c mod 100 = 0 -> m1 * G * 100 = c * 2 ^ 64).
Proof.
  intros Hc. unfold f64.of_quotient, SFdiv_core_binary.
  pose proof (Zdigits2_bounds c ltac:(lia)) as Hb.
  assert (Hd1 : 1 <= Zdigits2 c) by (apply (Zdigits2_ge c 0); lia).
  assert (Hd2 : Zdigits2 c <= 59) by (apply Zdigits2_le; lia).
  set (d := Zdigits2 c) in *.
  change (Zdigits2 100) with 7.
  replace (fexp f64.prec f64.emax (d + 0 - (7 + 0))) with (d - 60)
    by (unfold fexp, emin, f64.prec, f64.emax; lia).
  replace (Z.min (d - 60) (0 - 0)) with (d - 60) by lia.
  replace (0 - 0 - (d - 60)) with (60 - d) by lia.
  destruct (60 - d) as [|s|s] eqn:Es; try lia.
  rewrite Z.shiftl_mul_pow2 by lia.
  assert (Hs : 0 < 2 ^ Z.pos s) by (apply Z.pow_pos_nonneg; lia).
  assert (Hm' : 2 ^ 59 <= c * 2 ^ Z.pos s < 2 ^ 60).
  { replace (2 ^ 59) with (2 ^ (d - 1) * 2 ^ Z.pos s)
      by (rewrite <- Z.pow_add_r by lia; f_equal; lia).
    replace (2 ^ 60) with (2 ^ d * 2 ^ Z.pos s)
      by (rewrite <- Z.pow_add_r by lia; f_equal; lia).
    nia. }
  pose proof (Z_div_mod (c * 2 ^ Z.pos s) 100 ltac:(lia)) as Hdm.
  destruct (Z.div_eucl (c * 2 ^ Z.pos s) 100) as [q r].
  destruct Hdm as [Hdm Hr].
  assert (Hq : 2 ^ 52 <= q < 2 ^ 54) by lia.
  assert (Hdq1 : 53 <= Zdigits2 q) by (apply (Zdigits2_ge q 52); lia).
  assert (Hdq2 : Zdigits2 q <= 54) by (apply Zdigits2_le; lia).
  assert (Hloc : locates (new_location 100 r) r 100).
  { split; [lia|]. reflexivity. }
  destruct (binary_round_aux_scaled false q (d - 60) (new_location 100 r) r 100 64)
    as (m & e & m1 & G & Hbra & Hm & He & HG & Hval & Hm1 & Hnear & Hrange & Hexact);
    try lia; try assumption.
  assert (HX : (q * 100 + r) * 2 ^ (d - 60 + 64) = c * 2 ^ 64).
  { replace (q * 100 + r) with (c * 2 ^ Z.pos s) by lia.
    rewrite <- Z.mul_assoc, <- Z.pow_add_r by lia. do 2 f_equal. lia. }
  rewrite HX in *.
  exists m, e, m1, G. unfold f64.prec, f64.emax.
  split; [exact Hbra|]. split; [exact Hm|]. split; [lia|].
  split; [exact Hval|]. split; [exact Hnear|]. split; [lia|].
  intros Hc100. apply Hexact.
  - (* the remainder of the division is zero *)
    assert (Hz : (c * 2 ^ Z.pos s) mod 100 = 0).
    { rewrite <- Z.mul_mod_idemp_l, Hc100 by lia. reflexivity. }
    assert (r = (c * 2 ^ Z.pos s) mod 100)
      by (apply Z.mod_unique with q; lia).
    lia.
  - (* the quotient keeps its last bit *)
    assert (Hr0 : r = 0).
    { assert (Hz : (c * 2 ^ Z.pos s) mod 100 = 0).
      { rewrite <- Z.mul_mod_idemp_l, Hc100 by lia. reflexivity. }
      assert (r = (c * 2 ^ Z.pos s) mod 100)
        by (apply Z.mod_unique with q; lia).
      lia. }
    assert (Hc' : c = 100 * (c / 100)).
    { pose proof (Z.div_mod c 100 ltac:(lia)). lia. }
    assert (Hq' : q = c / 100 * 2 ^ Z.pos s) by nia.
    assert (Hn : Zdigits2 q - 53 = 0 \/ Zdigits2 q - 53 = 1) by lia.
    destruct Hn as [-> | ->].
    + apply Z.mod_1_r.
    + change (2 ^ 1) with 2. rewrite Hq'.
      replace (Z.pos s) with (Z.succ (Z.pos s - 1)) by lia.
      rewrite Z.pow_succ_r by lia.
      replace (c / 100 * (2 * 2 ^ (Z.pos s - 1)))
        with (0 + (c / 100 * 2 ^ (Z.pos s - 1)) * 2) by ring.
      rewrite Z.mod_add by lia. reflexivity.
Qed.

(** A fifth of a binary64 value: [V], counted in units of [2^(-64)],
    is the product with the constant 0.2 rounded to the grid [G]. *)
Lemma mul_fifth m e :
  2 ^ 52 <= Z.pos m < 2 ^ 53 -> -59 <= e <= 1 ->
  exists m' e' m1 G w,
    f64.mul (S754_finite false m e) f64.c0_2 = S754_finite false m' e'
    /\ 2 ^ 52 <= Z.pos m' < 2 ^ 53
    /\ -64 <= e'
    /\ Z.pos m' * 2 ^ (e' + 64) * 2 ^ 55 = m1 * G
    /\ 2 * (Z.pos m * 2 ^ (e + 64) * 7205759403792794) - G <= 2 * (m1 * G)
       <= 2 * (Z.pos m * 2 ^ (e + 64) * 7205759403792794) + G
    /\ 2 ^ 52 * G <= Z.pos m * 2 ^ (e + 64) * 7205759403792794 < 2 ^ 53 * G
    /\ 2 ^ 119 = w * G /\ 0 < G.
Proof.
  intros Hm He. unfold f64.mul, f64.c0_2. cbn [SFmul xorb].
  set (mx := Z.pos (m * 7205759403792794)).
  assert (Hmx : mx = Z.pos m * 7205759403792794) by (unfold mx; lia).
  assert (Hb : 2 ^ 104 <= mx < 2 ^ 106) by lia.
  assert (Hd1 : 105 <= Zdigits2 mx) by (apply (Zdigits2_ge mx 104); lia).
  assert (Hd2 : Zdigits2 mx <= 106) by (apply Zdigits2_le; lia).
  destruct (binary_round_aux_scaled false mx (e + -55) loc_Exact 0 1 119)
    as (m' & e' & m1 & G & Hbra & Hm' & He' & HG & Hval & Hm1 & Hnear & Hrange & _);
    try lia.
  { split; [lia|reflexivity]. }
  assert (HX : (mx * 1 + 0) * 2 ^ (e + -55 + 119) = Z.pos m * 2 ^ (e + 64) * 7205759403792794).
  { rewrite Hmx. replace (e + -55 + 119) with (e + 64) by lia. ring. }
  rewrite HX in *.
  exists m', e', m1, G, (2 ^ (119 - (e + -55 + (Zdigits2 mx - 53) + 119))).
  unfold f64.prec, f64.emax.
  split; [exact Hbra|]. split; [exact Hm'|]. split; [lia|].
  split.
  { rewrite <- Hval, <- Z.mul_assoc, <- Z.pow_add_r by lia.
    do 2 f_equal. lia. }
  split; [lia|]. split; [lia|]. split.
  - rewrite HG, <- Z.pow_add_r by lia. f_equal. lia.
  - rewrite HG. apply Z.pow_pos_nonneg; lia.
Qed.

Lemma int_of_small_int z :
  0 < z < 2 ^ 53 -> int_of_float64 (f64.of_scaled false z 0) = z.
Proof.
  intros Hz. destruct z as [|p|p]; try lia. cbn [f64.of_scaled].
  destruct (binary_round_small_int p) as (m & e & Hbr & He1 & He2 & Hm); [lia|].
  unfold f64.prec, f64.emax. rewrite Hbr.
  unfold int_of_float64, f64.trunc.
  assert (Hp : 0 < 2 ^ (- e)) by (apply Z.pow_pos_nonneg; lia).
  assert (Ht : (if 0 <=? e then Z.pos m * 2 ^ e else Z.pos m / 2 ^ (- e)) = Z.pos p).
  { destruct (Z.leb_spec 0 e).
    - assert (e = 0) by lia. subst e. change (2 ^ (- 0)) with 1 in Hm.
      change (2 ^ 0) with 1. lia.
    - rewrite Hm. apply Z.div_mul. lia. }
  rewrite Ht.
  unfold minInt64, maxInt64.
  destruct (Z.leb_spec (- 2 ^ 63) (Z.pos p)), (Z.leb_spec (Z.pos p) (2 ^ 63 - 1));
    cbn [andb]; lia.
Qed.

(** The conversion of the ceiling of a non-negative binary64 value
    [V / 2^64] that an [int] can hold. *)
Lemma int_ceil_scaled m e :
  Z.pos m < 2 ^ 53 -> -64 <= e ->
  Z.pos m * 2 ^ (e + 64) <= 2 ^ 62 * 2 ^ 64 ->
  int_of_float64 (math.Ceil (S754_finite false m e))
  = (Z.pos m * 2 ^ (e + 64) + 2 ^ 64 - 1) / 2 ^ 64.
Proof.
  intros Hm He Hbound.
  assert (H64 : 0 < 2 ^ (e + 64)) by (apply Z.pow_pos_nonneg; lia).
  unfold math.Ceil, f64.integral.
  destruct (Z.leb_spec 0 e) as [He0|He0]; cbn [orb].
  - (* an integer already *)
    unfold int_of_float64, f64.trunc.
    replace (0 <=? e) with true by (symmetry; apply Z.leb_le; lia).
    assert (Hs : Z.pos m * 2 ^ (e + 64) = Z.pos m * 2 ^ e * 2 ^ 64)
      by (rewrite Z.pow_add_r by lia; ring).
    assert (Hp : 0 < 2 ^ e) by (apply Z.pow_pos_nonneg; lia).
    rewrite Hs in *.
    assert (Hr : Z.pos m * 2 ^ e <= 2 ^ 62) by nia.
    replace ((Z.pos m * 2 ^ e * 2 ^ 64 + 2 ^ 64 - 1) / 2 ^ 64) with (Z.pos m * 2 ^ e)
      by (apply Z.div_unique with (2 ^ 64 - 1); lia).
    unfold minInt64, maxInt64.
    destruct (Z.leb_spec (- 2 ^ 63) (Z.pos m * 2 ^ e)),
      (Z.leb_spec (Z.pos m * 2 ^ e) (2 ^ 63 - 1)); cbn [andb]; lia.
  - assert (Hp : 0 < 2 ^ (- e)) by (apply Z.pow_pos_nonneg; lia).
    assert (Hs : 2 ^ 64 = 2 ^ (e + 64) * 2 ^ (- e))
      by (rewrite <- Z.pow_add_r by lia; f_equal; lia).
    pose proof (Z.div_mod (Z.pos m) (2 ^ (- e)) ltac:(lia)) as Hdm.
    pose proof (Z.mod_pos_bound (Z.pos m) (2 ^ (- e)) ltac:(lia)) as Hmod.
    set (t := Z.pos m / 2 ^ (- e)) in *. set (r := Z.pos m mod 2 ^ (- e)) in *.
    assert (Ht : 0 <= t) by (apply Z.div_pos; lia).
    clearbody t r.
    assert (Hp2 : 2 <= 2 ^ (- e)).
    { change 2 with (2 ^ 1) at 1. apply Z.pow_le_mono_r; lia. }
    assert (Ht2 : t < 2 ^ 52) by nia.
    assert (HV : Z.pos m * 2 ^ (e + 64) = t * 2 ^ 64 + r * 2 ^ (e + 64))
      by (rewrite Hs, Hdm; ring).
    assert (Hrl : r * 2 ^ (e + 64) < 2 ^ 64) by (rewrite Hs; nia).
    rewrite HV.
    destruct (Z.eqb_spec r 0) as [Er|Er].
    + unfold int_of_float64.
      replace (f64.trunc (S754_finite false m e)) with t.
      2:{ unfold f64.trunc.
          replace (0 <=? e) with false by (symmetry; apply Z.leb_gt; lia).
          apply Z.div_unique with r; lia. }
      replace ((t * 2 ^ 64 + r * 2 ^ (e + 64) + 2 ^ 64 - 1) / 2 ^ 64) with t
        by (apply Z.div_unique with (2 ^ 64 - 1); [lia|]; rewrite Er; lia).
      unfold minInt64, maxInt64.
      destruct (Z.leb_spec (- 2 ^ 63) t), (Z.leb_spec t (2 ^ 63 - 1));
        cbn [andb]; lia.
    + replace (f64.trunc (S754_finite false m e)) with t.
      2:{ unfold f64.trunc.
          replace (0 <=? e) with false by (symmetry; apply Z.leb_gt; lia).
          apply Z.div_unique with r; lia. }
      rewrite int_of_small_int by lia.
      assert (1 * 2 ^ (e + 64) <= r * 2 ^ (e + 64))
        by (apply Z.mul_le_mono_nonneg_r; lia).
      apply Z.div_unique with (r * 2 ^ (e + 64) - 1); lia.
Qed.

(** ** The price of the data model as a binary64 value *)

Lemma digit_char_facts ch :
  isDigit ch = true ->
  Ascii.eqb ch "_" = false /\ Ascii.eqb ch "." = false
  /\ Ascii.eqb ch "+" = false /\ Ascii.eqb ch "-" = false
  /\ Ascii.eqb ch "i" = false /\ Ascii.eqb ch "I" = false
  /\ Ascii.eqb ch "n" = false /\ Ascii.eqb ch "N" = false
  /\ (lower ch =? 120) = false
  /\ 0 <= digitValue ch <= 9
  /\ Ascii.eqb ch "0" = (digitValue ch =? 0).
Proof.
  destruct ch as [[] [] [] [] [] [] [] []]; intros H; vm_compute in H;
    try discriminate H; clear H;
    repeat split; try reflexivity; vm_compute; discriminate.
Qed.

Lemma readMantissa_digit ch s st :
  isDigit ch = true ->
  atof.readMantissa false (String ch s) st
  = atof.readMantissa false s (digitStep ch st).
Proof.
  intros H. destruct (digit_char_facts ch H) as (E1 & E2 & _).
  cbn [atof.readMantissa]. rewrite E1, E2, H. unfold digitStep.
  destruct (Ascii.eqb ch "0" && (atof.nd st =? 0)); reflexivity.
Qed.

Lemma readMantissa_dot s st :
  atof.sawdot st = false ->
  atof.readMantissa false (String "." s) st
  = atof.readMantissa false s (dotStep st).
Proof.
  intros H. cbn [atof.readMantissa]. change (Ascii.eqb "." "_") with false.
  change (Ascii.eqb "." ".") with true. cbv iota. rewrite H. reflexivity.
Qed.

Lemma digitStep_spec ch st :
  isDigit ch = true -> digitsRead st ->
  digitsRead (digitStep ch st)
  /\ atof.mant (digitStep ch st) = atof.mant st * 10 + digitValue ch
  /\ atof.nd (digitStep ch st) - atof.dp (digitStep ch st)
     = atof.nd st - atof.dp st + 1
  /\ atof.sawdot (digitStep ch st) = atof.sawdot st
  /\ atof.sawdigits (digitStep ch st) = true
  /\ atof.underscores (digitStep ch st) = atof.underscores st.
Proof.
  intros H (Hnd & Hz & Hpos).
  destruct (digit_char_facts ch H) as (_ & _ & _ & _ & _ & _ & _ & _ & _ & Hv & H0).
  unfold digitStep, digitsRead. rewrite H0.
  destruct (Z.eqb_spec (digitValue ch) 0) as [Ev|Ev],
    (Z.eqb_spec (atof.nd st) 0) as [En|En]; cbn [andb atof.nd atof.mant atof.dp
      atof.sawdot atof.sawdigits atof.underscores];
    fold (digitValue ch).
  - rewrite (Hz En), Ev. repeat split; intros; try lia.
  - assert (Hp := Hpos ltac:(lia)).
    replace (atof.nd st + 1 - 1) with (atof.nd st) by lia.
    replace (atof.nd st + 1) with (Z.succ (atof.nd st - 1 + 1)) by lia.
    rewrite Z.pow_succ_r by lia.
    replace (atof.nd st - 1 + 1) with (atof.nd st) by lia.
    replace (10 ^ atof.nd st) with (10 * 10 ^ (atof.nd st - 1)) in *
      by (rewrite <- Z.pow_succ_r by lia; f_equal; lia).
    repeat split; intros; try lia.
  - rewrite (Hz En), En. change (10 ^ (0 + 1 - 1)) with 1.
    change (10 ^ (0 + 1)) with 10. repeat split; intros; try lia.
  - assert (Hp := Hpos ltac:(lia)).
    replace (atof.nd st + 1 - 1) with (atof.nd st) by lia.
    replace (atof.nd st + 1) with (Z.succ (atof.nd st - 1 + 1)) by lia.
    rewrite Z.pow_succ_r by lia.
    replace (atof.nd st - 1 + 1) with (atof.nd st) by lia.
    replace (10 ^ atof.nd st) with (10 * 10 ^ (atof.nd st - 1)) in *
      by (rewrite <- Z.pow_succ_r by lia; f_equal; lia).
    repeat split; intros; try lia.
Qed.

(** The scan of an amount of the data model ends at the end of the
    text, with the amount in cents as mantissa and two digits after
    the point. *)
Lemma readMantissa_money s : forall acc seen st c,
  moneyCents s acc seen = Some c ->
  atof.sawdot st = false -> atof.underscores st = false ->
  atof.mant st = acc -> digitsRead st ->
  exists st',
    atof.readMantissa false s st = (st', EmptyString)
    /\ atof.sawdot st' = true /\ atof.sawdigits st' = true
    /\ atof.underscores st' = false
    /\ atof.mant st' = c /\ atof.dp st' - atof.nd st' = -2
    /\ digitsRead st'.
Proof.
  induction s as [|ch s IH]; intros acc seen st c Hm Hdot Hus Hacc Hinv;
    [discriminate|].
  cbn [moneyCents] in Hm.
  destruct (isDigit ch) eqn:Hd.
  - rewrite readMantissa_digit by assumption.
    destruct (digitStep_spec ch st Hd Hinv) as (Hinv' & Hmant & _ & Hdot' & _ & Hus').
    apply (IH _ _ _ _ Hm); try congruence.
  - destruct (Ascii.eqb_spec ch ".") as [->|Hne]; [|discriminate].
    destruct seen; [|discriminate]. cbn [andb] in Hm.
    destruct s as [|d1 [|d2 [|? ?]]]; try discriminate.
    destruct (isDigit d1) eqn:Hd1; [|discriminate].
    destruct (isDigit d2) eqn:Hd2; [|discriminate].
    cbn [andb] in Hm. injection Hm as <-.
    rewrite readMantissa_dot by assumption.
    rewrite !readMantissa_digit by assumption.
    cbn [atof.readMantissa].
    assert (Hinv1 : digitsRead (dotStep st)) by exact Hinv.
    destruct (digitStep_spec d1 (dotStep st) Hd1 Hinv1) as (Hinv2 & Hmant2 & Hdiff2 & Hdot2 & _ & Hus2).
    destruct (digitStep_spec d2 _ Hd2 Hinv2) as (Hinv3 & Hmant3 & Hdiff3 & Hdot3 & Hsd3 & Hus3).
    eexists. split; [reflexivity|].
    split; [rewrite Hdot3, Hdot2; reflexivity|].
    split; [exact Hsd3|].
    split; [rewrite Hus3, Hus2; exact Hus|].
    split; [rewrite Hmant3, Hmant2; cbn [atof.mant dotStep]; rewrite Hacc; ring|].
    split; [|exact Hinv3].
    rewrite Hdiff2 in Hdiff3.
    cbn [atof.nd atof.dp dotStep] in Hdiff3. lia.
Qed.

Lemma digitsRead_scan0 : digitsRead atof.scan0.
Proof. unfold digitsRead, atof.scan0; cbn. repeat split; intros; lia. Qed.

Lemma money_head s c :
  cents s = Some c ->
  exists ch s', s = String ch s' /\ isDigit ch = true
    /\ match s' with
       | String x _ => (lower x =? 120) = false
       | EmptyString => True
       end.
Proof.
  unfold cents. destruct s as [|ch s']; [discriminate|]. cbn [moneyCents].
  destruct (isDigit ch) eqn:Hd; [|rewrite andb_false_r; discriminate].
  intros H. exists ch, s'. split; [reflexivity|]. split; [exact Hd|].
  destruct s' as [|x s'']; [exact I|]. cbn [moneyCents] in H.
  destruct (isDigit x) eqn:Hx.
  - apply (digit_char_facts x Hx).
  - destruct (Ascii.eqb_spec x ".") as [->|?]; [reflexivity|discriminate].
Qed.

(** [ParseFloat] on an amount of the data model below ten trillion
    dollars: the binary64 value nearest to the amount, and zero for a
    zero amount. *)
Lemma ParseFloat_money s c :
  cents s = Some c -> c < 10 ^ 15 ->
  fst (strconv.ParseFloat s)
  = if c =? 0 then S754_zero false else f64.of_quotient false c 100.
Proof.
  intros Hc Hbound.
  destruct (money_head s c Hc) as (ch & s' & -> & Hd & Hx).
  destruct (digit_char_facts ch Hd)
    as (_ & _ & Eplus & Eminus & Ei & EI & En & EN & _ & _ & _).
  destruct (readMantissa_money (String ch s') 0 false atof.scan0 c Hc
              eq_refl eq_refl eq_refl digitsRead_scan0)
    as (st & Hread & Hdot & Hsd & Hus & Hmant & Hdp & Hnd & Hz & Hpos).
  unfold strconv.ParseFloat.
  assert (Hspecial : atof.special (String ch s') = None).
  { unfold atof.special. rewrite Eplus, Eminus, Ei, EI, En, EN. reflexivity. }
  rewrite Hspecial.
  assert (Hrf : atof.readFloat (String ch s')
                = Some {| atof.neg := false; atof.hex := false;
                          atof.mantissa := c;
                          atof.exp := if c =? 0 then 0 else -2;
                          atof.digits := atof.nd st;
                          atof.seen_underscore := false;
                          atof.rest := EmptyString |}).
  { unfold atof.readFloat. rewrite Eplus, Eminus. cbn [orb].
    assert (Hhex : match String ch s' with
                   | String z (String x (String _ _)) =>
                       Ascii.eqb z "0" && (lower x =? 120)
                   | _ => false
                   end = false).
    { destruct s' as [|x [|? ?]]; try reflexivity. rewrite Hx.
      apply andb_false_r. }
    rewrite Hhex. cbv iota. rewrite Hread. rewrite Hsd, Hdot, Hus, Hmant.
    cbn [negb]. cbv iota.
    replace (atof.dp st - atof.nd st) with (-2) by lia. reflexivity. }
  rewrite Hrf. cbn [atof.rest atof.seen_underscore atof.hex atof.neg
                    atof.mantissa atof.exp atof.digits].
  cbn [String.eqb negb andb]. cbv iota. cbn [fst].
  unfold atof.decimalValue.
  destruct (Z.eqb_spec c 0) as [E0|E0]; [reflexivity|].
  assert (Hcpos : 0 < c).
  { rewrite <- Hmant. destruct (Z.eq_dec (atof.nd st) 0) as [E|E].
    - specialize (Hz E). congruence.
    - specialize (Hpos ltac:(lia)).
      assert (0 < 10 ^ (atof.nd st - 1)) by (apply Z.pow_pos_nonneg; lia). lia. }
  assert (Hnd15 : atof.nd st <= 15).
  { destruct (Z.le_gt_cases (atof.nd st) 15); [assumption|].
    specialize (Hpos ltac:(lia)).
    assert (10 ^ 15 <= 10 ^ (atof.nd st - 1)) by (apply Z.pow_le_mono_r; lia).
    lia. }
  replace (310 <? atof.nd st + -2) with false by (symmetry; apply Z.ltb_ge; lia).
  replace (atof.nd st + -2 <? -330) with false by (symmetry; apply Z.ltb_ge; lia).
  reflexivity.
Qed.

(** ** A fifth of a price, rounded up *)

Lemma fifth_ceiling_arith c P V G1 G2 m1 w :
  0 < c < 10 ^ 15 ->
  2 * (c * 2 ^ 64) - G1 * 100 <= 2 * P * 100 <= 2 * (c * 2 ^ 64) + G1 * 100 ->
  2 ^ 52 * (G1 * 100) <= c * 2 ^ 64 ->
  (c mod 100 = 0 -> P * 100 = c * 2 ^ 64) ->
  V * 2 ^ 55 = m1 * G2 ->
  2 * (P * 7205759403792794) - G2 <= 2 * (m1 * G2) <= 2 * (P * 7205759403792794) + G2 ->
  2 ^ 52 * G2 <= P * 7205759403792794 < 2 ^ 53 * G2 ->
  2 ^ 119 = w * G2 -> 0 < G2 ->
  (V + 2 ^ 64 - 1) / 2 ^ 64 = (c + 499) / 500.
Proof.
  intros Hc HP1 HP2 HPex HV HV1 HV2 Hw HG2.
  rewrite <- HV in HV1.
  assert (Hk : c = 500 * (c / 500) + c mod 500) by (apply Z.div_mod; lia).
  assert (Hr : 0 <= c mod 500 < 500) by (apply Z.mod_pos_bound; lia).
  set (k := c / 500) in *. set (r := c mod 500) in *.
  destruct (Z.eq_dec r 0) as [Er|Er].
  - (* the price is a whole number of five-dollar units *)
    assert (Hc100 : c mod 100 = 0).
    { replace c with (0 + (5 * k) * 100) by lia. rewrite Z.mod_add by lia. reflexivity. }
    specialize (HPex Hc100).
    assert (HP : P = 5 * k * 2 ^ 64) by lia.
    assert (Hkk : (c + 499) / 500 = k).
    { symmetry. apply Z.div_unique with 499; lia. }
    rewrite Hkk.
    assert (HVk : V = k * 2 ^ 64).
    { assert (HA : k * 2 ^ 119 = k * w * G2) by (rewrite Hw; ring).
      assert (HPM : P * 7205759403792794 = k * w * G2 + 2 * (k * 2 ^ 64)) by lia.
      rewrite HV, HPM in HV1. rewrite HPM in HV2.
      assert (H4 : 4 * (k * 2 ^ 64) < G2) by lia.
      assert (Hj : m1 = k * w).
      { assert (Hlt : m1 * G2 < (k * w + 1) * G2) by lia.
        assert (Hgt : (k * w - 1) * G2 < m1 * G2) by lia.
        apply Z.mul_lt_mono_pos_r in Hlt, Hgt; lia. }
      subst m1. lia. }
    subst V. symmetry. apply Z.div_unique with (2 ^ 64 - 1); lia.
  - assert (Hkk : (c + 499) / 500 = k + 1).
    { symmetry. apply Z.div_unique with (r - 1); lia. }
    rewrite Hkk.
    assert (Hlo : k * 2 ^ 64 < V) by lia.
    assert (Hhi : V <= (k + 1) * 2 ^ 64) by lia.
    symmetry. apply Z.div_unique with (V - k * 2 ^ 64 - 1); lia.
Qed.

Lemma moneyCents_nonneg s : forall acc seen c,
  moneyCents s acc seen = Some c -> 0 <= acc -> 0 <= c.
Proof.
  induction s as [|ch s IH]; intros acc seen c H Hacc; [discriminate|].
  cbn [moneyCents] in H. destruct (isDigit ch) eqn:Hd.
  - apply (IH _ _ _ H).
    destruct (digit_char_facts ch Hd) as (_ & _ & _ & _ & _ & _ & _ & _ & _ & Hv & _).
    lia.
  - destruct (Ascii.eqb ch "." && seen); [|discriminate].
    destruct s as [|d1 [|d2 [|? ?]]]; try discriminate.
    destruct (isDigit d1) eqn:Hd1; [|discriminate].
    destruct (isDigit d2) eqn:Hd2; [|discriminate].
    cbn [andb] in H. injection H as <-.
    destruct (digit_char_facts d1 Hd1) as (_ & _ & _ & _ & _ & _ & _ & _ & _ & Hv1 & _).
    destruct (digit_char_facts d2 Hd2) as (_ & _ & _ & _ & _ & _ & _ & _ & _ & Hv2 & _).
    lia.
Qed.

Lemma cents_nonneg s c : cents s = Some c -> 0 <= c.
Proof. intros H. apply (moneyCents_nonneg _ _ _ _ H). lia. Qed.

(** For an amount of [c] cents below ten trillion dollars, the
    binary64 computation [int(math.Ceil(price * 0.2))] is the exact
    ceiling of a fifth of the amount in dollars. *)
Lemma fifth_of_cents c :
  0 < c < 10 ^ 15 ->
  int_of_float64 (math.Ceil (f64.mul (f64.of_quotient false c 100) f64.c0_2))
  = (c + 499) / 500.
Proof.
  intros Hc.
  destruct (of_quotient_cents c) as (m & e & m1 & G & -> & Hm & He & HP & HP1 & HP2 & HPex);
    [lia|].
  destruct (mul_fifth m e Hm He)
    as (m' & e' & m1' & G' & w & -> & Hm' & He' & HV & HV1 & HV2 & Hw & HG').
  rewrite <- HP in *.
  set (P := Z.pos m * 2 ^ (e + 64)) in *.
  set (V := Z.pos m' * 2 ^ (e' + 64)) in *.
  assert (HVb : V <= 2 ^ 62 * 2 ^ 64) by lia.
  rewrite int_ceil_scaled by (try lia; exact HVb).
  fold V.
  apply (fifth_ceiling_arith c P V G G' m1' w); assumption.
Qed.

Theorem roundedPoints_money s c :
  cents s = Some c -> c < 10 ^ 15 -> roundedPoints s = (c + 499) / 500.
Proof.
  intros Hs Hc. pose proof (cents_nonneg s c Hs) as H0.
  unfold roundedPoints. rewrite (ParseFloat_money s c Hs Hc).
  destruct (Z.eqb_spec c 0) as [->|Hne]; [reflexivity|].
  apply fifth_of_cents. lia.
Qed.

(** ** Scenario A *)

(** C5. The receipt of scenario A (retailer "Target", one item
    "Pepsi - 12-oz" at 1.25, total 1.25, bought 2022-01-01 at 13:01)
    scores exactly 37: 6 for the retailer name, 25 for the total being a
    multiple of a quarter, 6 for the odd day, and nothing from the four
    other rules. *)
Theorem scenarioA_scores_37 :
  calculatePoints scenarioA = Ok 37
  /\ retailerPoints scenarioA = 6
  /\ roundDollarPoints scenarioA = 0
  /\ quarterPoints scenarioA = 25
  /\ itemCountPoints scenarioA = 0
  /\ trimmedLen pepsi = 13
  /\ descriptionPoints (Items scenarioA) = 0
  /\ dayPoints "01" = 6
  /\ timePoints scenarioA = 0.
Proof. vm_compute. repeat split; reflexivity. Qed.

(** Scenario B, the receipt of the README: bought on an even day, it
    scores 31. *)
Example scenarioB_scores_31 : calculatePoints (atTime "13:13") = Ok 31.
Proof. vm_compute. reflexivity. Qed.

(** ** The total "100.00" *)

(** Against C2 as stated: on the total "100.00" the round-dollar rule
    and the quarter rule together give 75 points, not 100. *)
Lemma hundred_not_100_combined :
  Total hundred = "100.00"
  /\ roundDollarPoints hundred + quarterPoints hundred <> 100.
Proof. vm_compute. split; [reflexivity | discriminate]. Qed.

(** C2, amended. On a receipt whose total is "100.00" both rules fire
    in the same call: the round-dollar rule adds 50, the quarter rule
    adds 25, together 75, and the score is the sum of these and of the
    five other contributions. *)
Theorem total_100_both_rules receipt :
  Total receipt = "100.00" ->
  roundDollarPoints receipt = 50
  /\ quarterPoints receipt = 25
  /\ roundDollarPoints receipt + quarterPoints receipt = 75
  /\ forall dayText,
       nth_error (gostrings.Split (PurchaseDate receipt) "-") 2 = Some dayText ->
       calculatePoints receipt =
         Ok (wrap64 (retailerPoints receipt + 50 + 25 + itemCountPoints receipt
                     + descriptionPoints (Items receipt) + dayPoints dayText
                     + timePoints receipt)).
Proof.
  intros Htotal.
  assert (H50 : roundDollarPoints receipt = 50)
    by (unfold roundDollarPoints; rewrite Htotal; reflexivity).
  assert (H25 : quarterPoints receipt = 25)
    by (unfold quarterPoints, totalInCents; rewrite Htotal; reflexivity).
  split; [exact H50|]. split; [exact H25|]. split.
  - rewrite H50, H25. reflexivity.
  - intros dayText Hday. rewrite (calculatePoints_sum _ _ Hday).
    unfold pointsSum. rewrite H50, H25. reflexivity.
Qed.

Lemma total_100_both_rules_witness :
  Total hundred = "100.00"
  /\ nth_error (gostrings.Split (PurchaseDate hundred) "-") 2 = Some "02"
  /\ roundDollarPoints hundred = 50
  /\ quarterPoints hundred = 25
  /\ roundDollarPoints hundred + quarterPoints hundred = 75
  /\ calculatePoints hundred =
       Ok (wrap64 (retailerPoints hundred + 50 + 25 + itemCountPoints hundred
                   + descriptionPoints (Items hundred) + dayPoints "02"
                   + timePoints hundred)).
Proof.
  destruct (total_100_both_rules hundred eq_refl) as (H50 & H25 & H75 & Hsum).
  split; [reflexivity|]. split; [reflexivity|].
  split; [exact H50|]. split; [exact H25|]. split; [exact H75|].
  apply (Hsum "02"). reflexivity.
Defined.

(** ** The boundaries of the afternoon *)

(** The four boundary times: 14:00 earns nothing, 14:01 and 15:59 earn
    the bonus, 16:00 earns nothing. *)
Example afternoon_boundaries :
  timePoints (atTime "14:00") = 0 /\ calculatePoints (atTime "14:00") = Ok 31
  /\ timePoints (atTime "14:01") = 10 /\ calculatePoints (atTime "14:01") = Ok 41
  /\ timePoints (atTime "15:59") = 10 /\ calculatePoints (atTime "15:59") = Ok 41
  /\ timePoints (atTime "16:00") = 0 /\ calculatePoints (atTime "16:00") = Ok 31.
Proof. vm_compute. repeat split; reflexivity. Qed.

(** ** The registry *)

(** C8. Registering a receipt and then looking up the identifier that
    the registration answered finds exactly that receipt, whatever the
    store held before, and [getPoints] scores exactly that receipt. *)
Theorem register_then_lookup (receiptStore : gmap string Receipt)
    (receipt : Receipt) (id : string) :
  let '(store', answer) := processReceipt (Some receipt) id receiptStore in
  answer = OK_id id
  /\ store' !! id = Some receipt
  /\ getPoints id store' =
       (store', match calculatePoints receipt with
                | Ok points => OK_points points
                | Panic _ => InternalServerError
                end).
Proof.
  simpl. split; [reflexivity|]. split.
  - apply lookup_insert_eq.
  - unfold getPoints. rewrite lookup_insert_eq.
    destruct (calculatePoints receipt); reflexivity.
Qed.

Lemma handle_lookup_none (st : gmap string Receipt) rq id :
  st !! id = None -> ~ In id (registered [rq]) ->
  fst (handle st rq) !! id = None.
Proof.
  intros Hst Hnot. destruct rq as [[receipt|] id'|id']; simpl in *.
  - rewrite lookup_insert_ne; [assumption|]. intros ->. apply Hnot. now left.
  - assumption.
  - unfold getPoints. destruct (st !! id'); [|assumption].
    destruct (calculatePoints _); assumption.
Qed.

(** An identifier that no request registered is absent from the store. *)
Lemma run_lookup_none rqs : forall (st : gmap string Receipt) id,
  st !! id = None -> ~ In id (registered rqs) -> run st rqs !! id = None.
Proof.
  induction rqs as [|rq rqs IH]; intros st id Hst Hnot; [assumption|].
  unfold run. simpl. apply IH.
  - apply handle_lookup_none; [assumption|].
    intros Hin. apply Hnot. destruct rq as [[?|] ?|?]; simpl in *; tauto.
  - intros Hin. apply Hnot. destruct rq as [[?|] ?|?]; simpl in *; tauto.
Qed.

(** C9. After any sequence of requests served since the start of the
    process, [getPoints] on an identifier that none of them registered
    answers not-found and leaves the store as it was; so does every
    further call. *)
Theorem lookup_unregistered_not_found (rqs : list request) (id : string) :
  ~ In id (registered rqs) ->
  let receiptStore := run ∅ rqs in
  receiptStore !! id = None
  /\ getPoints id receiptStore = (receiptStore, NotFound)
  /\ forall n : nat,
       getPoints id (Nat.iter n (fun st => fst (getPoints id st)) receiptStore)
       = (receiptStore, NotFound).
Proof.
  intros Hnot receiptStore.
  assert (Hnone : receiptStore !! id = None)
    by (apply run_lookup_none; [apply lookup_empty | assumption]).
  assert (Hget : getPoints id receiptStore = (receiptStore, NotFound))
    by (unfold getPoints; rewrite Hnone; reflexivity).
  split; [assumption|]. split; [assumption|].
  intros n.
  assert (Hiter : Nat.iter n (fun st => fst (getPoints id st)) receiptStore
                  = receiptStore).
  { induction n as [|n IHn]; [reflexivity|]. simpl. rewrite IHn, Hget.
    reflexivity. }
  rewrite Hiter. exact Hget.
Qed.

Lemma lookup_unregistered_not_found_witness :
  let rqs := [Process (Some scenarioA) "id-1"; GetPoints "id-1"] in
  let receiptStore := run ∅ rqs in
  ~ In "id-2" (registered rqs)
  /\ receiptStore !! "id-2" = None
  /\ getPoints "id-2" receiptStore = (receiptStore, NotFound)
  /\ forall n : nat,
       getPoints "id-2"
         (Nat.iter n (fun st => fst (getPoints "id-2" st)) receiptStore)
       = (receiptStore, NotFound).
Proof.
  assert (Hnot : ~ In "id-2"
                   (registered [Process (Some scenarioA) "id-1"; GetPoints "id-1"])).
  { simpl. intros [H|[]]. discriminate H. }
  split; [exact Hnot|].
  apply (lookup_unregistered_not_found
           [Process (Some scenarioA) "id-1"; GetPoints "id-1"] "id-2" Hnot).
Defined.

(** C10. A registration changes the store at the generated identifier
    only: every other identifier maps to what it mapped to before, or
    stays absent. [getPoints] never changes the store. *)
Theorem register_frame (receiptStore : gmap string Receipt)
    (receipt : Receipt) (id : string) :
  (forall other : string,
      other <> id ->
      fst (processReceipt (Some receipt) id receiptStore) !! other
      = receiptStore !! other)
  /\ (forall anyId : string, fst (getPoints anyId receiptStore) = receiptStore).
Proof.
  split.
  - intros other Hne. simpl. apply lookup_insert_ne. congruence.
  - intros anyId. unfold getPoints. destruct (receiptStore !! anyId); [|reflexivity].
    destruct (calculatePoints _); reflexivity.
Qed.

Lemma register_frame_witness :
  "id-1" <> "id-2"
  /\ fst (processReceipt (Some hundred) "id-2" {[ "id-1" := scenarioA ]})
       !! "id-1"
     = ({[ "id-1" := scenarioA ]} : gmap string Receipt) !! "id-1".
Proof.
  assert (Hne : "id-1" <> "id-2") by discriminate.
  split; [exact Hne|].
  apply (proj1 (register_frame {[ "id-1" := scenarioA ]} hundred "id-2")).
  exact Hne.
Defined.

(** ** Totality on receipts that follow the data model *)

Lemma isDigit_not_dash c : isDigit c = true -> Ascii.eqb c "-" = false.
Proof.
  destruct c as [[] [] [] [] [] [] [] []]; vm_compute; congruence.
Qed.

Ltac dash_or_not c :=
  destruct (Ascii.eqb_spec c "-") as [->|?];
  [| destruct c as [[] [] [] [] [] [] [] []]; try discriminate; contradiction].

(** The text of a date of the data model splits into year, month and
    a day of two digits. *)
Lemma isDate_split s :
  isDate s = true ->
  exists y m d1 d2,
    gostrings.Split s "-" = [y; m; String d1 (String d2 EmptyString)]
    /\ isDigit d1 = true /\ isDigit d2 = true.
Proof.
  intros H.
  destruct s as [|y1 [|y2 [|y3 [|y4 [|c1 [|m1 [|m2 [|c2 [|d1 [|d2 [|? ?]]]]]]]]]]];
    try discriminate H.
  all: try (dash_or_not c1; discriminate H).
  all: try (dash_or_not c1; dash_or_not c2; discriminate H).
  dash_or_not c1. dash_or_not c2. simpl in H.
  rewrite !andb_true_iff in H.
  destruct H as [[[[[[[Hy1 Hy2] Hy3] Hy4] Hm1] Hm2] Hd1] Hd2].
  exists (String y1 (String y2 (String y3 (String y4 EmptyString)))),
    (String m1 (String m2 EmptyString)), d1, d2.
  split; [|split; assumption].
  cbn [gostrings.Split].
  rewrite (isDigit_not_dash y1 Hy1), (isDigit_not_dash y2 Hy2),
    (isDigit_not_dash y3 Hy3), (isDigit_not_dash y4 Hy4),
    (isDigit_not_dash m1 Hm1), (isDigit_not_dash m2 Hm2),
    (isDigit_not_dash d1 Hd1), (isDigit_not_dash d2 Hd2).
  reflexivity.
Qed.

(** A text of two digits is a number for [Atoi]. *)
Lemma Atoi_two_digits d1 d2 :
  isDigit d1 = true -> isDigit d2 = true ->
  strconv.Atoi (String d1 (String d2 EmptyString))
  = (digitValue d1 * 10 + digitValue d2, None).
Proof.
  intros H1 H2.
  destruct (digit_char_facts d1 H1)
    as (_ & _ & Eplus & Eminus & _ & _ & _ & _ & _ & Hv1 & _).
  destruct (digit_char_facts d2 H2)
    as (_ & _ & _ & _ & _ & _ & _ & _ & _ & Hv2 & _).
  unfold strconv.Atoi.
  change (len (String d1 (String d2 EmptyString))) with 2.
  cbn [Z.ltb Z.compare Pos.compare Pos.compare_cont andb].
  rewrite Eminus, Eplus. cbn [orb andb].
  cbn [strconv.atoiDigits]. fold (digitValue d1) (digitValue d2).
  rewrite !Z.mod_small by lia.
  replace (9 <? digitValue d1) with false by (symmetry; apply Z.ltb_ge; lia).
  replace (9 <? digitValue d2) with false by (symmetry; apply Z.ltb_ge; lia).
  reflexivity.
Qed.

(** The day of a receipt that follows the data model can be read, and
    it is a number. *)
Lemma validReceipt_day receipt :
  validReceipt receipt = true ->
  exists dayText,
    nth_error (gostrings.Split (PurchaseDate receipt) "-") 2 = Some dayText
    /\ snd (strconv.Atoi dayText) = None.
Proof.
  unfold validReceipt. intros H.
  rewrite !andb_true_iff in H.
  destruct H as [[[[_ Hdate] _] _] _].
  destruct (isDate_split (PurchaseDate receipt) Hdate)
    as (y & m & d1 & d2 & Hs & Hd1 & Hd2).
  exists (String d1 (String d2 EmptyString)). split.
  - rewrite Hs. reflexivity.
  - rewrite (Atoi_two_digits d1 d2 Hd1 Hd2). reflexivity.
Qed.

(** C6. On every receipt that follows the data model, [calculatePoints]
    does not panic: it returns an integer (an [int]), the sum of the
    seven contributions. In particular the third field of the purchase
    date exists, and the day is read from it without an error. *)
Theorem calculatePoints_total receipt :
  validReceipt receipt = true ->
  exists dayText points,
    nth_error (gostrings.Split (PurchaseDate receipt) "-") 2 = Some dayText
    /\ snd (strconv.Atoi dayText) = None
    /\ calculatePoints receipt = Ok points
    /\ points = wrap64 (pointsSum receipt dayText)
    /\ minInt64 <= points <= maxInt64.
Proof.
  intros H. destruct (validReceipt_day receipt H) as (d & Hday & Hatoi).
  exists d, (wrap64 (pointsSum receipt d)).
  split; [exact Hday|]. split; [exact Hatoi|].
  split; [apply calculatePoints_sum; exact Hday|].
  split; [reflexivity | apply wrap64_range].
Qed.

Lemma calculatePoints_total_witness :
  validReceipt scenarioA = true
  /\ exists dayText points,
       nth_error (gostrings.Split (PurchaseDate scenarioA) "-") 2 = Some dayText
       /\ snd (strconv.Atoi dayText) = None
       /\ calculatePoints scenarioA = Ok points
       /\ points = wrap64 (pointsSum scenarioA dayText)
       /\ minInt64 <= points <= maxInt64.
Proof.
  split; [reflexivity|].
  apply (calculatePoints_total scenarioA). reflexivity.
Defined.

(** ** Malformed numeric fields *)

Lemma ParseFloat_syntax_zero s :
  snd (strconv.ParseFloat s) = Some ErrSyntax ->
  fst (strconv.ParseFloat s) = S754_zero false.
Proof.
  unfold strconv.ParseFloat.
  destruct (atof.special s) as [[val n]|].
  - destruct (n =? len s); [discriminate | reflexivity].
  - destruct (atof.readFloat s) as [p|]; [|reflexivity].
    destruct (negb (String.eqb (atof.rest p) "")); [reflexivity|].
    destruct (atof.seen_underscore p && negb (atof.underscoreOK s));
      [reflexivity|].
    cbn [snd]. destruct (f64.is_inf _); discriminate.
Qed.

Lemma malformed_price_zero item :
  priceSyntaxError item = true -> itemPoints item = 0.
Proof.
  unfold priceSyntaxError, itemPoints, roundedPoints. intros H.
  destruct (Z.rem (trimmedLen item) 3 =? 0); [|reflexivity].
  rewrite ParseFloat_syntax_zero; [reflexivity|].
  destruct (snd (strconv.ParseFloat (Price item))) as [[]|];
    [reflexivity | discriminate | discriminate].
Qed.

Lemma descriptionPoints_wellformed items :
  descriptionPoints items
  = descriptionPoints (List.filter (fun item => negb (priceSyntaxError item)) items).
Proof.
  induction items as [|item items IH]; [reflexivity|].
  cbn [descriptionPoints fold_right List.filter].
  fold (descriptionPoints items).
  destruct (priceSyntaxError item) eqn:E; cbn [negb].
  - rewrite (malformed_price_zero item E), IH. reflexivity.
  - cbn [descriptionPoints fold_right].
    fold (descriptionPoints (List.filter (fun item => negb (priceSyntaxError item)) items)).
    rewrite IH. reflexivity.
Qed.

Lemma roundDollarPoints_spec receipt :
  (roundDollarPoints receipt = 50 <-> exists pre, Total receipt = pre ++ ".00")
  /\ (roundDollarPoints receipt = 0 <-> ~ exists pre, Total receipt = pre ++ ".00").
Proof.
  unfold roundDollarPoints.
  pose proof (HasSuffix_spec (Total receipt) ".00") as Hs.
  destruct (gostrings.HasSuffix (Total receipt) ".00").
  - assert (He : exists pre, Total receipt = pre ++ ".00") by (apply Hs; reflexivity).
    split; split; intros; try assumption; try reflexivity;
      try discriminate; contradiction.
  - assert (Hn : ~ exists pre, Total receipt = pre ++ ".00")
      by (intros He; apply Hs in He; discriminate).
    split; split; intros; try assumption; try reflexivity;
      try discriminate; contradiction.
Qed.

Lemma Atoi_syntax_zero s :
  snd (strconv.Atoi s) = Some ErrSyntax -> fst (strconv.Atoi s) = 0.
Proof.
  unfold strconv.Atoi, strconv.ParseInt.
  repeat case_match; cbn [fst snd]; intros; try reflexivity; discriminate.
Qed.

(** What the quarter rule does on a total that is no number: [Atoi]
    returns 0 with its error, the error is dropped, and 0 is a multiple
    of 25. *)
Lemma quarter_rule_on_malformed_total receipt :
  snd (strconv.Atoi (gostrings.ReplaceAll (Total receipt) "." ""))
  = Some ErrSyntax ->
  quarterPoints receipt = 25.
Proof.
  intros H. unfold quarterPoints, totalInCents.
  rewrite (Atoi_syntax_zero _ H). reflexivity.
Qed.

(** A text that is empty, or that starts with a byte with which no
    number starts, is a syntax error for [ParseFloat]. *)
Lemma ParseFloat_no_number s :
  match s with
  | EmptyString => True
  | String c _ => noNumberStart c = true
  end ->
  strconv.ParseFloat s = (S754_zero false, Some ErrSyntax).
Proof.
  destruct s as [|c s']; [reflexivity|].
  unfold noNumberStart. intros H. apply negb_true_iff in H.
  rewrite !orb_false_iff in H.
  destruct H as [[[[[[[[Hd Hplus] Hminus] Hdot] Hus] Hi] HI] Hn] HN].
  unfold strconv.ParseFloat.
  assert (Hspecial : atof.special (String c s') = None).
  { unfold atof.special. rewrite Hplus, Hminus, Hi, HI, Hn, HN. reflexivity. }
  rewrite Hspecial.
  assert (Hrf : atof.readFloat (String c s') = None).
  { unfold atof.readFloat. rewrite Hplus, Hminus. cbn [orb].
    assert (Hzero : Ascii.eqb c "0" = false).
    { destruct (Ascii.eqb_spec c "0") as [->|]; [discriminate Hd | reflexivity]. }
    assert (Hhex : match String c s' with
                   | String z (String x (String _ _)) =>
                       Ascii.eqb z "0" && (lower x =? 120)
                   | _ => false
                   end = false).
    { destruct s' as [|x [|? ?]]; try reflexivity. rewrite Hzero. reflexivity. }
    rewrite Hhex. cbv iota.
    cbn [atof.readMantissa]. rewrite Hus, Hdot, Hd. cbn [andb].
    reflexivity. }
  rewrite Hrf. reflexivity.
Qed.

(** Against C1 as stated, on both fields. The total "abc.00" is no
    decimal number, and yet the round-dollar rule adds its 50 points
    and the quarter rule its 25. The prices "0x1p4" and "1_0" are no
    decimal numbers either: [ParseFloat] reads them as 16 and 10
    without an error, and the description rule adds 4 and 2 points for
    them. On "NaN" and "Infinity", and on "1e400", whose range error
    the code drops, the rule adds what the conversion of a NaN or of an
    infinity to an [int] gives. *)
Lemma malformed_fields_still_score :
  (isDecimal (Total malformedTotal) = false
   /\ snd (strconv.ParseFloat (Total malformedTotal)) = Some ErrSyntax
   /\ snd (strconv.Atoi (gostrings.ReplaceAll (Total malformedTotal) "." ""))
      = Some ErrSyntax
   /\ roundDollarPoints malformedTotal = 50
   /\ roundDollarPoints malformedTotal <> 0
   /\ quarterPoints malformedTotal = 25
   /\ calculatePoints malformedTotal = Ok 81)
  /\ (isDecimal "0x1p4" = false
      /\ strconv.ParseFloat "0x1p4" = (S754_finite false 4503599627370496 (-48), None)
      /\ priceSyntaxError (gum "0x1p4") = false
      /\ itemPoints (gum "0x1p4") = 4
      /\ itemPoints (gum "0x1p4") <> 0
      /\ calculatePoints (withPrice "0x1p4") = Ok 35)
  /\ (isDecimal "1_0" = false
      /\ snd (strconv.ParseFloat "1_0") = None
      /\ itemPoints (gum "1_0") = 2
      /\ calculatePoints (withPrice "1_0") = Ok 33)
  /\ (isDecimal "NaN" = false
      /\ strconv.ParseFloat "NaN" = (S754_nan, None)
      /\ itemPoints (gum "NaN") = minInt64)
  /\ (isDecimal "Infinity" = false
      /\ strconv.ParseFloat "Infinity" = (S754_infinity false, None)
      /\ itemPoints (gum "Infinity") = minInt64)
  /\ (isDecimal "1e400" = false
      /\ strconv.ParseFloat "1e400" = (S754_infinity false, Some ErrRange)
      /\ priceSyntaxError (gum "1e400") = false
      /\ itemPoints (gum "1e400") = minInt64)
  /\ (priceSyntaxError (gum "free") = true
      /\ calculatePoints (withPrice "free") = Ok 31).
Proof. vm_compute. repeat split; try reflexivity; discriminate. Qed.

(** C1, amended. An item on whose price [ParseFloat] reports a syntax
    error adds nothing under the description rule; such are the empty
    price and every price that starts with a byte other than a digit, a
    sign, a point, an underscore or one of the letters i, I, n and N.
    Every other price is scored on the value that [ParseFloat] returns
    for it, a decimal number or not. The score is still computed: with
    a purchase date of three fields it is the sum of the contributions
    of the rules, the description rule counting the items without a
    syntax error in their price only. The round-dollar rule does not
    parse the total: it adds 50 exactly when the text of the total ends
    in ".00". *)
Theorem malformed_price_scores_zero receipt :
  (forall item, priceSyntaxError item = true -> itemPoints item = 0)
  /\ (forall item,
        match Price item with
        | EmptyString => True
        | String c _ => noNumberStart c = true
        end ->
        priceSyntaxError item = true /\ itemPoints item = 0)
  /\ (forall item,
        Z.rem (trimmedLen item) 3 = 0 ->
        itemPoints item
        = int_of_float64
            (math.Ceil (f64.mul (fst (strconv.ParseFloat (Price item)))
                          f64.c0_2)))
  /\ (roundDollarPoints receipt = 50 <-> exists pre, Total receipt = pre ++ ".00")
  /\ (roundDollarPoints receipt = 0 <-> ~ exists pre, Total receipt = pre ++ ".00")
  /\ forall dayText,
       nth_error (gostrings.Split (PurchaseDate receipt) "-") 2 = Some dayText ->
       calculatePoints receipt =
         Ok (wrap64 (retailerPoints receipt + roundDollarPoints receipt
                     + quarterPoints receipt + itemCountPoints receipt
                     + descriptionPoints
                         (List.filter (fun item => negb (priceSyntaxError item))
                                      (Items receipt))
                     + dayPoints dayText + timePoints receipt)).
Proof.
  split; [exact malformed_price_zero|]. split; [|split].
  - intros item Hstart.
    assert (H : priceSyntaxError item = true)
      by (unfold priceSyntaxError;
          rewrite (ParseFloat_no_number _ Hstart); reflexivity).
    split; [exact H | apply malformed_price_zero, H].
  - intros item Hlen. unfold itemPoints, roundedPoints. rewrite Hlen.
    reflexivity.
  - destruct (roundDollarPoints_spec receipt) as [H50 H0].
    split; [exact H50|]. split; [exact H0|].
    intros dayText Hday.
    rewrite (calculatePoints_sum _ _ Hday). unfold pointsSum.
    rewrite (descriptionPoints_wellformed (Items receipt)). reflexivity.
Qed.

Lemma malformed_price_scores_zero_witness :
  priceSyntaxError gift = true
  /\ noNumberStart "f" = true
  /\ Z.rem (trimmedLen pizza) 3 = 0
  /\ nth_error (gostrings.Split (PurchaseDate withGift) "-") 2 = Some "02"
  /\ itemPoints gift = 0
  /\ itemPoints pizza
     = int_of_float64
         (math.Ceil (f64.mul (fst (strconv.ParseFloat "12.25")) f64.c0_2))
  /\ calculatePoints withGift =
       Ok (wrap64 (retailerPoints withGift + roundDollarPoints withGift
                   + quarterPoints withGift + itemCountPoints withGift
                   + descriptionPoints [pizza]
                   + dayPoints "02" + timePoints withGift)).
Proof.
  destruct (malformed_price_scores_zero withGift)
    as (Hzero & Hstart & Hvalue & _ & _ & Hsum).
  assert (Hf : noNumberStart "f" = true) by reflexivity.
  split; [reflexivity|]. split; [exact Hf|]. split; [reflexivity|].
  split; [reflexivity|].
  split; [exact (proj2 (Hstart gift Hf))|].
  split; [apply (Hvalue pizza); reflexivity|].
  apply (Hsum "02"). reflexivity.
Defined.

(** ** The description rule *)

(** Against C4 as stated: the length that counts is the number of
    bytes, not of characters. "Pâté" has four characters and earns the
    bonus, for it has six bytes; "Thé" has three characters and earns
    nothing, for it has four bytes. *)
Lemma bytes_not_characters :
  utf8.RuneCountInString (gostrings.TrimSpace (ShortDescription pate)) = 4
  /\ Z.rem 4 3 <> 0
  /\ trimmedLen pate = 6
  /\ itemPoints pate = 1
  /\ utf8.RuneCountInString (gostrings.TrimSpace (ShortDescription the)) = 3
  /\ Z.rem 3 3 = 0
  /\ trimmedLen the = 4
  /\ roundedPoints (Price the) = 1
  /\ itemPoints the = 0.
Proof. vm_compute. repeat split; try reflexivity; discriminate. Qed.

Lemma descriptionPoints_app before after :
  descriptionPoints (before ++ after)
  = descriptionPoints before + descriptionPoints after.
Proof.
  induction before as [|item before IH]; [reflexivity|].
  change (descriptionPoints ((item :: before) ++ after))
    with (itemPoints item + descriptionPoints (before ++ after)).
  change (descriptionPoints (item :: before))
    with (itemPoints item + descriptionPoints before).
  rewrite IH. lia.
Qed.

(** C4, amended. For every item the description rule adds
    [int(ceil(price * 0.2))], computed in binary64, exactly when the
    trimmed description has a length in bytes that is a multiple of 3,
    and nothing otherwise: lengths 0, 3 and 6 qualify, lengths 1, 2, 4
    and 5 do not. For a description of ASCII characters the length in
    bytes is the number of characters. For a price of the data model
    below ten trillion dollars the amount added is the exact ceiling of
    a fifth of the price. The score adds that amount for the item. *)
Theorem description_bonus_by_bytes (item : Item) :
  (Z.rem (trimmedLen item) 3 = 0 -> itemPoints item = roundedPoints (Price item))
  /\ (Z.rem (trimmedLen item) 3 <> 0 -> itemPoints item = 0)
  /\ (trimmedLen item = 0 \/ trimmedLen item = 3 \/ trimmedLen item = 6 ->
      itemPoints item = roundedPoints (Price item))
  /\ (trimmedLen item = 1 \/ trimmedLen item = 2 \/ trimmedLen item = 4
      \/ trimmedLen item = 5 -> itemPoints item = 0)
  /\ (isASCII (ShortDescription item) = true ->
      trimmedLen item
      = utf8.RuneCountInString (gostrings.TrimSpace (ShortDescription item)))
  /\ (forall c, cents (Price item) = Some c -> c < 10 ^ 15 ->
      roundedPoints (Price item) = (c + 499) / 500)
  /\ (forall receipt before after dayText,
      Items receipt = (before ++ item :: after)%list ->
      nth_error (gostrings.Split (PurchaseDate receipt) "-") 2 = Some dayText ->
      calculatePoints receipt =
        Ok (wrap64 (retailerPoints receipt + roundDollarPoints receipt
                    + quarterPoints receipt + itemCountPoints receipt
                    + (descriptionPoints before + itemPoints item
                       + descriptionPoints after)
                    + dayPoints dayText + timePoints receipt))).
Proof.
  assert (Hyes : Z.rem (trimmedLen item) 3 = 0 ->
                 itemPoints item = roundedPoints (Price item)).
  { intros H. unfold itemPoints. rewrite H. reflexivity. }
  assert (Hno : Z.rem (trimmedLen item) 3 <> 0 -> itemPoints item = 0).
  { intros H. unfold itemPoints.
    destruct (Z.eqb_spec (Z.rem (trimmedLen item) 3) 0); [contradiction|reflexivity]. }
  split; [exact Hyes|]. split; [exact Hno|]. split; [|split; [|split; [|split]]].
  - intros [H|[H|H]]; apply Hyes; rewrite H; reflexivity.
  - intros [H|[H|[H|H]]]; apply Hno; rewrite H; discriminate.
  - intros H. unfold trimmedLen. symmetry.
    apply RuneCount_ascii, TrimSpace_ascii, H.
  - intros c. apply roundedPoints_money.
  - intros receipt before after dayText Hitems Hday.
    rewrite (calculatePoints_sum _ _ Hday). unfold pointsSum.
    rewrite Hitems, descriptionPoints_app.
    change (descriptionPoints (item :: after))
      with (itemPoints item + descriptionPoints after).
    do 2 f_equal. lia.
Qed.

Lemma description_bonus_by_bytes_witness :
  (Z.rem (trimmedLen pizza) 3 = 0
   /\ itemPoints pizza = roundedPoints "12.25")
  /\ (Z.rem (trimmedLen pepsi) 3 <> 0 /\ itemPoints pepsi = 0)
  /\ (isASCII (ShortDescription pizza) = true
      /\ trimmedLen pizza
         = utf8.RuneCountInString
             (gostrings.TrimSpace (ShortDescription pizza)))
  /\ (cents "12.25" = Some 1225 /\ 1225 < 10 ^ 15
      /\ roundedPoints "12.25" = (1225 + 499) / 500)
  /\ (Items withGift = ([gift] ++ pizza :: [])%list
      /\ nth_error (gostrings.Split (PurchaseDate withGift) "-") 2 = Some "02"
      /\ calculatePoints withGift =
           Ok (wrap64 (retailerPoints withGift + roundDollarPoints withGift
                       + quarterPoints withGift + itemCountPoints withGift
                       + (descriptionPoints [gift] + itemPoints pizza
                          + descriptionPoints [])
                       + dayPoints "02" + timePoints withGift))).
Proof.
  destruct (description_bonus_by_bytes pizza)
    as (Hyes & _ & _ & _ & Hascii & Hexact & Hsum).
  destruct (description_bonus_by_bytes pepsi) as (_ & Hno & _).
  assert (Hpepsi : Z.rem (trimmedLen pepsi) 3 <> 0) by (vm_compute; discriminate).
  split; [split; [reflexivity | apply Hyes; reflexivity]|].
  split; [split; [exact Hpepsi | apply Hno; exact Hpepsi]|].
  split; [split; [reflexivity | apply Hascii; reflexivity]|].
  split; [split; [reflexivity | split; [reflexivity |
                   apply (Hexact 1225); reflexivity]]|].
  split; [reflexivity|]. split; [reflexivity|].
  apply (Hsum withGift [gift] [] "02"); reflexivity.
Defined.

(** ** The score is not negative *)

Lemma FindAllString_length s :
  (length (regexp.FindAllString s) <= String.length s)%nat.
Proof.
  induction s as [|c s IH]; [cbn; lia|].
  cbn [regexp.FindAllString String.length].
  destruct (regexp.alnum c); cbn [length]; lia.
Qed.

Lemma dayPoints_range dayText : 0 <= dayPoints dayText <= 6.
Proof.
  unfold dayPoints. destruct (strconv.Atoi dayText) as [day [e|]]; [lia|].
  destruct (Z.rem day 2 =? 1); lia.
Qed.

Lemma timePoints_range receipt : 0 <= timePoints receipt <= 10.
Proof.
  unfold timePoints. destruct (gotime.Parse _); [|lia].
  destruct (_ || _); lia.
Qed.

Lemma itemPoints_range item :
  validItem item = true -> priceBelowTenTrillion item = true ->
  0 <= itemPoints item <= 2 * 10 ^ 12.
Proof.
  unfold validItem, priceBelowTenTrillion, isMoney. intros Hv Hb.
  destruct (cents (Price item)) as [c|] eqn:Hc; [|discriminate].
  apply Z.ltb_lt in Hb. pose proof (cents_nonneg _ _ Hc) as H0.
  unfold itemPoints. destruct (Z.rem (trimmedLen item) 3 =? 0); [|lia].
  rewrite (roundedPoints_money _ _ Hc Hb).
  split.
  - apply Z.div_pos; lia.
  - assert ((c + 499) / 500 < 2 * 10 ^ 12 + 1)
      by (apply Z.div_lt_upper_bound; lia).
    lia.
Qed.

Lemma descriptionPoints_range items :
  forallb validItem items = true ->
  forallb priceBelowTenTrillion items = true ->
  0 <= descriptionPoints items <= Z.of_nat (length items) * (2 * 10 ^ 12).
Proof.
  induction items as [|item items IH]; intros Hv Hb; [cbn; lia|].
  cbn [forallb] in Hv, Hb.
  apply andb_true_iff in Hv as [Hv1 Hv2], Hb as [Hb1 Hb2].
  change (descriptionPoints (item :: items))
    with (itemPoints item + descriptionPoints items).
  pose proof (itemPoints_range item Hv1 Hb1).
  specialize (IH Hv2 Hb2).
  change (length (item :: items)) with (S (length items)).
  rewrite Nat2Z.inj_succ. lia.
Qed.

(** Against C7 as stated: a receipt that follows the data model, with
    two items of forty quintillion dollars, scores a negative number:
    each item earns [8 * 10^18] points, and their sum does not fit an
    [int]. *)
Lemma valid_receipt_negative_score :
  validReceipt overflowing = true
  /\ itemPoints fortune = 8000000000000000000
  /\ calculatePoints overflowing = Ok (-2446744073709551555)
  /\ -2446744073709551555 < 0.
Proof. vm_compute. repeat split; reflexivity. Qed.

(** C7, amended. For every receipt that follows the data model and
    whose retailer name is shorter than [2^62] bytes, with at most a
    million items, each priced below ten trillion dollars, the score
    is the sum of the seven contributions and is not negative. *)
Theorem score_nonnegative receipt :
  validReceipt receipt = true -> modest receipt = true ->
  exists dayText points,
    nth_error (gostrings.Split (PurchaseDate receipt) "-") 2 = Some dayText
    /\ calculatePoints receipt = Ok points
    /\ points = pointsSum receipt dayText
    /\ 0 <= points.
Proof.
  intros Hvalid Hmodest.
  destruct (validReceipt_day receipt Hvalid) as (dayText & Hday & _).
  pose proof (calculatePoints_sum receipt dayText Hday) as Hcalc.
  unfold validReceipt in Hvalid. unfold modest in Hmodest.
  rewrite !andb_true_iff in Hvalid, Hmodest.
  destruct Hvalid as [_ Hitems]. destruct Hmodest as [[Hret Hn] Hprices].
  apply Z.ltb_lt in Hret. apply Z.leb_le in Hn.
  pose proof (descriptionPoints_range _ Hitems Hprices) as Hdesc.
  pose proof (dayPoints_range dayText) as Hdp.
  pose proof (timePoints_range receipt) as Htp.
  pose proof (FindAllString_length (Retailer receipt)) as Hfind.
  assert (Hrp : 0 <= retailerPoints receipt < 2 ^ 62).
  { unfold retailerPoints. unfold len in Hret. lia. }
  assert (Hrd : 0 <= roundDollarPoints receipt <= 50).
  { unfold roundDollarPoints. destruct (gostrings.HasSuffix _ _); lia. }
  assert (Hq : 0 <= quarterPoints receipt <= 25).
  { unfold quarterPoints. destruct (_ =? 0); lia. }
  assert (Hic : 0 <= itemCountPoints receipt <= 5 * 10 ^ 6).
  { unfold itemCountPoints, mul64.
    set (n := Z.of_nat (length (Items receipt))) in *.
    assert (0 <= n) by (unfold n; lia).
    rewrite Z.quot_div_nonneg by lia.
    assert (0 <= n / 2 <= n) by (split; [apply Z.div_pos; lia | apply Z.div_le_upper_bound; lia]).
    rewrite wrap64_small; unfold minInt64, maxInt64; lia. }
  assert (Hsum : 0 <= pointsSum receipt dayText <= maxInt64).
  { unfold pointsSum, maxInt64.
    assert (Z.of_nat (length (Items receipt)) * (2 * 10 ^ 12) <= 10 ^ 6 * (2 * 10 ^ 12))
      by (apply Z.mul_le_mono_nonneg_r; lia).
    lia. }
  exists dayText, (pointsSum receipt dayText).
  split; [exact Hday|]. split; [|split; [reflexivity | lia]].
  rewrite Hcalc, wrap64_small by (unfold minInt64; lia). reflexivity.
Qed.

Lemma score_nonnegative_witness :
  validReceipt scenarioA = true
  /\ modest scenarioA = true
  /\ exists dayText points,
       nth_error (gostrings.Split (PurchaseDate scenarioA) "-") 2 = Some dayText
       /\ calculatePoints scenarioA = Ok points
       /\ points = pointsSum scenarioA dayText
       /\ 0 <= points.
Proof.
  split; [reflexivity|]. split; [reflexivity|].
  apply (score_nonnegative scenarioA); reflexivity.
Defined.

(** * Further properties *)

(** ** The panic of the scoring function *)

Lemma Split_length s sep :
  length (gostrings.Split s sep) = S (countByte sep s).
Proof.
  induction s as [|c s IH]; [reflexivity|].
  cbn [gostrings.Split countByte].
  destruct (Ascii.eqb c sep).
  - cbn [length]. rewrite IH. reflexivity.
  - destruct (gostrings.Split s sep) as [|piece rest]; [discriminate IH|].
    cbn [length] in *. exact IH.
Qed.

Lemma third_field_iff s :
  (2 <= countByte "-" s)%nat
  <-> exists dayText, nth_error (gostrings.Split s "-") 2 = Some dayText.
Proof.
  pose proof (Split_length s "-") as Hlen.
  split.
  - intros H.
    destruct (nth_error (gostrings.Split s "-") 2) as [dayText|] eqn:E.
    + exists dayText. reflexivity.
    + apply nth_error_None in E. lia.
  - intros [dayText E].
    assert (2 < length (gostrings.Split s "-"))%nat
      by (apply nth_error_Some; rewrite E; discriminate).
    lia.
Qed.

Lemma calculatePoints_cases receipt :
  ((countByte "-" (PurchaseDate receipt) < 2)%nat
   /\ calculatePoints receipt = Panic "index out of range")
  \/ ((2 <= countByte "-" (PurchaseDate receipt))%nat
      /\ exists dayText,
           nth_error (gostrings.Split (PurchaseDate receipt) "-") 2
           = Some dayText
           /\ calculatePoints receipt = Ok (wrap64 (pointsSum receipt dayText))).
Proof.
  pose proof (third_field_iff (PurchaseDate receipt)) as Hthird.
  destruct (nth_error (gostrings.Split (PurchaseDate receipt) "-") 2)
    as [dayText|] eqn:E.
  - right. split.
    + apply Hthird. exists dayText. reflexivity.
    + exists dayText. split; [reflexivity|]. apply calculatePoints_sum, E.
  - left. split.
    + destruct (le_lt_dec 2 (countByte "-" (PurchaseDate receipt))) as [H|H];
        [|exact H].
      apply Hthird in H as [dayText H]. discriminate H.
    + apply calculatePoints_panics, E.
Qed.

(** X1. [calculatePoints] panics exactly on the receipts whose purchase
    date holds fewer than two hyphens (the index [dateParts[2]] is then
    out of range); on every other receipt, whatever its fields hold, it
    returns a value of the range of [int]. *)
Theorem calculatePoints_panics_iff receipt :
  ((countByte "-" (PurchaseDate receipt) < 2)%nat
   <-> calculatePoints receipt = Panic "index out of range")
  /\ ((2 <= countByte "-" (PurchaseDate receipt))%nat
      <-> exists points,
            calculatePoints receipt = Ok points
            /\ minInt64 <= points <= maxInt64).
Proof.
  destruct (calculatePoints_cases receipt)
    as [[Hcount ->]|[Hcount (dayText & _ & ->)]]; split; split.
  - reflexivity.
  - intros _. exact Hcount.
  - lia.
  - intros (points & H & _). discriminate H.
  - lia.
  - discriminate.
  - intros _. eexists. split; [reflexivity | apply wrap64_range].
  - intros _. exact Hcount.
Qed.

Lemma calculatePoints_panics_iff_witness :
  (countByte "-" (PurchaseDate undated) < 2)%nat
  /\ calculatePoints undated = Panic "index out of range"
  /\ (2 <= countByte "-" (PurchaseDate scenarioA))%nat
  /\ exists points,
       calculatePoints scenarioA = Ok points
       /\ minInt64 <= points <= maxInt64.
Proof.
  assert (Hlt : (countByte "-" (PurchaseDate undated) < 2)%nat)
    by (vm_compute; lia).
  assert (Hge : (2 <= countByte "-" (PurchaseDate scenarioA))%nat)
    by (vm_compute; lia).
  split; [exact Hlt|].
  split; [apply (proj1 (proj1 (calculatePoints_panics_iff undated)) Hlt)|].
  split; [exact Hge|].
  apply (proj1 (proj2 (calculatePoints_panics_iff scenarioA)) Hge).
Defined.

(** X2. The three answers of [getPoints]: not-found exactly when the
    store holds nothing under the identifier; a server error exactly
    when the stored receipt has a purchase date with fewer than two
    hyphens; the points of the stored receipt otherwise. The store is
    returned as it was. *)
Theorem getPoints_answers (receiptStore : gmap string Receipt) (id : string) :
  fst (getPoints id receiptStore) = receiptStore
  /\ (snd (getPoints id receiptStore) = NotFound <-> receiptStore !! id = None)
  /\ (snd (getPoints id receiptStore) = InternalServerError
      <-> exists receipt,
            receiptStore !! id = Some receipt
            /\ (countByte "-" (PurchaseDate receipt) < 2)%nat)
  /\ (forall points,
        snd (getPoints id receiptStore) = OK_points points
        <-> exists receipt,
              receiptStore !! id = Some receipt
              /\ (2 <= countByte "-" (PurchaseDate receipt))%nat
              /\ calculatePoints receipt = Ok points)
  /\ (forall id', snd (getPoints id receiptStore) <> OK_id id')
  /\ snd (getPoints id receiptStore) <> BadRequest.
Proof.
  unfold getPoints.
  destruct (receiptStore !! id) as [receipt|] eqn:E.
  - destruct (calculatePoints_cases receipt)
      as [[Hcount Hc]|[Hcount (dayText & _ & Hc)]]; rewrite Hc; cbn [fst snd].
    + split; [reflexivity|]. split; [split; discriminate|]. split.
      { split; [|reflexivity]. intros _. exists receipt. auto. }
      split.
      { intros p. split; [discriminate|].
        intros (r & Hr & Hge & _). injection Hr as <-. lia. }
      split; [intros id'|]; discriminate.
    + split; [reflexivity|]. split; [split; discriminate|]. split.
      { split; [discriminate|]. intros (r & Hr & Hlt).
        injection Hr as <-. lia. }
      split.
      { intros p. split.
        - intros H. injection H as <-. exists receipt. auto.
        - intros (r & Hr & _ & Hc'). injection Hr as <-. congruence. }
      split; [intros id'|]; discriminate.
  - cbn [fst snd]. split; [reflexivity|]. split; [tauto|]. split.
    { split; [discriminate|]. intros (r & Hr & _). discriminate Hr. }
    split.
    { intros p. split; [discriminate|]. intros (r & Hr & _). discriminate Hr. }
    split; [intros id'|]; discriminate.
Qed.

Lemma getPoints_answers_witness :
  let st : gmap string Receipt := {[ "id-1" := undated ]} in
  st !! "id-2" = None
  /\ snd (getPoints "id-2" st) = NotFound
  /\ (exists receipt,
        st !! "id-1" = Some receipt
        /\ (countByte "-" (PurchaseDate receipt) < 2)%nat)
  /\ snd (getPoints "id-1" st) = InternalServerError.
Proof.
  assert (Hnone : ({[ "id-1" := undated ]} : gmap string Receipt) !! "id-2"
                  = None) by reflexivity.
  assert (Hsome : exists receipt,
            ({[ "id-1" := undated ]} : gmap string Receipt) !! "id-1"
            = Some receipt
            /\ (countByte "-" (PurchaseDate receipt) < 2)%nat).
  { exists undated. split; [reflexivity | vm_compute; lia]. }
  destruct (getPoints_answers {[ "id-1" := undated ]} "id-2")
    as (_ & Hnf & _).
  destruct (getPoints_answers {[ "id-1" := undated ]} "id-1")
    as (_ & _ & Herr & _).
  split; [exact Hnone|]. split; [exact (proj2 Hnf Hnone)|].
  split; [exact Hsome|]. exact (proj2 Herr Hsome).
Defined.

(** ** The order of the items *)

Lemma descriptionPoints_Permutation items items' :
  Permutation items items' ->
  descriptionPoints items = descriptionPoints items'.
Proof.
  unfold descriptionPoints.
  induction 1 as [|item l l' _ IH|a b l|l l' l'' _ IH1 _ IH2];
    cbn [fold_right] in *; lia.
Qed.

(** X3. The score does not depend on the order of the items: two
    receipts that agree on the four texts and whose items are the same
    up to their order get the same outcome of [calculatePoints], be it
    the points or the panic. *)
Theorem score_ignores_item_order receipt receipt' :
  Retailer receipt = Retailer receipt' ->
  PurchaseDate receipt = PurchaseDate receipt' ->
  PurchaseTime receipt = PurchaseTime receipt' ->
  Total receipt = Total receipt' ->
  Permutation (Items receipt) (Items receipt') ->
  calculatePoints receipt = calculatePoints receipt'.
Proof.
  intros Hr Hd Ht Htot Hperm.
  destruct (nth_error (gostrings.Split (PurchaseDate receipt) "-") 2)
    as [dayText|] eqn:E.
  - rewrite (calculatePoints_sum receipt dayText E).
    rewrite Hd in E. rewrite (calculatePoints_sum receipt' dayText E).
    do 2 f_equal.
    unfold pointsSum, retailerPoints, roundDollarPoints, quarterPoints,
      totalInCents, itemCountPoints, timePoints.
    rewrite Hr, Ht, Htot, (Permutation_length Hperm),
      (descriptionPoints_Permutation _ _ Hperm).
    reflexivity.
  - rewrite (calculatePoints_panics receipt E).
    rewrite Hd in E. rewrite (calculatePoints_panics receipt' E).
    reflexivity.
Qed.

Lemma score_ignores_item_order_witness :
  Permutation (Items withGift) (Items swapped)
  /\ calculatePoints withGift = calculatePoints swapped.
Proof.
  assert (Hperm : Permutation (Items withGift) (Items swapped))
    by apply perm_swap.
  split; [exact Hperm|].
  apply (score_ignores_item_order withGift swapped); try reflexivity.
  exact Hperm.
Defined.

(** ** The registry over a sequence of requests *)

Lemma run_cons (st : gmap string Receipt) rq rqs :
  run st (rq :: rqs) = run (fst (handle st rq)) rqs.
Proof. reflexivity. Qed.

Lemma getPoints_store id (st : gmap string Receipt) :
  fst (getPoints id st) = st.
Proof.
  unfold getPoints. destruct (st !! id); [|reflexivity].
  destruct (calculatePoints _); reflexivity.
Qed.

Lemma run_lookup rqs : forall (st : gmap string Receipt) id,
  run st rqs !! id = lastRegistered rqs id (st !! id).
Proof.
  induction rqs as [|rq rqs IH]; intros st id; [reflexivity|].
  rewrite run_cons, IH.
  destruct rq as [[receipt|] id'|id']; cbn [handle lastRegistered].
  - cbn [processReceipt fst]. f_equal.
    destruct (String.eqb_spec id' id) as [->|Hne].
    + apply lookup_insert_eq.
    + apply lookup_insert_ne. exact Hne.
  - reflexivity.
  - rewrite getPoints_store. reflexivity.
Qed.

Lemma lastRegistered_is_Some rqs id : forall before,
  is_Some (lastRegistered rqs id before)
  <-> is_Some before \/ In id (registered rqs).
Proof.
  induction rqs as [|rq rqs IH]; intros before.
  - cbn. tauto.
  - destruct rq as [[receipt|] id'|id']; cbn [lastRegistered registered];
      rewrite IH; try tauto.
    cbn [In]. destruct (String.eqb_spec id' id) as [->|Hne].
    + split; [tauto|]. intros _. left. eexists. reflexivity.
    + tauto.
Qed.

Lemma lastRegistered_unregistered rqs id : forall before,
  ~ In id (registered rqs) -> lastRegistered rqs id before = before.
Proof.
  induction rqs as [|rq rqs IH]; intros before Hnot; [reflexivity|].
  destruct rq as [[receipt|] id'|id']; cbn [lastRegistered registered] in *;
    try (apply IH; exact Hnot).
  cbn [In] in Hnot.
  destruct (String.eqb_spec id' id) as [->|Hne]; [tauto|].
  apply IH. tauto.
Qed.

Lemma lastRegistered_app rqs rqs' id before :
  lastRegistered (rqs ++ rqs') id before
  = lastRegistered rqs' id (lastRegistered rqs id before).
Proof.
  revert before. induction rqs as [|rq rqs IH]; intros before; [reflexivity|].
  destruct rq as [[receipt|] id'|id']; cbn [lastRegistered app]; apply IH.
Qed.

(** X4. The last registration wins. After any sequence of requests the
    store holds, under every identifier, the receipt of the last
    registration that was given this identifier, and what it held
    before when there was none. In particular a registration under an
    identifier already in use replaces the receipt, and the earlier
    receipt can no longer be scored. *)
Theorem last_registration_wins (rqs : list request)
    (receiptStore : gmap string Receipt) (id : string) :
  run receiptStore rqs !! id = lastRegistered rqs id (receiptStore !! id)
  /\ (forall first second rqs',
        rqs = Process (Some first) id :: Process (Some second) id :: rqs' ->
        ~ In id (registered rqs') ->
        run receiptStore rqs !! id = Some second
        /\ getPoints id (run receiptStore rqs)
           = (run receiptStore rqs, pointsAnswer second)).
Proof.
  split; [apply run_lookup|].
  intros first second rqs' -> Hnot.
  assert (H : run receiptStore
                (Process (Some first) id :: Process (Some second) id :: rqs')
              !! id = Some second).
  { rewrite run_lookup. cbn [lastRegistered]. rewrite String.eqb_refl.
    apply lastRegistered_unregistered. exact Hnot. }
  split; [exact H|].
  unfold getPoints, pointsAnswer. rewrite H.
  destruct (calculatePoints second); reflexivity.
Qed.

Lemma last_registration_wins_witness :
  let rqs := [Process (Some scenarioA) "id-1"; Process (Some hundred) "id-1";
              GetPoints "id-1"] in
  ~ In "id-1" (registered [GetPoints "id-1"])
  /\ run ∅ rqs !! "id-1" = Some hundred
  /\ getPoints "id-1" (run ∅ rqs) = (run ∅ rqs, pointsAnswer hundred).
Proof.
  assert (Hnot : ~ In "id-1" (registered [GetPoints "id-1"]))
    by (simpl; tauto).
  split; [exact Hnot|].
  apply (proj2 (last_registration_wins
                  [Process (Some scenarioA) "id-1"; Process (Some hundred) "id-1";
                   GetPoints "id-1"] ∅ "id-1")
           scenarioA hundred [GetPoints "id-1"] eq_refl Hnot).
Defined.

(** X5. The identifiers in the store are exactly those that were
    registered: after any requests served since the start of the
    process, the store holds a receipt under [id] exactly when some
    registration was given [id], and [getPoints] answers not-found
    exactly for the others. *)
Theorem stored_iff_registered (rqs : list request) (id : string) :
  (is_Some (run ∅ rqs !! id) <-> In id (registered rqs))
  /\ (snd (getPoints id (run ∅ rqs)) = NotFound <-> ~ In id (registered rqs)).
Proof.
  assert (H : is_Some (run ∅ rqs !! id) <-> In id (registered rqs)).
  { rewrite run_lookup, lastRegistered_is_Some, lookup_empty.
    split; [|tauto]. intros [[x Hx]|H]; [discriminate Hx | exact H]. }
  split; [exact H|].
  rewrite <- H. unfold getPoints.
  destruct (run ∅ rqs !! id) as [receipt|].
  - split.
    + destruct (calculatePoints receipt); discriminate.
    + intros Hn. contradiction Hn. eexists. reflexivity.
  - split; [|reflexivity]. intros _ [x Hx]. discriminate Hx.
Qed.

Lemma stored_iff_registered_witness :
  let rqs := [Process (Some scenarioA) "id-1"; Process None "id-2";
              GetPoints "id-1"] in
  In "id-1" (registered rqs)
  /\ is_Some (run ∅ rqs !! "id-1")
  /\ ~ In "id-2" (registered rqs)
  /\ snd (getPoints "id-2" (run ∅ rqs)) = NotFound.
Proof.
  assert (Hin : In "id-1" (registered [Process (Some scenarioA) "id-1";
                                       Process None "id-2"; GetPoints "id-1"]))
    by (simpl; tauto).
  assert (Hnot : ~ In "id-2" (registered [Process (Some scenarioA) "id-1";
                                          Process None "id-2";
                                          GetPoints "id-1"])).
  { simpl. intros [H|[]]. discriminate H. }
  split; [exact Hin|].
  split; [apply (proj1 (stored_iff_registered _ "id-1")), Hin|].
  split; [exact Hnot|].
  apply (proj2 (stored_iff_registered _ "id-2")), Hnot.
Defined.

(** X6. Nothing is ever removed from the store: a receipt found under
    an identifier stays in the store through all later requests, and is
    the one found afterwards unless a later registration was given the
    same identifier; [getPoints] then answers the same points as
    before. *)
Theorem receipt_stays_registered (rqs : list request)
    (receiptStore : gmap string Receipt) (id : string) (receipt : Receipt) :
  receiptStore !! id = Some receipt ->
  is_Some (run receiptStore rqs !! id)
  /\ (~ In id (registered rqs) ->
      run receiptStore rqs !! id = Some receipt
      /\ snd (getPoints id (run receiptStore rqs))
         = snd (getPoints id receiptStore)).
Proof.
  intros Hst. split.
  - rewrite run_lookup, lastRegistered_is_Some. left. rewrite Hst.
    eexists. reflexivity.
  - intros Hnot.
    assert (H : run receiptStore rqs !! id = Some receipt)
      by (rewrite run_lookup, Hst; apply lastRegistered_unregistered, Hnot).
    split; [exact H|].
    unfold getPoints. rewrite H, Hst.
    destruct (calculatePoints receipt); reflexivity.
Qed.

Lemma receipt_stays_registered_witness :
  let st : gmap string Receipt := {[ "id-1" := scenarioA ]} in
  let rqs := [Process (Some hundred) "id-2"; Process None "id-3";
              GetPoints "id-2"] in
  st !! "id-1" = Some scenarioA
  /\ ~ In "id-1" (registered rqs)
  /\ is_Some (run st rqs !! "id-1")
  /\ run st rqs !! "id-1" = Some scenarioA
  /\ snd (getPoints "id-1" (run st rqs)) = snd (getPoints "id-1" st).
Proof.
  assert (Hst : ({[ "id-1" := scenarioA ]} : gmap string Receipt) !! "id-1"
                = Some scenarioA) by reflexivity.
  assert (Hnot : ~ In "id-1"
                   (registered [Process (Some hundred) "id-2";
                                Process None "id-3"; GetPoints "id-2"])).
  { simpl. intros [H|[]]. discriminate H. }
  destruct (receipt_stays_registered
              [Process (Some hundred) "id-2"; Process None "id-3";
               GetPoints "id-2"]
              {[ "id-1" := scenarioA ]} "id-1" scenarioA Hst) as [Hsome Hsame].
  split; [exact Hst|]. split; [exact Hnot|]. split; [exact Hsome|].
  exact (Hsame Hnot).
Defined.

Lemma run_size rqs : forall (st : gmap string Receipt),
  NoDup (registered rqs) ->
  (forall id, In id (registered rqs) -> st !! id = None) ->
  size (run st rqs) = (size st + length (registered rqs))%nat.
Proof.
  induction rqs as [|rq rqs IH]; intros st Hnd Hfresh.
  - cbn. lia.
  - rewrite run_cons.
    destruct rq as [[receipt|] id'|id']; cbn [handle registered] in *.
    + apply NoDup_cons in Hnd as [Hnot Hnd].
      cbn [processReceipt fst]. rewrite IH.
      * rewrite map_size_insert_None by (apply Hfresh; left; reflexivity).
        cbn [length]. lia.
      * exact Hnd.
      * intros id Hin. rewrite lookup_insert_ne.
        -- apply Hfresh. right. exact Hin.
        -- intros ->. apply Hnot. apply list_elem_of_In. exact Hin.
    + cbn [processReceipt fst]. apply IH; assumption.
    + rewrite getPoints_store. apply IH; assumption.
Qed.

Lemma run_size_le rqs : forall (st : gmap string Receipt),
  (size (run st rqs) <= size st + length (registered rqs))%nat.
Proof.
  induction rqs as [|rq rqs IH]; intros st.
  - cbn. lia.
  - rewrite run_cons.
    destruct rq as [[receipt|] id'|id']; cbn [handle registered].
    + cbn [processReceipt fst]. etransitivity; [apply IH|].
      pose proof (map_size_insert id' receipt st) as Hs.
      destruct (st !! id'); cbv beta iota delta [id] in Hs; cbn [length]; lia.
    + cbn [processReceipt fst]. apply IH.
    + rewrite getPoints_store. apply IH.
Qed.

(** X7. No registration is lost while the generated identifiers are
    pairwise distinct: the store then holds as many receipts as there
    were successful registrations. It never holds more. *)
Theorem store_size (rqs : list request) :
  (size (run ∅ rqs) <= length (registered rqs))%nat
  /\ (NoDup (registered rqs) ->
      size (run ∅ rqs) = length (registered rqs)).
Proof.
  split.
  - pose proof (run_size_le rqs ∅) as H. rewrite map_size_empty in H. exact H.
  - intros Hnd. rewrite run_size; [rewrite map_size_empty; reflexivity
                                 | exact Hnd |].
    intros id _. apply lookup_empty.
Qed.

Lemma store_size_witness :
  let rqs := [Process (Some scenarioA) "id-1"; Process None "id-2";
              Process (Some hundred) "id-3"; GetPoints "id-1"] in
  NoDup (registered rqs)
  /\ size (run ∅ rqs) = length (registered rqs).
Proof.
  assert (Hnd : NoDup (registered
                         [Process (Some scenarioA) "id-1"; Process None "id-2";
                          Process (Some hundred) "id-3"; GetPoints "id-1"])).
  { simpl. refine (bool_decide_unpack (NoDup _) _). vm_compute. exact I. }
  split; [exact Hnd|].
  apply (proj2 (store_size
                  [Process (Some scenarioA) "id-1"; Process None "id-2";
                   Process (Some hundred) "id-3"; GetPoints "id-1"]) Hnd).
Defined.

(** ** Digits *)

Lemma digitValue_range c : isDigit c = true -> 0 <= digitValue c <= 9.
Proof.
  unfold isDigit, digitValue. rewrite andb_true_iff, !Z.leb_le. lia.
Qed.

Lemma digitValue_inj c c' :
  isDigit c = true -> isDigit c' = true ->
  digitValue c = digitValue c' -> c = c'.
Proof.
  intros _ _ H. unfold digitValue, byte_code in H.
  assert (E : N_of_ascii c = N_of_ascii c') by lia.
  rewrite <- (ascii_N_embedding c), <- (ascii_N_embedding c'), E. reflexivity.
Qed.

Lemma digitsValue_mono s : forall acc, 0 <= acc ->
  allDigits s = true -> acc <= digitsValue s acc.
Proof.
  induction s as [|c s IH]; intros acc Hacc H; cbn [digitsValue]; [lia|].
  cbn [allDigits] in H. apply andb_true_iff in H as [Hc Hs].
  pose proof (digitValue_range c Hc).
  etransitivity; [|apply IH; [lia | exact Hs]]. lia.
Qed.

Lemma digitsValue_bound s : forall acc, 0 <= acc ->
  allDigits s = true -> digitsValue s acc < (acc + 1) * 10 ^ len s.
Proof.
  unfold len.
  induction s as [|c s IH]; intros acc Hacc H; cbn [digitsValue].
  - cbn. lia.
  - cbn [allDigits] in H. apply andb_true_iff in H as [Hc Hs].
    pose proof (digitValue_range c Hc).
    cbn [String.length]. rewrite Nat2Z.inj_succ, Z.pow_succ_r by lia.
    eapply Z.lt_le_trans; [apply IH; [lia | exact Hs]|].
    pose proof (Z.pow_pos_nonneg 10 (Z.of_nat (String.length s))
                  ltac:(lia) ltac:(lia)).
    nia.
Qed.

Lemma digitsValue_app s t : forall acc,
  digitsValue (s ++ t) acc = digitsValue t (digitsValue s acc).
Proof.
  induction s as [|c s IH]; intros acc; [reflexivity|].
  rewrite append_cons. cbn [digitsValue]. apply IH.
Qed.

Lemma allDigits_app s t :
  allDigits (s ++ t) = allDigits s && allDigits t.
Proof.
  induction s as [|c s IH]; [reflexivity|].
  rewrite append_cons. cbn [allDigits]. rewrite IH, andb_assoc. reflexivity.
Qed.

(** ** [Atoi] on a text of digits *)

Lemma atoiDigits_digits s : forall n,
  allDigits s = true ->
  strconv.atoiDigits s n = Some (digitsValue s n).
Proof.
  induction s as [|c s IH]; intros n H; [reflexivity|].
  cbn [allDigits] in H. apply andb_true_iff in H as [Hc Hs].
  pose proof (digitValue_range c Hc) as Hr.
  cbn [strconv.atoiDigits digitsValue]. fold (digitValue c).
  rewrite Z.mod_small by lia.
  replace (9 <? digitValue c) with false by (symmetry; apply Z.ltb_ge; lia).
  apply IH, Hs.
Qed.

Lemma parseUintLoop_digits s : forall n,
  allDigits s = true -> 0 <= n <= maxUint64 ->
  strconv.parseUintLoop s n
  = if digitsValue s n <=? maxUint64 then (digitsValue s n, None)
    else (maxUint64, Some ErrRange).
Proof.
  induction s as [|c s IH]; intros n H Hn.
  - cbn [strconv.parseUintLoop digitsValue].
    replace (n <=? maxUint64) with true by (symmetry; apply Z.leb_le; lia).
    reflexivity.
  - cbn [allDigits] in H. apply andb_true_iff in H as [Hc Hs].
    pose proof (digitValue_range c Hc) as Hr.
    cbn [strconv.parseUintLoop digitsValue]. rewrite Hc.
    fold (digitValue c).
    pose proof (digitsValue_mono s (n * 10 + digitValue c) ltac:(lia) Hs)
      as Hmono.
    unfold maxUint64 in *.
    change (2 ^ 64 - 1) with 18446744073709551615 in *.
    change (18446744073709551615 / 10 + 1) with 1844674407370955162.
    destruct (Z.leb_spec 1844674407370955162 n) as [Hcut|Hcut].
    + replace (digitsValue s (n * 10 + digitValue c) <=? 18446744073709551615)
        with false by (symmetry; apply Z.leb_gt; lia).
      reflexivity.
    + destruct (Z.ltb_spec 18446744073709551615 (n * 10 + digitValue c))
        as [Hov|Hov].
      * replace (digitsValue s (n * 10 + digitValue c)
                 <=? 18446744073709551615)
          with false by (symmetry; apply Z.leb_gt; lia).
        reflexivity.
      * apply IH; [exact Hs | lia].
Qed.

(** A text of digits is read by [Atoi] as the number it denotes, up to
    the largest [int]; beyond it the result is the largest [int], with
    a range error. *)
Lemma Atoi_digits s :
  allDigits s = true -> s <> EmptyString ->
  strconv.Atoi s
  = if digitsValue s 0 <? 2 ^ 63 then (digitsValue s 0, None)
    else (maxInt64, Some ErrRange).
Proof.
  intros H Hne. destruct s as [|c0 s']; [contradiction|].
  pose proof H as H'. cbn [allDigits] in H'.
  apply andb_true_iff in H' as [Hc0 Hs'].
  destruct (digit_char_facts c0 Hc0)
    as (_ & _ & Eplus & Eminus & _ & _ & _ & _ & _ & Hv0 & _).
  unfold strconv.Atoi.
  destruct ((0 <? len (String c0 s')) && (len (String c0 s') <? 19)) eqn:Efast.
  - rewrite Eminus, Eplus. cbn [orb andb].
    rewrite (atoiDigits_digits _ 0 H).
    apply andb_true_iff in Efast as [_ Hlen]. apply Z.ltb_lt in Hlen.
    pose proof (digitsValue_bound _ 0 ltac:(lia) H) as Hb.
    assert (10 ^ len (String c0 s') <= 10 ^ 18)
      by (apply Z.pow_le_mono_r; unfold len in *; lia).
    replace (digitsValue (String c0 s') 0 <? 2 ^ 63) with true
      by (symmetry; apply Z.ltb_lt; lia).
    reflexivity.
  - unfold strconv.ParseInt. rewrite Eminus, Eplus. cbn [orb andb negb].
    unfold strconv.ParseUint.
    rewrite (parseUintLoop_digits _ 0 H) by (unfold maxUint64; lia).
    pose proof (digitsValue_mono _ 0 ltac:(lia) H) as Hpos.
    unfold maxUint64, maxInt64.
    destruct (Z.leb_spec (digitsValue (String c0 s') 0) (2 ^ 64 - 1)) as [Hle|Hgt].
    + destruct (Z.leb_spec (2 ^ 63) (digitsValue (String c0 s') 0)),
        (Z.ltb_spec (digitsValue (String c0 s') 0) (2 ^ 63));
        try lia; reflexivity.
    + destruct (Z.leb_spec (2 ^ 63) (2 ^ 64 - 1)),
        (Z.ltb_spec (digitsValue (String c0 s') 0) (2 ^ 63));
        try lia; reflexivity.
Qed.

(** ** Amounts of money *)

Lemma string_app_assoc s1 s2 s3 : (s1 ++ s2) ++ s3 = s1 ++ (s2 ++ s3).
Proof.
  induction s1 as [|c s1 IH]; [reflexivity|].
  rewrite !append_cons, IH. reflexivity.
Qed.

Lemma ReplaceAll_app s t old new :
  gostrings.ReplaceAll (s ++ t) old new
  = gostrings.ReplaceAll s old new ++ gostrings.ReplaceAll t old new.
Proof.
  induction s as [|c s IH]; [reflexivity|].
  rewrite append_cons. cbn [gostrings.ReplaceAll]. rewrite IH.
  destruct (Ascii.eqb c old).
  - symmetry. apply string_app_assoc.
  - reflexivity.
Qed.

Lemma isDigit_not_dot c : isDigit c = true -> Ascii.eqb c "." = false.
Proof.
  intros H. destruct (digit_char_facts c H) as (_ & E & _). exact E.
Qed.

Lemma ReplaceAll_digits s :
  allDigits s = true -> gostrings.ReplaceAll s "." "" = s.
Proof.
  induction s as [|c s IH]; intros H; [reflexivity|].
  cbn [allDigits] in H. apply andb_true_iff in H as [Hc Hs].
  cbn [gostrings.ReplaceAll]. rewrite (isDigit_not_dot c Hc), (IH Hs).
  reflexivity.
Qed.

(** A monetary amount is a text of digits, a point and two digits;
    its amount in cents is the number that the digits denote. *)
Lemma moneyCents_shape s : forall acc seen c,
  moneyCents s acc seen = Some c ->
  exists whole d1 d2,
    s = whole ++ String "." (String d1 (String d2 EmptyString))
    /\ allDigits whole = true /\ isDigit d1 = true /\ isDigit d2 = true
    /\ (seen = true \/ whole <> EmptyString)
    /\ c = digitsValue whole acc * 100 + digitValue d1 * 10 + digitValue d2.
Proof.
  induction s as [|ch s IH]; intros acc seen c H; [discriminate H|].
  cbn [moneyCents] in H.
  destruct (isDigit ch) eqn:Hd.
  - destruct (IH _ _ _ H) as (whole & d1 & d2 & -> & Hw & H1 & H2 & _ & Hc).
    exists (String ch whole), d1, d2.
    split; [reflexivity|]. split; [cbn [allDigits]; rewrite Hd, Hw; reflexivity|].
    split; [exact H1|]. split; [exact H2|]. split; [right; discriminate|].
    exact Hc.
  - destruct (Ascii.eqb_spec ch ".") as [->|Hne]; [|discriminate H].
    destruct seen; [|discriminate H]. cbn [andb] in H.
    destruct s as [|d1 [|d2 [|? ?]]]; try discriminate H.
    destruct (isDigit d1) eqn:H1; [|discriminate H].
    destruct (isDigit d2) eqn:H2; [|discriminate H].
    cbn [andb] in H. injection H as <-.
    exists EmptyString, d1, d2. repeat split; try assumption. left. reflexivity.
Qed.

Lemma cents_shape s c :
  cents s = Some c ->
  exists whole d1 d2,
    s = whole ++ String "." (String d1 (String d2 EmptyString))
    /\ allDigits whole = true /\ isDigit d1 = true /\ isDigit d2 = true
    /\ whole <> EmptyString
    /\ c = digitsValue whole 0 * 100 + digitValue d1 * 10 + digitValue d2.
Proof.
  intros H. destruct (moneyCents_shape _ _ _ _ H)
    as (whole & d1 & d2 & Hs & Hw & H1 & H2 & Hseen & Hc).
  exists whole, d1, d2. repeat split; try assumption.
  destruct Hseen as [Hseen|Hseen]; [discriminate Hseen | exact Hseen].
Qed.

Lemma HasSuffix_app pre suffix suffix' :
  String.length suffix = String.length suffix' ->
  gostrings.HasSuffix (pre ++ suffix) suffix' = String.eqb suffix suffix'.
Proof.
  intros Hlen. unfold gostrings.HasSuffix.
  rewrite string_length_app, <- Hlen.
  replace (String.length pre + String.length suffix - String.length suffix)%nat
    with (String.length pre) by lia.
  rewrite substring_after.
  replace (String.length suffix <=? String.length pre + String.length suffix)%nat
    with true by (symmetry; apply Nat.leb_le; lia).
  reflexivity.
Qed.

Lemma digit_zero c : isDigit c = true -> Ascii.eqb c "0" = (digitValue c =? 0).
Proof.
  intros H.
  destruct (digit_char_facts c H) as (_ & _ & _ & _ & _ & _ & _ & _ & _ & _ & E).
  exact E.
Qed.

Lemma roundDollarPoints_money receipt c :
  cents (Total receipt) = Some c ->
  roundDollarPoints receipt = (if c mod 100 =? 0 then 50 else 0).
Proof.
  intros H. destruct (cents_shape _ _ H)
    as (whole & d1 & d2 & Hs & Hw & H1 & H2 & _ & ->).
  unfold roundDollarPoints. rewrite Hs.
  rewrite HasSuffix_app by reflexivity.
  pose proof (digitValue_range d1 H1). pose proof (digitValue_range d2 H2).
  cbn [String.eqb]. rewrite Ascii.eqb_refl.
  rewrite (digit_zero d1 H1), (digit_zero d2 H2).
  replace ((digitsValue whole 0 * 100 + digitValue d1 * 10 + digitValue d2)
           mod 100)
    with (digitValue d1 * 10 + digitValue d2).
  2:{ apply Z.mod_unique with (q := digitsValue whole 0); lia. }
  destruct (Z.eqb_spec (digitValue d1) 0), (Z.eqb_spec (digitValue d2) 0),
    (Z.eqb_spec (digitValue d1 * 10 + digitValue d2) 0);
    try reflexivity; lia.
Qed.

(** X8. The round-dollar rule on a total of the data model: 50 points
    exactly when the amount is a whole number of dollars, that is when
    its amount in cents is a multiple of 100, and nothing otherwise. *)
Theorem round_dollar_rule_on_money receipt c :
  cents (Total receipt) = Some c ->
  (roundDollarPoints receipt = 50 <-> c mod 100 = 0)
  /\ (roundDollarPoints receipt = 0 <-> c mod 100 <> 0).
Proof.
  intros H. rewrite (roundDollarPoints_money receipt c H).
  destruct (Z.eqb_spec (c mod 100) 0) as [E|E]; split; split;
    intros; try reflexivity; try assumption; try discriminate; contradiction.
Qed.

Lemma round_dollar_rule_on_money_witness :
  cents (Total hundred) = Some 10000
  /\ (roundDollarPoints hundred = 50 <-> 10000 mod 100 = 0)
  /\ (roundDollarPoints hundred = 0 <-> 10000 mod 100 <> 0).
Proof.
  split; [reflexivity|].
  apply (round_dollar_rule_on_money hundred 10000). reflexivity.
Defined.

Lemma money_without_point s c :
  cents s = Some c ->
  let digits := gostrings.ReplaceAll s "." "" in
  allDigits digits = true /\ digits <> EmptyString /\ digitsValue digits 0 = c.
Proof.
  intros H. destruct (cents_shape _ _ H)
    as (whole & d1 & d2 & -> & Hw & H1 & H2 & Hne & ->).
  cbv zeta. rewrite ReplaceAll_app, (ReplaceAll_digits _ Hw).
  cbn [gostrings.ReplaceAll]. rewrite Ascii.eqb_refl.
  rewrite (isDigit_not_dot d1 H1), (isDigit_not_dot d2 H2).
  rewrite append_nil.
  split; [|split].
  - rewrite allDigits_app, Hw. cbn [allDigits]. rewrite H1, H2. reflexivity.
  - destruct whole; [contradiction | discriminate].
  - rewrite digitsValue_app. cbn [digitsValue]. lia.
Qed.

Lemma Atoi_money s c :
  cents s = Some c ->
  strconv.Atoi (gostrings.ReplaceAll s "." "")
  = (if c <? 2 ^ 63 then (c, None) else (maxInt64, Some ErrRange)).
Proof.
  intros H. destruct (money_without_point _ _ H) as (Hd & Hne & Hv).
  rewrite (Atoi_digits _ Hd Hne), Hv. reflexivity.
Qed.

Lemma quarterPoints_money receipt c :
  cents (Total receipt) = Some c ->
  quarterPoints receipt
  = (if (c <? 2 ^ 63) && (c mod 25 =? 0) then 25 else 0).
Proof.
  intros H. pose proof (cents_nonneg _ _ H) as Hpos.
  unfold quarterPoints, totalInCents. rewrite (Atoi_money _ _ H).
  destruct (c <? 2 ^ 63); cbn [fst andb]; [|reflexivity].
  rewrite Z.rem_mod_nonneg by lia. reflexivity.
Qed.

(** X9. The quarter rule on a total of the data model. Below [2^63]
    cents the total is read in cents without error, and the rule gives
    25 points exactly when the amount is a multiple of 0.25. From
    [2^63] cents on, [Atoi] reports a range error that the code drops,
    the largest [int] stands for the total, and the rule gives nothing,
    multiple of 0.25 or not. *)
Theorem quarter_rule_on_money receipt c :
  cents (Total receipt) = Some c ->
  (c < 2 ^ 63 ->
   strconv.Atoi (gostrings.ReplaceAll (Total receipt) "." "") = (c, None)
   /\ totalInCents receipt = c
   /\ (quarterPoints receipt = 25 <-> c mod 25 = 0)
   /\ (quarterPoints receipt = 0 <-> c mod 25 <> 0))
  /\ (2 ^ 63 <= c ->
      strconv.Atoi (gostrings.ReplaceAll (Total receipt) "." "")
      = (maxInt64, Some ErrRange)
      /\ totalInCents receipt = maxInt64
      /\ quarterPoints receipt = 0).
Proof.
  intros H.
  pose proof (Atoi_money _ _ H) as HA.
  pose proof (quarterPoints_money _ _ H) as HQ.
  unfold totalInCents. rewrite HA, HQ.
  split; intros Hc.
  - replace (c <? 2 ^ 63) with true by (symmetry; apply Z.ltb_lt, Hc).
    cbn [fst andb]. split; [reflexivity|]. split; [reflexivity|].
    destruct (Z.eqb_spec (c mod 25) 0) as [E|E]; split; split;
      intros; try reflexivity; try assumption; try discriminate; contradiction.
  - replace (c <? 2 ^ 63) with false by (symmetry; apply Z.ltb_ge, Hc).
    cbn [fst andb]. repeat split.
Qed.

Lemma quarter_rule_on_money_witness :
  (cents (Total scenarioA) = Some 125 /\ 125 < 2 ^ 63
   /\ totalInCents scenarioA = 125
   /\ (quarterPoints scenarioA = 25 <-> 125 mod 25 = 0))
  /\ (cents (Total overflowing) = Some 8000000000000000000000
      /\ 2 ^ 63 <= 8000000000000000000000
      /\ totalInCents overflowing = maxInt64
      /\ quarterPoints overflowing = 0).
Proof.
  assert (Hlt : 125 < 2 ^ 63) by lia.
  assert (Hge : 2 ^ 63 <= 8000000000000000000000) by lia.
  destruct (proj1 (quarter_rule_on_money scenarioA 125 eq_refl) Hlt)
    as (_ & Hcents & Hiff & _).
  destruct (proj2 (quarter_rule_on_money overflowing 8000000000000000000000
                     eq_refl) Hge) as (_ & Hmax & Hzero).
  split.
  - split; [reflexivity|]. split; [exact Hlt|]. split; [exact Hcents|].
    exact Hiff.
  - split; [reflexivity|]. split; [exact Hge|]. split; [exact Hmax|].
    exact Hzero.
Defined.

(** ** A whole number of dollars is a multiple of a quarter *)

Lemma atoiDigits_00 s : forall n v,
  strconv.atoiDigits (s ++ "00") n = Some v -> v mod 100 = 0.
Proof.
  induction s as [|c s IH]; intros n v H.
  - rewrite append_nil in H. cbn [strconv.atoiDigits] in H.
    change ((byte_code "0" - 48) mod 256) with 0 in H.
    change (9 <? 0) with false in H. cbv iota in H.
    injection H as <-.
    replace ((n * 10 + 0) * 10 + 0) with (n * 100) by lia.
    apply Z.mod_mul. lia.
  - rewrite append_cons in H. cbn [strconv.atoiDigits] in H.
    destruct (9 <? _); [discriminate H|]. exact (IH _ _ H).
Qed.

Lemma parseUintLoop_00 s : forall n v,
  strconv.parseUintLoop (s ++ "00") n = (v, None) -> v mod 100 = 0.
Proof.
  induction s as [|c s IH]; intros n v H.
  - rewrite append_nil in H.
    cbn [strconv.parseUintLoop] in H.
    change (isDigit "0") with true in H. cbv iota in H.
    change (byte_code "0" - 48) with 0 in H.
    repeat match type of H with
    | (if ?b then _ else _) = _ => destruct b; [discriminate H|]
    end.
    injection H as <-.
    replace ((n * 10 + 0) * 10 + 0) with (n * 100) by lia.
    apply Z.mod_mul. lia.
  - rewrite append_cons in H. cbn [strconv.parseUintLoop] in H.
    destruct (isDigit c); [|discriminate H].
    repeat match type of H with
    | (if ?b then _ else _) = _ => destruct b; [discriminate H|]
    end.
    exact (IH _ _ H).
Qed.

Lemma parseUintLoop_range s : forall n v,
  strconv.parseUintLoop s n = (v, Some ErrRange) -> v = maxUint64.
Proof.
  induction s as [|c s IH]; intros n v H; [discriminate H|].
  cbn [strconv.parseUintLoop] in H.
  destruct (isDigit c); [|discriminate H].
  repeat match type of H with
  | (if ?b then _ else _) = _ => destruct b; [congruence|]
  end.
  exact (IH _ _ H).
Qed.

Lemma ParseUint_range s v :
  strconv.ParseUint s = (v, Some ErrRange) -> v = maxUint64.
Proof.
  unfold strconv.ParseUint. destruct s; [discriminate|].
  apply parseUintLoop_range.
Qed.

Lemma rem_25_of_100 v : v mod 100 = 0 -> Z.rem v 25 = 0 /\ Z.rem (- v) 25 = 0.
Proof.
  intros H. apply Z.mod_divide in H; [|lia]. destruct H as [k ->]. split.
  - replace (k * 100) with (k * 4 * 25) by lia. apply Z.rem_mul. lia.
  - replace (- (k * 100)) with (- k * 4 * 25) by lia. apply Z.rem_mul. lia.
Qed.

(** [Atoi] on a text that ends in two zeros: a multiple of 100, unless
    it reports an error. *)
Lemma Atoi_00 s v :
  strconv.Atoi (s ++ "00") = (v, None) -> Z.rem v 25 = 0.
Proof.
  unfold strconv.Atoi.
  destruct ((0 <? len (s ++ "00")) && (len (s ++ "00") <? 19)).
  - destruct s as [|c0 s'].
    + rewrite append_nil. vm_compute. intros H. injection H as <-. reflexivity.
    + rewrite append_cons.
      destruct (Ascii.eqb c0 "-" || Ascii.eqb c0 "+"); cbn [andb].
      * destruct (len (s' ++ "00") <? 1); [discriminate|].
        destruct (strconv.atoiDigits (s' ++ "00") 0) as [n|] eqn:E;
          [|discriminate].
        intros H. injection H as <-.
        apply atoiDigits_00 in E. apply rem_25_of_100 in E.
        destruct (Ascii.eqb c0 "-"); tauto.
      * rewrite <- append_cons.
        destruct (strconv.atoiDigits (String c0 s' ++ "00") 0) as [n|] eqn:E;
          [|discriminate].
        intros H. injection H as <-.
        apply atoiDigits_00 in E. apply rem_25_of_100 in E.
        destruct (Ascii.eqb c0 "-"); tauto.
  - unfold strconv.ParseInt.
    destruct s as [|c0 s'].
    + rewrite append_nil. vm_compute. intros H. injection H as <-. reflexivity.
    + rewrite append_cons.
      assert (Hun : forall x un,
                strconv.ParseUint (x ++ "00") = (un, None) -> un mod 100 = 0).
      { intros x un. unfold strconv.ParseUint.
        destruct (x ++ "00") eqn:Ex.
        - discriminate.
        - rewrite <- Ex. apply parseUintLoop_00. }
      destruct (Ascii.eqb c0 "+" || Ascii.eqb c0 "-").
      * destruct (strconv.ParseUint (s' ++ "00")) as [un [[]|]] eqn:E;
          try discriminate.
        -- apply ParseUint_range in E. subst un.
           destruct (Ascii.eqb c0 "-"); vm_compute; discriminate.
        -- apply Hun in E. apply rem_25_of_100 in E.
           destruct (negb (Ascii.eqb c0 "-") && _); [discriminate|].
           destruct (Ascii.eqb c0 "-" && _); [discriminate|].
           intros H. injection H as <-.
           destruct (Ascii.eqb c0 "-"); tauto.
      * rewrite <- append_cons.
        destruct (strconv.ParseUint (String c0 s' ++ "00")) as [un [[]|]] eqn:E;
          try discriminate.
        -- apply ParseUint_range in E. subst un.
           destruct (Ascii.eqb c0 "-"); vm_compute; discriminate.
        -- apply Hun in E. apply rem_25_of_100 in E.
           destruct (negb (Ascii.eqb c0 "-") && _); [discriminate|].
           destruct (Ascii.eqb c0 "-" && _); [discriminate|].
           intros H. injection H as <-.
           destruct (Ascii.eqb c0 "-"); tauto.
Qed.

(** X10. Whatever the total holds, a total that earns the 50 points of
    the round-dollar rule earns the 25 points of the quarter rule as
    well, unless its digits are too many for an [int] ([Atoi] reports a
    range error). *)
Theorem round_dollar_earns_quarter receipt :
  roundDollarPoints receipt = 50 ->
  snd (strconv.Atoi (gostrings.ReplaceAll (Total receipt) "." ""))
  <> Some ErrRange ->
  quarterPoints receipt = 25
  /\ roundDollarPoints receipt + quarterPoints receipt = 75.
Proof.
  intros H50 Hrange.
  assert (H25 : quarterPoints receipt = 25); [|rewrite H50, H25; tauto].
  unfold roundDollarPoints in H50.
  destruct (gostrings.HasSuffix (Total receipt) ".00") eqn:Hsuf;
    [|discriminate H50].
  apply HasSuffix_spec in Hsuf as [pre Hpre].
  destruct (strconv.Atoi (gostrings.ReplaceAll (Total receipt) "." ""))
    as [v [[]|]] eqn:E; cbn [snd] in Hrange.
  - apply quarter_rule_on_malformed_total. rewrite E. reflexivity.
  - contradiction Hrange. reflexivity.
  - unfold quarterPoints, totalInCents. rewrite E. cbn [fst].
    rewrite Hpre, ReplaceAll_app in E.
    change (gostrings.ReplaceAll ".00" "." "") with "00" in E.
    rewrite (Atoi_00 _ _ E). reflexivity.
Qed.

Lemma round_dollar_earns_quarter_witness :
  roundDollarPoints malformedTotal = 50
  /\ snd (strconv.Atoi (gostrings.ReplaceAll (Total malformedTotal) "." ""))
     <> Some ErrRange
  /\ quarterPoints malformedTotal = 25
  /\ roundDollarPoints malformedTotal + quarterPoints malformedTotal = 75.
Proof.
  assert (Hrange : snd (strconv.Atoi
                          (gostrings.ReplaceAll (Total malformedTotal) "." ""))
                   <> Some ErrRange) by (vm_compute; discriminate).
  split; [reflexivity|]. split; [exact Hrange|].
  apply (round_dollar_earns_quarter malformedTotal); [reflexivity | exact Hrange].
Defined.

(** ** The retailer rule *)

Lemma FindAllString_app a b :
  regexp.FindAllString (a ++ b)
  = (regexp.FindAllString a ++ regexp.FindAllString b)%list.
Proof.
  induction a as [|c a IH]; [reflexivity|].
  rewrite append_cons. cbn [regexp.FindAllString]. rewrite IH.
  destruct (regexp.alnum c); reflexivity.
Qed.

Lemma alnumCount_full s :
  alnumCount s = len s <-> allAlnum s = true.
Proof.
  unfold alnumCount, len.
  induction s as [|c s IH]; [cbn; tauto|].
  pose proof (FindAllString_length s) as Hle.
  cbn [regexp.FindAllString allAlnum String.length].
  destruct (regexp.alnum c); cbn [length andb].
  - rewrite <- IH. lia.
  - split; [lia | discriminate].
Qed.

Lemma alnum_ascii c : regexp.alnum c = true -> byte_code c < 128.
Proof.
  unfold regexp.alnum. rewrite !orb_true_iff, !andb_true_iff, !Z.leb_le. lia.
Qed.

(** X11. The retailer rule counts the bytes of the name that are ASCII
    letters or digits: its points lie between 0 and the length of the
    name in bytes, reach that length exactly when every byte is such a
    character, add up over the parts of a name, and take no byte from
    128 on into account (the bytes of an accented letter, say). *)
Theorem retailer_rule_counts_alnum receipt :
  retailerPoints receipt = alnumCount (Retailer receipt)
  /\ 0 <= retailerPoints receipt <= len (Retailer receipt)
  /\ (retailerPoints receipt = len (Retailer receipt)
      <-> allAlnum (Retailer receipt) = true)
  /\ (forall a b, alnumCount (a ++ b) = alnumCount a + alnumCount b)
  /\ (forall c s, 128 <= byte_code c -> alnumCount (String c s) = alnumCount s).
Proof.
  split; [reflexivity|]. split; [|split; [|split]].
  - unfold retailerPoints, len.
    pose proof (FindAllString_length (Retailer receipt)). lia.
  - apply alnumCount_full.
  - intros a b. unfold alnumCount.
    rewrite FindAllString_app, length_app. lia.
  - intros c s Hc. unfold alnumCount. cbn [regexp.FindAllString].
    destruct (regexp.alnum c) eqn:E; [|reflexivity].
    apply alnum_ascii in E. lia.
Qed.

Lemma retailer_rule_counts_alnum_witness :
  allAlnum (Retailer scenarioA) = true
  /\ retailerPoints scenarioA = len (Retailer scenarioA)
  /\ 128 <= byte_code "233"
  /\ alnumCount (String "233" "Target") = alnumCount "Target".
Proof.
  destruct (retailer_rule_counts_alnum scenarioA)
    as (_ & _ & Hfull & _ & Hhigh).
  assert (Hc : 128 <= byte_code "233") by (vm_compute; discriminate).
  split; [reflexivity|]. split; [apply Hfull; reflexivity|].
  split; [exact Hc|]. apply Hhigh, Hc.
Defined.

(** ** The item-count rule *)

Lemma itemCountPoints_small receipt :
  Z.of_nat (length (Items receipt)) < 2 ^ 61 ->
  itemCountPoints receipt = 5 * (Z.of_nat (length (Items receipt)) / 2).
Proof.
  intros Hn. unfold itemCountPoints, mul64.
  rewrite Z.quot_div_nonneg by lia.
  pose proof (Z.div_pos (Z.of_nat (length (Items receipt))) 2
                ltac:(lia) ltac:(lia)).
  assert (Z.of_nat (length (Items receipt)) / 2 < 2 ^ 60)
    by (apply Z.div_lt_upper_bound; lia).
  rewrite wrap64_small by (unfold minInt64, maxInt64; lia). lia.
Qed.

(** X12. The item-count rule gives 5 points for every two items: a
    receipt of [n] items earns [5 * (n / 2)] points, an odd item out
    earning nothing and every further pair 5 points more, as long as
    [n] is below [2^61] (the product cannot overflow an [int] then). *)
Theorem item_count_rule receipt :
  Z.of_nat (length (Items receipt)) < 2 ^ 61 ->
  itemCountPoints receipt = 5 * (Z.of_nat (length (Items receipt)) / 2)
  /\ (forall item item' items,
        Items receipt = item :: item' :: items ->
        itemCountPoints receipt
        = 5 + 5 * (Z.of_nat (length items) / 2)).
Proof.
  intros Hn. pose proof (itemCountPoints_small receipt Hn) as H.
  split; [exact H|].
  intros item item' items E. rewrite H, E. cbn [length].
  rewrite !Nat2Z.inj_succ.
  replace (Z.succ (Z.succ (Z.of_nat (length items))))
    with (Z.of_nat (length items) + 1 * 2) by lia.
  rewrite Z.div_add by lia. lia.
Qed.

Lemma item_count_rule_witness :
  Z.of_nat (length (Items withGift)) < 2 ^ 61
  /\ itemCountPoints withGift = 5 * (Z.of_nat (length (Items withGift)) / 2)
  /\ itemCountPoints withGift = 5 + 5 * (Z.of_nat (length (@nil Item)) / 2).
Proof.
  assert (Hn : Z.of_nat (length (Items withGift)) < 2 ^ 61) by (simpl; lia).
  destruct (item_count_rule withGift Hn) as [H Hpair].
  split; [exact Hn|]. split; [exact H|].
  apply (Hpair gift pizza []). reflexivity.
Defined.

(** ** The day rule *)

Ltac char_is c k :=
  destruct (Ascii.eqb_spec c k) as [->|?];
  [| destruct c as [[] [] [] [] [] [] [] []]; try discriminate; contradiction].

Lemma isDate_shape s :
  isDate s = true ->
  exists y1 y2 y3 y4 m1 m2 d1 d2,
    s = String y1 (String y2 (String y3 (String y4 (String "-"
          (String m1 (String m2 (String "-"
            (String d1 (String d2 EmptyString)))))))))
    /\ isDigit y1 = true /\ isDigit y2 = true /\ isDigit y3 = true
    /\ isDigit y4 = true /\ isDigit m1 = true /\ isDigit m2 = true
    /\ isDigit d1 = true /\ isDigit d2 = true.
Proof.
  intros H.
  destruct s as [|y1 [|y2 [|y3 [|y4 [|c1 [|m1 [|m2 [|c2 [|d1 [|d2 [|? ?]]]]]]]]]]];
    try discriminate H.
  all: try (char_is c1 "-"%char; discriminate H).
  all: try (char_is c1 "-"%char; char_is c2 "-"%char; discriminate H).
  char_is c1 "-"%char. char_is c2 "-"%char. simpl in H.
  rewrite !andb_true_iff in H.
  destruct H as [[[[[[[Hy1 Hy2] Hy3] Hy4] Hm1] Hm2] Hd1] Hd2].
  exists y1, y2, y3, y4, m1, m2, d1, d2. repeat split; assumption.
Qed.

Lemma dayPoints_date s :
  isDate s = true ->
  exists dayText,
    nth_error (gostrings.Split s "-") 2 = Some dayText
    /\ strconv.Atoi dayText = (dayOfMonth s, None)
    /\ 0 <= dayOfMonth s <= 99
    /\ dayPoints dayText = (if Z.odd (dayOfMonth s) then 6 else 0).
Proof.
  intros H.
  destruct (isDate_shape _ H)
    as (y1 & y2 & y3 & y4 & m1 & m2 & d1 & d2 & Hs
        & Hy1 & Hy2 & Hy3 & Hy4 & Hm1 & Hm2 & Hd1 & Hd2).
  rewrite Hs.
  exists (String d1 (String d2 EmptyString)).
  pose proof (digitValue_range d1 Hd1). pose proof (digitValue_range d2 Hd2).
  assert (HA := Atoi_two_digits d1 d2 Hd1 Hd2).
  change (dayOfMonth _) with (digitValue d1 * 10 + digitValue d2).
  split; [|split; [exact HA | split; [lia|]]].
  - cbn [gostrings.Split].
    rewrite (isDigit_not_dash y1 Hy1), (isDigit_not_dash y2 Hy2),
      (isDigit_not_dash y3 Hy3), (isDigit_not_dash y4 Hy4),
      (isDigit_not_dash m1 Hm1), (isDigit_not_dash m2 Hm2),
      (isDigit_not_dash d1 Hd1), (isDigit_not_dash d2 Hd2).
    reflexivity.
  - unfold dayPoints. rewrite HA.
    rewrite Z.rem_mod_nonneg by lia.
    rewrite <- Z.bit0_mod, Z.bit0_odd.
    destruct (Z.odd (digitValue d1 * 10 + digitValue d2)); reflexivity.
Qed.

(** X13. The day rule on a date of the data model ([YYYY-MM-DD]): the
    third field of the date is the day of the month, it is read without
    error, and the rule gives 6 points exactly when the day is odd, and
    nothing when it is even. *)
Theorem odd_day_rule receipt :
  isDate (PurchaseDate receipt) = true ->
  exists dayText,
    nth_error (gostrings.Split (PurchaseDate receipt) "-") 2 = Some dayText
    /\ strconv.Atoi dayText = (dayOfMonth (PurchaseDate receipt), None)
    /\ (dayPoints dayText = 6
        <-> Z.odd (dayOfMonth (PurchaseDate receipt)) = true)
    /\ (dayPoints dayText = 0
        <-> Z.odd (dayOfMonth (PurchaseDate receipt)) = false).
Proof.
  intros H.
  destruct (dayPoints_date _ H) as (dayText & Hday & HA & _ & Hdp).
  exists dayText. split; [exact Hday|]. split; [exact HA|].
  rewrite Hdp.
  destruct (Z.odd (dayOfMonth (PurchaseDate receipt))); split; split;
    intros; try reflexivity; discriminate.
Qed.

Lemma odd_day_rule_witness :
  isDate (PurchaseDate scenarioA) = true
  /\ exists dayText,
       nth_error (gostrings.Split (PurchaseDate scenarioA) "-") 2 = Some dayText
       /\ strconv.Atoi dayText = (dayOfMonth (PurchaseDate scenarioA), None)
       /\ (dayPoints dayText = 6
           <-> Z.odd (dayOfMonth (PurchaseDate scenarioA)) = true)
       /\ (dayPoints dayText = 0
           <-> Z.odd (dayOfMonth (PurchaseDate scenarioA)) = false).
Proof.
  split; [reflexivity|].
  apply (odd_day_rule scenarioA). reflexivity.
Defined.

(** ** The day rule on any date *)

(** No field of a split text holds the separator. *)
Lemma Split_no_sep s sep : forall piece,
  In piece (gostrings.Split s sep) -> countByte sep piece = 0%nat.
Proof.
  induction s as [|c s IH]; intros piece Hin.
  - destruct Hin as [<-|[]]. reflexivity.
  - cbn [gostrings.Split] in Hin.
    destruct (Ascii.eqb c sep) eqn:Ec.
    + destruct Hin as [<-|Hin]; [reflexivity | apply IH, Hin].
    + destruct (gostrings.Split s sep) as [|piece0 rest] eqn:Es.
      * destruct Hin as [<-|[]]. cbn [countByte]. rewrite Ec. reflexivity.
      * destruct Hin as [<-|Hin].
        -- cbn [countByte]. rewrite Ec. apply IH. left. reflexivity.
        -- apply IH. right. exact Hin.
Qed.

Lemma atoiDigits_nonneg s : forall n v,
  0 <= n -> strconv.atoiDigits s n = Some v -> 0 <= v.
Proof.
  induction s as [|c s IH]; intros n v Hn H.
  - injection H as <-. exact Hn.
  - cbn [strconv.atoiDigits] in H.
    destruct (9 <? _); [discriminate H|].
    eapply IH; [|exact H].
    pose proof (Z.mod_pos_bound (byte_code c - 48) 256 ltac:(lia)). lia.
Qed.

Lemma parseUintLoop_nonneg s : forall n,
  0 <= n -> 0 <= fst (strconv.parseUintLoop s n).
Proof.
  induction s as [|c s IH]; intros n Hn; [exact Hn|].
  cbn [strconv.parseUintLoop].
  destruct (isDigit c) eqn:Hc; [|cbn; lia].
  pose proof (digitValue_range c Hc) as Hr. unfold digitValue in Hr.
  repeat match goal with
  | |- context [if ?b then _ else _] => destruct b
  end; try (cbn; unfold maxUint64; lia).
  apply IH. lia.
Qed.

(** [Atoi] gives no negative number for a text without a minus sign. *)
Lemma Atoi_nonneg s :
  countByte "-" s = 0%nat -> 0 <= fst (strconv.Atoi s).
Proof.
  intros Hs. unfold strconv.Atoi.
  destruct s as [|c0 s']; [vm_compute; discriminate|].
  cbn [countByte] in Hs.
  destruct (Ascii.eqb c0 "-") eqn:Eminus; [discriminate Hs|].
  destruct ((0 <? len (String c0 s')) && (len (String c0 s') <? 19)).
  - cbn [orb].
    destruct (Ascii.eqb c0 "+" && _); [cbn; lia|].
    destruct (strconv.atoiDigits _ 0) as [n|] eqn:E; [|cbn; lia].
    cbn [fst]. apply (atoiDigits_nonneg _ 0 n ltac:(lia) E).
  - unfold strconv.ParseInt. rewrite Eminus. cbn [negb andb orb].
    rewrite orb_false_r.
    assert (Hun : forall x, 0 <= fst (strconv.ParseUint x)).
    { intros x. unfold strconv.ParseUint. destruct x; [cbn; lia|].
      apply parseUintLoop_nonneg. lia. }
    match goal with
    | |- context [strconv.ParseUint ?x] =>
        specialize (Hun x); destruct (strconv.ParseUint x) as [un [[]|]]
    end; cbn [fst] in *; try lia.
    all: destruct (2 ^ 63 <=? un); cbn [fst]; lia.
Qed.

Lemma rem_2_odd day : 0 <= day -> (Z.rem day 2 =? 1) = Z.odd day.
Proof.
  intros H. rewrite Z.rem_mod_nonneg by lia.
  rewrite <- Z.bit0_mod, Z.bit0_odd. destruct (Z.odd day); reflexivity.
Qed.

(** X14. The day rule on any purchase date that has a third field,
    whatever the date holds: the field holds no hyphen, so the number
    read from it is never negative, and the test [day%2 == 1] is the
    test for an odd day. The rule gives 6 points exactly when the field
    is a number and the number is odd, and nothing otherwise. *)
Theorem day_rule_any_date receipt dayText :
  nth_error (gostrings.Split (PurchaseDate receipt) "-") 2 = Some dayText ->
  countByte "-" dayText = 0%nat
  /\ 0 <= fst (strconv.Atoi dayText)
  /\ (dayPoints dayText = 6
      <-> snd (strconv.Atoi dayText) = None
          /\ Z.odd (fst (strconv.Atoi dayText)) = true)
  /\ (dayPoints dayText = 0
      <-> ~ (snd (strconv.Atoi dayText) = None
             /\ Z.odd (fst (strconv.Atoi dayText)) = true)).
Proof.
  intros Hday.
  assert (Hfield : countByte "-" dayText = 0%nat).
  { apply (Split_no_sep (PurchaseDate receipt)).
    apply (nth_error_In _ 2), Hday. }
  assert (Hpos : 0 <= fst (strconv.Atoi dayText))
    by (apply Atoi_nonneg, Hfield).
  split; [exact Hfield|]. split; [exact Hpos|].
  unfold dayPoints.
  destruct (strconv.Atoi dayText) as [day [e|]]; cbn [fst snd] in *.
  - split; split.
    + discriminate.
    + intros [H _]. discriminate H.
    + intros _ [H _]. discriminate H.
    + intros _. reflexivity.
  - rewrite (rem_2_odd day Hpos). destruct (Z.odd day); split; split.
    + intros _. split; reflexivity.
    + intros _. reflexivity.
    + discriminate.
    + intros H. contradiction H. split; reflexivity.
    + discriminate.
    + intros [_ H]. discriminate H.
    + intros _ [_ H]. discriminate H.
    + intros _. reflexivity.
Qed.

Lemma day_rule_any_date_witness :
  nth_error (gostrings.Split (PurchaseDate scenarioA) "-") 2 = Some "01"
  /\ countByte "-" "01" = 0%nat
  /\ 0 <= fst (strconv.Atoi "01")
  /\ (snd (strconv.Atoi "01") = None /\ Z.odd (fst (strconv.Atoi "01")) = true)
  /\ dayPoints "01" = 6.
Proof.
  assert (Hday : nth_error (gostrings.Split (PurchaseDate scenarioA) "-") 2
                 = Some "01") by reflexivity.
  assert (Hodd : snd (strconv.Atoi "01") = None
                 /\ Z.odd (fst (strconv.Atoi "01")) = true)
    by (split; reflexivity).
  destruct (day_rule_any_date scenarioA "01" Hday)
    as (Hfield & Hpos & Hsix & _).
  split; [exact Hday|]. split; [exact Hfield|]. split; [exact Hpos|].
  split; [exact Hodd|].
  apply Hsix, Hodd.
Defined.

(** ** The time rule *)

Lemma getnum_inv s fixed n rest :
  gotime.getnum s fixed = Some (n, rest) ->
  (exists c0 c1, s = String c0 (String c1 rest)
     /\ isDigit c0 = true /\ isDigit c1 = true
     /\ n = digitValue c0 * 10 + digitValue c1)
  \/ (fixed = false
      /\ exists c0, s = String c0 rest /\ isDigit c0 = true
           /\ n = digitValue c0
           /\ match rest with
              | EmptyString => True
              | String c1 _ => isDigit c1 = false
              end).
Proof.
  unfold gotime.getnum. destruct s as [|c0 s1]; [discriminate|].
  destruct (isDigit c0) eqn:H0; [|discriminate]. cbn [negb].
  destruct s1 as [|c1 s2].
  - destruct fixed; [discriminate|]. intros H. injection H as <- <-.
    right. split; [reflexivity|]. exists c0. repeat split. exact H0.
  - destruct (isDigit c1) eqn:H1.
    + intros H. injection H as <- <-. left. exists c0, c1. repeat split; assumption.
    + destruct fixed; [discriminate|]. intros H. injection H as <- <-.
      right. split; [reflexivity|]. exists c0. repeat split; assumption.
Qed.

(** The texts that [Parse] accepts: an hour of one or two digits, a
    colon and a minute of two digits. *)
Lemma Parse_inv value t :
  gotime.Parse value = Some t ->
  exists hour m1 m2,
    value = hour ++ String ":" (String m1 (String m2 EmptyString))
    /\ isDigit m1 = true /\ isDigit m2 = true
    /\ gotime.Minute t = digitValue m1 * 10 + digitValue m2
    /\ gotime.Minute t < 60
    /\ ((exists h1 h2, hour = String h1 (String h2 EmptyString)
           /\ isDigit h1 = true /\ isDigit h2 = true
           /\ gotime.Hour t = digitValue h1 * 10 + digitValue h2)
        \/ (exists h, hour = String h EmptyString /\ isDigit h = true
              /\ gotime.Hour t = digitValue h)).
Proof.
  unfold gotime.Parse. intros H.
  destruct (gotime.getnum value false) as [[hour v]|] eqn:Eh; [|discriminate].
  destruct ((hour <? 0) || (24 <=? hour)); [discriminate|].
  destruct v as [|c v]; [discriminate|].
  char_is c ":"%char.
  destruct (gotime.getnum v true) as [[min v']|] eqn:Em; [|discriminate].
  destruct ((min <? 0) || (60 <=? min)) eqn:Hm; [discriminate|].
  destruct v'; [|discriminate].
  injection H as <-. cbn [gotime.Hour gotime.Minute].
  apply orb_false_iff in Hm as [_ Hm]. apply Z.leb_gt in Hm.
  apply getnum_inv in Em as [(m1 & m2 & -> & Hm1 & Hm2 & ->)|[Hf _]];
    [|discriminate Hf].
  apply getnum_inv in Eh as [(h1 & h2 & -> & Hh1 & Hh2 & ->)
                            |(_ & h & -> & Hh & -> & _)].
  - exists (String h1 (String h2 EmptyString)), m1, m2.
    repeat split; try assumption. left. exists h1, h2. repeat split; assumption.
  - exists (String h EmptyString), m1, m2.
    repeat split; try assumption. right. exists h. repeat split; assumption.
Qed.

Lemma digit_of_value c k :
  isDigit c = true -> digitValue c = k ->
  c = ascii_of_N (Z.to_N (k + 48)).
Proof.
  intros _ <-. unfold digitValue, byte_code.
  replace (Z.of_N (N_of_ascii c) - 48 + 48) with (Z.of_N (N_of_ascii c)) by lia.
  rewrite N2Z.id. symmetry. apply ascii_N_embedding.
Qed.

Lemma afternoonText_Parse s :
  afternoonText s = true ->
  exists t, gotime.Parse s = Some t
    /\ (((gotime.Hour t =? 14) && (0 <? gotime.Minute t))
        || (gotime.Hour t =? 15)) = true.
Proof.
  unfold afternoonText. intros H.
  destruct s as [|h1 [|h2 [|c [|m1 [|m2 [|? ?]]]]]]; try discriminate H.
  rewrite !andb_true_iff in H.
  destruct H as [[[[[Hh1 Hc] Hm1] Hm2] Hlt] Hh2].
  apply Ascii.eqb_eq in Hh1, Hc. subst h1 c. apply Z.ltb_lt in Hlt.
  pose proof (digitValue_range m1 Hm1) as R1.
  pose proof (digitValue_range m2 Hm2) as R2.
  assert (Hmin : (digitValue m1 * 10 + digitValue m2 <? 0)
                 || (60 <=? digitValue m1 * 10 + digitValue m2) = false).
  { apply orb_false_iff. split; [apply Z.ltb_ge | apply Z.leb_gt]; lia. }
  apply orb_true_iff in Hh2 as [Hh2|Hh2].
  - apply Ascii.eqb_eq in Hh2. subst h2.
    eexists. split.
    + unfold gotime.Parse, gotime.getnum.
      change (isDigit "1") with true. change (isDigit "5") with true.
      cbn [negb].
      change ((byte_code "1" - 48) * 10 + (byte_code "5" - 48)) with 15.
      change ((15 <? 0) || (24 <=? 15)) with false. cbv iota.
      rewrite Hm1, Hm2. cbn [negb]. fold (digitValue m1) (digitValue m2).
      rewrite Hmin. reflexivity.
    + reflexivity.
  - apply andb_true_iff in Hh2 as [Hh2 Hnz]. apply Ascii.eqb_eq in Hh2.
    subst h2. eexists. split.
    + unfold gotime.Parse, gotime.getnum.
      change (isDigit "1") with true. change (isDigit "4") with true.
      cbn [negb].
      change ((byte_code "1" - 48) * 10 + (byte_code "4" - 48)) with 14.
      change ((14 <? 0) || (24 <=? 14)) with false. cbv iota.
      rewrite Hm1, Hm2. cbn [negb]. fold (digitValue m1) (digitValue m2).
      rewrite Hmin. reflexivity.
    + cbn [gotime.Hour gotime.Minute]. change (14 =? 14) with true.
      cbn [andb]. apply orb_true_iff. left. apply Z.ltb_lt.
      rewrite (digit_zero m1 Hm1), (digit_zero m2 Hm2) in Hnz.
      destruct (Z.eqb_spec (digitValue m1) 0), (Z.eqb_spec (digitValue m2) 0);
        try lia; discriminate Hnz.
Qed.

Lemma Parse_afternoonText s t :
  gotime.Parse s = Some t ->
  (((gotime.Hour t =? 14) && (0 <? gotime.Minute t))
   || (gotime.Hour t =? 15)) = true ->
  afternoonText s = true.
Proof.
  intros HP Hwin.
  destruct (Parse_inv _ _ HP)
    as (hour & m1 & m2 & -> & Hm1 & Hm2 & Hmin & Hlt & Hhour).
  pose proof (digitValue_range m1 Hm1) as R1.
  pose proof (digitValue_range m2 Hm2) as R2.
  assert (Hh : gotime.Hour t = 14 /\ 0 < gotime.Minute t \/ gotime.Hour t = 15).
  { apply orb_true_iff in Hwin as [Hwin|Hwin].
    - apply andb_true_iff in Hwin as [Ha Hb]. left.
      split; [apply Z.eqb_eq, Ha | apply Z.ltb_lt, Hb].
    - right. apply Z.eqb_eq, Hwin. }
  destruct Hhour as [(h1 & h2 & -> & Hh1 & Hh2 & Hv)|(h & -> & Hh1 & Hv)].
  2:{ pose proof (digitValue_range h Hh1). lia. }
  pose proof (digitValue_range h1 Hh1) as Q1.
  pose proof (digitValue_range h2 Hh2) as Q2.
  assert (E1 : h1 = "1"%char)
    by (apply (digit_of_value h1 1 Hh1); lia).
  subst h1.
  change (digitValue "1") with 1 in Hv.
  unfold afternoonText. rewrite !append_cons, append_nil.
  rewrite Hm1, Hm2. change (Ascii.eqb "1" "1") with true.
  change (Ascii.eqb ":" ":") with true. cbn [andb].
  replace (digitValue m1 <? 6) with true by (symmetry; apply Z.ltb_lt; lia).
  cbn [andb].
  destruct Hh as [[H14 Hpos]|H15].
  - assert (E2 : h2 = "4"%char) by (apply (digit_of_value h2 4 Hh2); lia).
    subst h2. change (Ascii.eqb "4" "5") with false.
    change (Ascii.eqb "4" "4") with true. cbn [orb andb].
    rewrite (digit_zero m1 Hm1), (digit_zero m2 Hm2).
    destruct (Z.eqb_spec (digitValue m1) 0), (Z.eqb_spec (digitValue m2) 0);
      try reflexivity; lia.
  - assert (E2 : h2 = "5"%char) by (apply (digit_of_value h2 5 Hh2); lia).
    subst h2. reflexivity.
Qed.

Lemma timePoints_afternoonText receipt :
  timePoints receipt = (if afternoonText (PurchaseTime receipt) then 10 else 0).
Proof.
  destruct (afternoonText (PurchaseTime receipt)) eqn:E.
  - destruct (afternoonText_Parse _ E) as (t & HP & Hwin).
    unfold timePoints. rewrite HP, Hwin. reflexivity.
  - unfold timePoints.
    destruct (gotime.Parse (PurchaseTime receipt)) as [t|] eqn:HP;
      [|reflexivity].
    destruct (((gotime.Hour t =? 14) && (0 <? gotime.Minute t))
              || (gotime.Hour t =? 15)) eqn:Hwin; [|reflexivity].
    rewrite (Parse_afternoonText _ _ HP Hwin) in E. discriminate E.
Qed.

(** X15. The texts of the purchase time that earn the 10 points of the
    time rule are exactly ["14:01"] to ["14:59"] and ["15:00"] to
    ["15:59"]: a 1, a 4 or a 5, a colon and two digits of a minute
    below 60, 14:00 left out. Every other text, a time of day or not,
    earns nothing, and none raises an error. *)
Theorem time_rule_texts receipt :
  (timePoints receipt = 10 <-> afternoonText (PurchaseTime receipt) = true)
  /\ (timePoints receipt = 0 <-> afternoonText (PurchaseTime receipt) = false).
Proof.
  rewrite (timePoints_afternoonText receipt).
  destruct (afternoonText (PurchaseTime receipt)); split; split;
    intros; try reflexivity; discriminate.
Qed.

Lemma time_rule_texts_witness :
  afternoonText (PurchaseTime (atTime "15:59")) = true
  /\ timePoints (atTime "15:59") = 10
  /\ afternoonText (PurchaseTime (atTime "2:30pm")) = false
  /\ timePoints (atTime "2:30pm") = 0.
Proof.
  split; [reflexivity|].
  split; [apply (proj1 (time_rule_texts (atTime "15:59"))); reflexivity|].
  split; [reflexivity|].
  apply (proj2 (time_rule_texts (atTime "2:30pm"))). reflexivity.
Defined.

(** ** The afternoon bonus *)

Lemma digit_eqb c digit :
  isDigit c = true -> isDigit digit = true ->
  Ascii.eqb c digit = (digitValue c =? digitValue digit).
Proof.
  intros Hc Hd. destruct (Ascii.eqb_spec c digit) as [->|Hne].
  - rewrite Z.eqb_refl. reflexivity.
  - symmetry. apply Z.eqb_neq. intros E. apply Hne.
    apply digitValue_inj; assumption.
Qed.

(** On a time of the data model, the texts that the time rule rewards
    are the times strictly between 14:00 and 16:00. *)
Lemma afternoonText_window s :
  isTime s = true ->
  afternoonText s
  = (14 * 60 <? minutesOfDay s) && (minutesOfDay s <? 16 * 60).
Proof.
  intros H.
  destruct s as [|h1 [|h2 [|c [|m1 [|m2 [|? ?]]]]]]; try discriminate H.
  all: try (char_is c ":"%char; discriminate H).
  char_is c ":"%char. cbn [isTime] in H.
  rewrite !andb_true_iff in H.
  destruct H as [[[[[Hh1 Hh2] Hm1] Hm2] Hhour] Hmin].
  apply Z.ltb_lt in Hhour, Hmin.
  pose proof (digitValue_range h1 Hh1). pose proof (digitValue_range h2 Hh2).
  pose proof (digitValue_range m1 Hm1). pose proof (digitValue_range m2 Hm2).
  unfold afternoonText, minutesOfDay. cbn [String.get].
  rewrite Hm1, Hm2.
  rewrite (digit_eqb h1 "1" Hh1 eq_refl), (digit_eqb h2 "5" Hh2 eq_refl),
    (digit_eqb h2 "4" Hh2 eq_refl), (digit_eqb m1 "0" Hm1 eq_refl),
    (digit_eqb m2 "0" Hm2 eq_refl).
  change (digitValue "1") with 1. change (digitValue "5") with 5.
  change (digitValue "4") with 4. change (digitValue "0") with 0.
  change (Ascii.eqb ":" ":") with true.
  destruct (Z.eqb_spec (digitValue h1) 1), (Z.eqb_spec (digitValue h2) 5),
    (Z.eqb_spec (digitValue h2) 4), (Z.eqb_spec (digitValue m1) 0),
    (Z.eqb_spec (digitValue m2) 0), (Z.ltb_spec (digitValue m1) 6),
    (Z.ltb_spec (14 * 60)
       ((digitValue h1 * 10 + digitValue h2) * 60 + digitValue m1 * 10
        + digitValue m2)),
    (Z.ltb_spec
       ((digitValue h1 * 10 + digitValue h2) * 60 + digitValue m1 * 10
        + digitValue m2) (16 * 60));
    cbn [andb orb negb]; try reflexivity; lia.
Qed.





(** ** Blanks around a description *)

Lemma isBlank_space c :
  isBlank c = true ->
  byte_code c < 128 /\ unicode.IsSpace (byte_code c) = true.
Proof.
  unfold isBlank, unicode.IsSpace. intros H.
  apply orb_true_iff in H as [H|H].
  - apply andb_true_iff in H as [H1 H2].
    pose proof H1 as H1'. pose proof H2 as H2'.
    apply Z.leb_le in H1', H2'. split; [lia|].
    replace (byte_code c <=? 255) with true by (symmetry; apply Z.leb_le; lia).
    rewrite H1, H2. reflexivity.
  - apply Z.eqb_eq in H. rewrite H. split; [lia | reflexivity].
Qed.

Lemma Decode_ascii c s :
  byte_code c < 128 ->
  utf8.DecodeRuneInString (String c s) = (byte_code c, 1%nat).
Proof.
  intros H. unfold utf8.DecodeRuneInString, utf8.first.
  replace (byte_code c <? 128) with true by (symmetry; apply Z.ltb_lt, H).
  reflexivity.
Qed.

Lemma TrimLeftFunc_blank f c s :
  byte_code c < 128 -> f (byte_code c) = true ->
  gostrings.TrimLeftFunc (String c s) f = gostrings.TrimLeftFunc s f.
Proof.
  intros Hc Hf. unfold gostrings.TrimLeftFunc.
  cbn [String.length gostrings.trimLeftLoop].
  rewrite (Decode_ascii c s Hc), Hf.
  replace (S (String.length s) - 1)%nat with (String.length s) by lia.
  cbn [substring]. rewrite substring_whole. reflexivity.
Qed.

Lemma substring_before s t :
  substring 0 (String.length s) (s ++ t) = s.
Proof.
  induction s as [|c s IH].
  - rewrite append_nil. destruct t; reflexivity.
  - rewrite append_cons. cbn [String.length substring]. rewrite IH.
    reflexivity.
Qed.

Lemma get_app_end s c t :
  String.get (String.length s) (s ++ String c t) = Some c.
Proof.
  induction s as [|c' s IH]; [reflexivity|].
  rewrite append_cons. cbn [String.length String.get]. exact IH.
Qed.

Lemma DecodeLast_ascii s c :
  byte_code c < 128 ->
  utf8.DecodeLastRuneInString (s ++ String c EmptyString)
  = (byte_code c, 1%nat).
Proof.
  intros H. unfold utf8.DecodeLastRuneInString, len, utf8.byteAt.
  rewrite string_length_app. cbn [String.length].
  replace (Z.of_nat (String.length s + 1) =? 0) with false
    by (symmetry; apply Z.eqb_neq; lia).
  replace (Z.to_nat (Z.of_nat (String.length s + 1) - 1))
    with (String.length s) by lia.
  rewrite get_app_end. unfold utf8.RuneSelf.
  replace (byte_code c <? 128) with true by (symmetry; apply Z.ltb_lt, H).
  reflexivity.
Qed.

Lemma TrimRightFunc_blank f s c :
  byte_code c < 128 -> f (byte_code c) = true ->
  gostrings.TrimRightFunc (s ++ String c EmptyString) f
  = gostrings.TrimRightFunc s f.
Proof.
  intros Hc Hf. unfold gostrings.TrimRightFunc.
  rewrite string_length_app. cbn [String.length].
  replace (String.length s + 1)%nat with (S (String.length s)) by lia.
  cbn [gostrings.trimRightLoop].
  rewrite (DecodeLast_ascii s c Hc), Hf.
  rewrite string_length_app. cbn [String.length].
  replace (String.length s + 1 - 1)%nat with (String.length s) by lia.
  rewrite substring_before.
  destruct (s ++ String c EmptyString) eqn:E; [|reflexivity].
  destruct s; discriminate E.
Qed.

Lemma TrimRightFunc_blanks f pad : forall s,
  allBlank pad = true ->
  (forall c, isBlank c = true -> f (byte_code c) = true) ->
  gostrings.TrimRightFunc (s ++ pad) f = gostrings.TrimRightFunc s f.
Proof.
  induction pad as [|c pad IH]; intros s H Hf.
  - replace (s ++ EmptyString) with s; [reflexivity|].
    clear. induction s as [|c s IH]; [reflexivity|].
    rewrite append_cons, <- IH. reflexivity.
  - cbn [allBlank] in H. apply andb_true_iff in H as [Hc Hpad].
    replace (s ++ String c pad) with ((s ++ String c EmptyString) ++ pad)
      by (rewrite string_app_assoc; reflexivity).
    rewrite (IH _ Hpad Hf).
    apply TrimRightFunc_blank; [apply isBlank_space, Hc | apply Hf, Hc].
Qed.

Lemma TrimLeftFunc_blanks f pad s :
  allBlank pad = true ->
  (forall c, isBlank c = true -> f (byte_code c) = true) ->
  gostrings.TrimLeftFunc (pad ++ s) f = gostrings.TrimLeftFunc s f.
Proof.
  intros H Hf. induction pad as [|c pad IH]; [reflexivity|].
  cbn [allBlank] in H. apply andb_true_iff in H as [Hc Hpad].
  rewrite append_cons, TrimLeftFunc_blank;
    [apply IH, Hpad | apply isBlank_space, Hc | apply Hf, Hc].
Qed.

Lemma first_lead s0 sz lo hi :
  utf8.first s0 = utf8.lead sz lo hi -> (2 <= sz <= 4)%nat /\ 128 <= lo.
Proof.
  unfold utf8.first.
  repeat match goal with
  | |- context [if ?b then _ else _] => destruct b
  end; intros H; try discriminate H; injection H as <- <- <-; lia.
Qed.

(** Decoding the first rune of a text does not depend on an ASCII
    byte that follows the text. *)
Lemma Decode_app t p :
  t <> EmptyString ->
  match p with EmptyString => True | String b _ => byte_code b < 128 end ->
  utf8.DecodeRuneInString (t ++ p) = utf8.DecodeRuneInString t.
Proof.
  intros Hne Hp. destruct t as [|c0 t0]; [contradiction|]. clear Hne.
  rewrite append_cons. unfold utf8.DecodeRuneInString.
  destruct (utf8.first (byte_code c0)) as [| |sz lo hi] eqn:Hfirst;
    try reflexivity.
  apply first_lead in Hfirst as [Hsz Hlo].
  assert (Hcont : forall b, byte_code b < 128 ->
                    utf8.continuation (byte_code b) = false).
  { intros b Hb. unfold utf8.continuation.
    replace (128 <=? byte_code b) with false by (symmetry; apply Z.leb_gt, Hb).
    reflexivity. }
  assert (Hlow : forall b, byte_code b < 128 ->
                   (byte_code b <? lo) || (hi <? byte_code b) = true).
  { intros b Hb.
    replace (byte_code b <? lo) with true by (symmetry; apply Z.ltb_lt; lia).
    reflexivity. }
  destruct sz as [|[|[|[|[|sz]]]]]; try lia; clear Hsz.
  - (* two bytes *)
    destruct t0 as [|c1 t1].
    + rewrite append_nil. destruct p as [|b p]; [reflexivity|].
      cbn [String.length Nat.ltb Nat.leb]. rewrite (Hlow b Hp). reflexivity.
    + rewrite append_cons. cbn [String.length Nat.ltb Nat.leb]. reflexivity.
  - (* three bytes *)
    destruct t0 as [|c1 t1].
    + rewrite append_nil. destruct p as [|b p]; [reflexivity|].
      cbn [String.length Nat.ltb Nat.leb]. rewrite (Hlow b Hp).
      destruct (Nat.leb _ _); reflexivity.
    + rewrite append_cons.
      destruct ((byte_code c1 <? lo) || (hi <? byte_code c1)).
      { cbn [String.length Nat.ltb Nat.leb].
        destruct (Nat.leb _ _), (Nat.leb _ _); reflexivity. }
      destruct t1 as [|c2 t2].
      * rewrite append_nil. destruct p as [|b p]; [reflexivity|].
        cbn [String.length Nat.ltb Nat.leb]. rewrite (Hcont b Hp). reflexivity.
      * rewrite append_cons. cbn [String.length Nat.ltb Nat.leb]. reflexivity.
  - (* four bytes *)
    destruct t0 as [|c1 t1].
    + rewrite append_nil. destruct p as [|b p]; [reflexivity|].
      cbn [String.length Nat.ltb Nat.leb]. rewrite (Hlow b Hp).
      destruct (Nat.leb _ _); reflexivity.
    + rewrite append_cons.
      destruct ((byte_code c1 <? lo) || (hi <? byte_code c1)).
      { cbn [String.length Nat.ltb Nat.leb].
        destruct (Nat.leb _ _), (Nat.leb _ _); reflexivity. }
      destruct t1 as [|c2 t2].
      * rewrite append_nil. destruct p as [|b p]; [reflexivity|].
        cbn [String.length Nat.ltb Nat.leb]. rewrite (Hcont b Hp).
        destruct (Nat.leb _ _); reflexivity.
      * rewrite append_cons.
        destruct (utf8.continuation (byte_code c2)).
        2:{ cbn [String.length Nat.ltb Nat.leb negb].
            destruct (Nat.leb _ _), (Nat.leb _ _); reflexivity. }
        destruct t2 as [|c3 t3].
        -- rewrite append_nil. destruct p as [|b p]; [reflexivity|].
           cbn [String.length Nat.ltb Nat.leb negb]. rewrite (Hcont b Hp).
           reflexivity.
        -- rewrite append_cons. cbn [String.length Nat.ltb Nat.leb].
           reflexivity.
Qed.

Lemma Decode_size_le s :
  s <> EmptyString ->
  (snd (utf8.DecodeRuneInString s) <= String.length s)%nat.
Proof.
  intros Hne. unfold utf8.DecodeRuneInString.
  repeat case_match; subst; cbn [snd String.length]; try lia; contradiction.
Qed.

Lemma substring_app_l t p : forall n,
  (n <= String.length t)%nat ->
  substring n (String.length (t ++ p) - n) (t ++ p)
  = substring n (String.length t - n) t ++ p.
Proof.
  induction t as [|c t IH]; intros n Hn.
  - cbn [String.length] in Hn. replace n with 0%nat by lia.
    rewrite append_nil, Nat.sub_0_r, substring_whole. reflexivity.
  - destruct n as [|n].
    + rewrite !Nat.sub_0_r, !substring_whole. reflexivity.
    + rewrite append_cons. cbn [String.length substring Nat.sub].
      apply IH. cbn [String.length] in Hn. lia.
Qed.

Lemma trimLeftLoop_blanks f pad : forall fuel,
  allBlank pad = true ->
  (forall c, isBlank c = true -> f (byte_code c) = true) ->
  (String.length pad <= fuel)%nat ->
  gostrings.trimLeftLoop fuel f pad = EmptyString.
Proof.
  induction pad as [|c pad IH]; intros fuel H Hf Hfuel.
  - destruct fuel; reflexivity.
  - cbn [allBlank] in H. apply andb_true_iff in H as [Hc Hpad].
    cbn [String.length] in Hfuel.
    destruct fuel as [|fuel]; [lia|].
    cbn [gostrings.trimLeftLoop].
    rewrite (Decode_ascii c pad (proj1 (isBlank_space c Hc))), (Hf c Hc).
    cbn [String.length].
    replace (S (String.length pad) - 1)%nat with (String.length pad) by lia.
    cbn [substring]. rewrite substring_whole. apply IH; [assumption..|lia].
Qed.

(** Trimming on the left a text followed by blanks: the blanks stay
    behind what is left of the text, unless nothing is left of it. *)
Lemma trimLeftLoop_app f pad :
  allBlank pad = true ->
  (forall c, isBlank c = true -> f (byte_code c) = true) ->
  forall fuel fuel' t,
    (String.length t <= fuel)%nat ->
    (String.length (t ++ pad) <= fuel')%nat ->
    gostrings.trimLeftLoop fuel' f (t ++ pad)
    = match gostrings.trimLeftLoop fuel f t with
      | EmptyString => EmptyString
      | rest => rest ++ pad
      end.
Proof.
  intros Hpad Hf.
  assert (Hp : match pad with
               | EmptyString => True
               | String b _ => byte_code b < 128
               end).
  { destruct pad as [|b pad']; [exact I|].
    cbn [allBlank] in Hpad. apply andb_true_iff in Hpad as [Hb _].
    apply isBlank_space, Hb. }
  induction fuel as [|fuel IH]; intros fuel' t Ht Htp.
  - destruct t; [|cbn [String.length] in Ht; lia].
    rewrite append_nil in *. cbn [gostrings.trimLeftLoop].
    apply trimLeftLoop_blanks; assumption.
  - destruct t as [|c t].
    + rewrite append_nil in *. cbn [gostrings.trimLeftLoop].
      apply trimLeftLoop_blanks; assumption.
    + destruct fuel' as [|fuel'];
        [rewrite append_cons in Htp; cbn [String.length] in Htp; lia|].
      cbn [gostrings.trimLeftLoop].
      pose proof (Decode_app (String c t) pad ltac:(discriminate) Hp) as Hd.
      pose proof (Decode_size_le (String c t) ltac:(discriminate)) as Hsz.
      pose proof (DecodeRuneInString_size c t) as Hsz1.
      destruct (String c t ++ pad) as [|c' t'] eqn:E;
        [rewrite append_cons in E; discriminate E|].
      rewrite <- E in *. rewrite Hd.
      destruct (utf8.DecodeRuneInString (String c t)) as [r size].
      cbn [snd] in Hsz, Hsz1.
      destruct (f r).
      * rewrite substring_app_l by exact Hsz.
        apply IH.
        -- pose proof (substring_length_le (String c t) size
                         (String.length (String c t) - size)).
           cbn [String.length] in *. lia.
        -- rewrite <- substring_app_l by exact Hsz.
           pose proof (substring_length_le (String c t ++ pad) size
                         (String.length (String c t ++ pad) - size)).
           lia.
      * rewrite E. rewrite <- E. reflexivity.
Qed.

Lemma TrimFunc_blanks f pad pad' s :
  allBlank pad = true -> allBlank pad' = true ->
  (forall c, isBlank c = true -> f (byte_code c) = true) ->
  gostrings.TrimFunc (pad ++ s ++ pad') f = gostrings.TrimFunc s f.
Proof.
  intros Hpad Hpad' Hf. unfold gostrings.TrimFunc.
  rewrite (TrimLeftFunc_blanks f pad _ Hpad Hf).
  unfold gostrings.TrimLeftFunc.
  rewrite (trimLeftLoop_app f pad' Hpad' Hf (String.length s)
             (String.length (s ++ pad')) s (Nat.le_refl _) (Nat.le_refl _)).
  destruct (gostrings.trimLeftLoop (String.length s) f s) as [|c rest] eqn:E;
    [reflexivity|].
  apply TrimRightFunc_blanks; assumption.
Qed.

(** X16. Blanks around a description do not count: a description
    extended by ASCII blanks (spaces, tabs, line breaks) in front of it
    and behind it is trimmed to the same text, so the item earns the
    same points, whatever the description holds. A description of
    blanks only is trimmed to the empty text, whose length 0 is a
    multiple of 3: the item earns the points of its price. *)
Theorem blanks_around_description pad pad' description price :
  allBlank pad = true -> allBlank pad' = true ->
  gostrings.TrimSpace (pad ++ description ++ pad')
  = gostrings.TrimSpace description
  /\ itemPoints {| ShortDescription := pad ++ description ++ pad';
                   Price := price |}
     = itemPoints {| ShortDescription := description; Price := price |}
  /\ gostrings.TrimSpace pad = EmptyString
  /\ itemPoints {| ShortDescription := pad; Price := price |}
     = roundedPoints price.
Proof.
  intros Hpad Hpad'.
  assert (Hf : forall c, isBlank c = true ->
                 unicode.IsSpace (byte_code c) = true)
    by (intros c Hc; apply isBlank_space, Hc).
  assert (H : gostrings.TrimSpace (pad ++ description ++ pad')
              = gostrings.TrimSpace description)
    by (apply TrimFunc_blanks; assumption).
  assert (Hnil : gostrings.TrimSpace pad = EmptyString).
  { unfold gostrings.TrimSpace, gostrings.TrimFunc, gostrings.TrimLeftFunc.
    rewrite (trimLeftLoop_blanks _ pad _ Hpad Hf (Nat.le_refl _)).
    reflexivity. }
  split; [exact H|]. split; [|split; [exact Hnil|]].
  - unfold itemPoints, trimmedLen. cbn [ShortDescription Price].
    rewrite H. reflexivity.
  - unfold itemPoints, trimmedLen. cbn [ShortDescription Price].
    rewrite Hnil. reflexivity.
Qed.

Lemma blanks_around_description_witness :
  allBlank "  " = true /\ allBlank " " = true
  /\ gostrings.TrimSpace ("  " ++ "Emils Cheese Pizza" ++ " ")
     = gostrings.TrimSpace "Emils Cheese Pizza"
  /\ itemPoints {| ShortDescription := "  " ++ "Emils Cheese Pizza" ++ " ";
                   Price := "12.25" |}
     = itemPoints {| ShortDescription := "Emils Cheese Pizza";
                     Price := "12.25" |}
  /\ gostrings.TrimSpace "  " = EmptyString
  /\ itemPoints {| ShortDescription := "  "; Price := "12.25" |}
     = roundedPoints "12.25".
Proof.
  split; [reflexivity|]. split; [reflexivity|].
  apply (blanks_around_description "  " " " "Emils Cheese Pizza" "12.25");
    reflexivity.
Defined.

(** ** Prices below zero *)

(** The whole part of a fifth of the amount, in the same units. *)
Lemma fifth_floor_arith c P V G1 G2 m1 w :
  0 < c < 10 ^ 15 ->
  2 * (c * 2 ^ 64) - G1 * 100 <= 2 * P * 100 <= 2 * (c * 2 ^ 64) + G1 * 100 ->
  2 ^ 52 * (G1 * 100) <= c * 2 ^ 64 ->
  (c mod 100 = 0 -> P * 100 = c * 2 ^ 64) ->
  V * 2 ^ 55 = m1 * G2 ->
  2 * (P * 7205759403792794) - G2 <= 2 * (m1 * G2) <= 2 * (P * 7205759403792794) + G2 ->
  2 ^ 52 * G2 <= P * 7205759403792794 < 2 ^ 53 * G2 ->
  2 ^ 119 = w * G2 -> 0 < G2 ->
  V / 2 ^ 64 = c / 500
  /\ (V mod 2 ^ 64 = 0 <-> c mod 500 = 0).
Proof.
  intros Hc HP1 HP2 HPex HV HV1 HV2 Hw HG2.
  rewrite <- HV in HV1.
  assert (Hk : c = 500 * (c / 500) + c mod 500) by (apply Z.div_mod; lia).
  assert (Hr : 0 <= c mod 500 < 500) by (apply Z.mod_pos_bound; lia).
  set (k := c / 500) in *. set (r := c mod 500) in *.
  destruct (Z.eq_dec r 0) as [Er|Er].
  - (* the price is a whole number of five-dollar units *)
    assert (Hc100 : c mod 100 = 0).
    { replace c with (0 + (5 * k) * 100) by lia. rewrite Z.mod_add by lia. reflexivity. }
    specialize (HPex Hc100).
    assert (HP : P = 5 * k * 2 ^ 64) by lia.
    assert (HVk : V = k * 2 ^ 64).
    { assert (HA : k * 2 ^ 119 = k * w * G2) by (rewrite Hw; ring).
      assert (HPM : P * 7205759403792794 = k * w * G2 + 2 * (k * 2 ^ 64)) by lia.
      rewrite HV, HPM in HV1. rewrite HPM in HV2.
      assert (H4 : 4 * (k * 2 ^ 64) < G2) by lia.
      assert (Hj : m1 = k * w).
      { assert (Hlt : m1 * G2 < (k * w + 1) * G2) by lia.
        assert (Hgt : (k * w - 1) * G2 < m1 * G2) by lia.
        apply Z.mul_lt_mono_pos_r in Hlt, Hgt; lia. }
      subst m1. lia. }
    subst V. split.
    + apply Z.div_mul. lia.
    + rewrite Z.mod_mul by lia. tauto.
  - assert (Hlo : k * 2 ^ 64 < V) by lia.
    assert (Hhi : V < (k + 1) * 2 ^ 64) by lia.
    split.
    + symmetry. apply Z.div_unique with (V - k * 2 ^ 64); lia.
    + split; [|tauto]. intros Hm.
      assert (V mod 2 ^ 64 = V - k * 2 ^ 64)
        by (symmetry; apply Z.mod_unique with k; lia).
      lia.
Qed.

(** Rounding does not look at the sign. *)
Lemma binary_round_aux_opp sx mx ex lx :
  binary_round_aux f64.prec f64.emax (negb sx) mx ex lx
  = SFopp (binary_round_aux f64.prec f64.emax sx mx ex lx).
Proof.
  unfold binary_round_aux.
  destruct (shr_fexp f64.prec f64.emax mx ex lx) as [mrs' e'].
  destruct (shr_fexp f64.prec f64.emax _ e' loc_Exact) as [mrs'' e''].
  destruct (shr_m mrs''); [reflexivity | | reflexivity].
  destruct (e'' <=? f64.emax - f64.prec); reflexivity.
Qed.

Lemma of_quotient_opp n d :
  f64.of_quotient true n d = SFopp (f64.of_quotient false n d).
Proof.
  unfold f64.of_quotient.
  destruct (SFdiv_core_binary f64.prec f64.emax n 0 d 0) as [[q e] l].
  apply (binary_round_aux_opp false).
Qed.

Lemma of_scaled_opp m e :
  f64.of_scaled true m e = SFopp (f64.of_scaled false m e).
Proof.
  unfold f64.of_scaled. destruct m; try reflexivity.
  unfold binary_round.
  destruct (shl_align _ _ _) as [mz ez].
  apply (binary_round_aux_opp false).
Qed.

Lemma mul_fifth_opp m e :
  f64.mul (S754_finite true m e) f64.c0_2
  = SFopp (f64.mul (S754_finite false m e) f64.c0_2).
Proof.
  unfold f64.mul, f64.c0_2. cbn [SFmul xorb].
  apply (binary_round_aux_opp false).
Qed.

(** The conversion of the ceiling of a negative binary64 value
    [- V / 2^64] that an [int] can hold: the ceiling rounds towards
    zero. *)
Lemma int_ceil_scaled_neg m e :
  Z.pos m < 2 ^ 53 -> -64 <= e ->
  Z.pos m * 2 ^ (e + 64) <= 2 ^ 62 * 2 ^ 64 ->
  int_of_float64 (math.Ceil (S754_finite true m e))
  = - (Z.pos m * 2 ^ (e + 64) / 2 ^ 64).
Proof.
  intros Hm He Hbound.
  assert (H64 : 0 < 2 ^ (e + 64)) by (apply Z.pow_pos_nonneg; lia).
  set (a := if 0 <=? e then Z.pos m * 2 ^ e else Z.pos m / 2 ^ (- e)).
  assert (Ha : Z.pos m * 2 ^ (e + 64) / 2 ^ 64 = a /\ 0 <= a <= 2 ^ 62
               /\ (e < 0 -> a < 2 ^ 52)).
  { unfold a. destruct (Z.leb_spec 0 e) as [He0|He0].
    - assert (Hs : Z.pos m * 2 ^ (e + 64) = Z.pos m * 2 ^ e * 2 ^ 64)
        by (rewrite Z.pow_add_r by lia; ring).
      assert (Hp : 0 < 2 ^ e) by (apply Z.pow_pos_nonneg; lia).
      rewrite Hs in *. rewrite Z.div_mul by lia. split; [reflexivity|]. split; [nia | lia].
    - assert (Hp : 0 < 2 ^ (- e)) by (apply Z.pow_pos_nonneg; lia).
      assert (Hs : 2 ^ 64 = 2 ^ (- e) * 2 ^ (e + 64))
        by (rewrite <- Z.pow_add_r by lia; f_equal; lia).
      rewrite Hs, Z.div_mul_cancel_r by lia.
      pose proof (Z.div_pos (Z.pos m) (2 ^ (- e)) ltac:(lia) Hp).
      assert (Hp2 : 2 <= 2 ^ (- e)).
      { change 2 with (2 ^ 1) at 1. apply Z.pow_le_mono_r; lia. }
      assert (Z.pos m / 2 ^ (- e) < 2 ^ 52)
        by (apply Z.div_lt_upper_bound; nia).
      split; [reflexivity | lia]. }
  destruct Ha as (-> & Ha & Ha52).
  assert (Htrunc : f64.trunc (S754_finite true m e) = - a) by reflexivity.
  assert (Hint : int_of_float64 (S754_finite true m e) = - a).
  { unfold int_of_float64. rewrite Htrunc. unfold minInt64, maxInt64.
    destruct (Z.leb_spec (- 2 ^ 63) (- a)), (Z.leb_spec (- a) (2 ^ 63 - 1));
      cbn [andb]; lia. }
  unfold math.Ceil.
  destruct (f64.integral (S754_finite true m e)) eqn:Hi; [exact Hint|].
  rewrite Htrunc, Z.opp_involutive, of_scaled_opp.
  destruct (Z.eqb_spec a 0) as [E0|E0]; [rewrite E0; reflexivity|].
  unfold f64.integral in Hi. apply orb_false_iff in Hi as [He0 _].
  apply Z.leb_gt in He0.
  assert (Hp2 : 2 <= 2 ^ (- e)).
  { change 2 with (2 ^ 1) at 1. apply Z.pow_le_mono_r; lia. }
  assert (Ha53 : 0 < a < 2 ^ 53) by (specialize (Ha52 He0); lia).
  destruct a as [|p|p]; try lia. cbn [f64.of_scaled].
  destruct (binary_round_small_int p) as (mm & ee & Hbr & He1 & He2 & Hmm);
    [lia|].
  unfold f64.prec, f64.emax. rewrite Hbr. cbn [SFopp negb].
  unfold int_of_float64, f64.trunc.
  assert (Hp : 0 < 2 ^ (- ee)) by (apply Z.pow_pos_nonneg; lia).
  assert (Ht : (if 0 <=? ee then Z.pos mm * 2 ^ ee else Z.pos mm / 2 ^ (- ee))
               = Z.pos p).
  { destruct (Z.leb_spec 0 ee).
    - assert (ee = 0) by lia. subst ee. change (2 ^ (- 0)) with 1 in Hmm.
      change (2 ^ 0) with 1. lia.
    - rewrite Hmm. apply Z.div_mul. lia. }
  rewrite Ht. unfold minInt64, maxInt64.
  destruct (Z.leb_spec (- 2 ^ 63) (- Z.pos p)),
    (Z.leb_spec (- Z.pos p) (2 ^ 63 - 1)); cbn [andb]; lia.
Qed.

(** For an amount of [c] cents below ten trillion dollars, taken below
    zero, [int(math.Ceil(price * 0.2))] is minus the whole number of
    five-dollar units of the amount. *)
Lemma fifth_of_negative_cents c :
  0 < c < 10 ^ 15 ->
  int_of_float64 (math.Ceil (f64.mul (f64.of_quotient true c 100) f64.c0_2))
  = - (c / 500).
Proof.
  intros Hc. rewrite of_quotient_opp.
  destruct (of_quotient_cents c)
    as (m & e & m1 & G & -> & Hm & He & HP & HP1 & HP2 & HPex); [lia|].
  cbn [SFopp negb]. rewrite mul_fifth_opp.
  destruct (mul_fifth m e Hm He)
    as (m' & e' & m1' & G' & w & -> & Hm' & He' & HV & HV1 & HV2 & Hw & HG').
  cbn [SFopp negb].
  rewrite <- HP in *.
  set (P := Z.pos m * 2 ^ (e + 64)) in *.
  set (V := Z.pos m' * 2 ^ (e' + 64)) in *.
  assert (HVb : V <= 2 ^ 62 * 2 ^ 64) by lia.
  rewrite int_ceil_scaled_neg by (try lia; exact HVb).
  fold V. f_equal.
  apply (fifth_floor_arith c P V G G' m1' w); assumption.
Qed.

Lemma digit_no_infinity ch s :
  isDigit ch = true -> atof.commonPrefixLenIgnoreCase (String ch s) "infinity" = 0.
Proof.
  intros H. pose proof (digitValue_range ch H) as Hr. unfold digitValue in Hr.
  cbn [atof.commonPrefixLenIgnoreCase].
  replace (65 <=? byte_code ch) with false by (symmetry; apply Z.leb_gt; lia).
  cbn [andb]. change (byte_code "i") with 105.
  replace (byte_code ch =? 105) with false by (symmetry; apply Z.eqb_neq; lia).
  reflexivity.
Qed.

(** [ParseFloat] on an amount of the data model behind a minus sign. *)
Lemma ParseFloat_negative_money s c :
  cents s = Some c -> c < 10 ^ 15 ->
  strconv.ParseFloat (String "-" s)
  = (if c =? 0 then S754_zero true else f64.of_quotient true c 100, None).
Proof.
  intros Hc Hbound.
  destruct (money_head s c Hc) as (ch & s' & -> & Hd & Hx).
  destruct (digit_char_facts ch Hd)
    as (Eus & _ & Eplus & Eminus & Ei & EI & En & EN & _ & _ & _).
  destruct (readMantissa_money (String ch s') 0 false atof.scan0 c Hc
              eq_refl eq_refl eq_refl digitsRead_scan0)
    as (st & Hread & Hdot & Hsd & Hus & Hmant & Hdp & Hnd & Hz & Hpos).
  unfold strconv.ParseFloat.
  assert (Hspecial : atof.special (String "-" (String ch s')) = None).
  { unfold atof.special.
    change (Ascii.eqb "-" "+" || Ascii.eqb "-" "-") with true.
    cbn [orb]. cbv iota. rewrite (digit_no_infinity ch s' Hd). reflexivity. }
  rewrite Hspecial.
  assert (Hrf : atof.readFloat (String "-" (String ch s'))
                = Some {| atof.neg := true; atof.hex := false;
                          atof.mantissa := c;
                          atof.exp := if c =? 0 then 0 else -2;
                          atof.digits := atof.nd st;
                          atof.seen_underscore := false;
                          atof.rest := EmptyString |}).
  { unfold atof.readFloat.
    change (Ascii.eqb "-" "-") with true. rewrite orb_true_r. cbv iota.
    assert (Hhex : match String ch s' with
                   | String z (String x (String _ _)) =>
                       Ascii.eqb z "0" && (lower x =? 120)
                   | _ => false
                   end = false).
    { destruct s' as [|x [|? ?]]; try reflexivity. rewrite Hx.
      apply andb_false_r. }
    rewrite Hhex. cbv iota. rewrite Hread. rewrite Hsd, Hdot, Hus, Hmant.
    cbn [negb]. cbv iota.
    replace (atof.dp st - atof.nd st) with (-2) by lia. reflexivity. }
  rewrite Hrf. cbn [atof.rest atof.seen_underscore atof.hex atof.neg
                    atof.mantissa atof.exp atof.digits].
  cbn [String.eqb negb andb]. cbv iota.
  unfold atof.decimalValue.
  destruct (Z.eqb_spec c 0) as [E0|E0]; [reflexivity|].
  assert (Hcpos : 0 < c).
  { rewrite <- Hmant. destruct (Z.eq_dec (atof.nd st) 0) as [E|E].
    - specialize (Hz E). congruence.
    - specialize (Hpos ltac:(lia)).
      assert (0 < 10 ^ (atof.nd st - 1)) by (apply Z.pow_pos_nonneg; lia). lia. }
  assert (Hnd15 : atof.nd st <= 15).
  { destruct (Z.le_gt_cases (atof.nd st) 15); [assumption|].
    specialize (Hpos ltac:(lia)).
    assert (10 ^ 15 <= 10 ^ (atof.nd st - 1)) by (apply Z.pow_le_mono_r; lia).
    lia. }
  replace (310 <? atof.nd st + -2) with false by (symmetry; apply Z.ltb_ge; lia).
  replace (atof.nd st + -2 <? -330) with false by (symmetry; apply Z.ltb_ge; lia).
  change (0 <=? -2) with false. cbv iota. change (10 ^ (- -2)) with 100.
  rewrite of_quotient_opp.
  destruct (of_quotient_cents c) as (m & e & _ & _ & -> & _); [lia|].
  reflexivity.
Qed.

Lemma roundedPoints_negative_money s c :
  cents s = Some c -> c < 10 ^ 15 ->
  roundedPoints (String "-" s) = - (c / 500).
Proof.
  intros Hs Hc. pose proof (cents_nonneg s c Hs) as H0.
  unfold roundedPoints. rewrite (ParseFloat_negative_money s c Hs Hc).
  cbn [fst].
  destruct (Z.eqb_spec c 0) as [->|Hne]; [reflexivity|].
  apply fifth_of_negative_cents. lia.
Qed.

(** X17. The scoring takes a price below zero as it comes, and such a
    price takes points away: for an amount of the data model behind a
    minus sign (below ten trillion dollars), [int(math.Ceil(price *
    0.2))] is minus the number of whole five-dollar units of the
    amount, the ceiling rounding towards zero; an item with a
    description of a qualifying length has minus that many points. *)
Theorem negative_price_lowers_score s c :
  cents s = Some c -> c < 10 ^ 15 ->
  snd (strconv.ParseFloat (String "-" s)) = None
  /\ roundedPoints (String "-" s) = - (c / 500)
  /\ roundedPoints (String "-" s) <= 0
  /\ (forall description,
        Z.rem (len (gostrings.TrimSpace description)) 3 = 0 ->
        itemPoints {| ShortDescription := description;
                      Price := String "-" s |}
        = - (c / 500)).
Proof.
  intros Hs Hc. pose proof (cents_nonneg s c Hs) as H0.
  pose proof (roundedPoints_negative_money s c Hs Hc) as Hr.
  split; [|split; [exact Hr | split]].
  - rewrite (ParseFloat_negative_money s c Hs Hc). reflexivity.
  - rewrite Hr. pose proof (Z.div_pos c 500 H0 ltac:(lia)). lia.
  - intros description Hlen. unfold itemPoints, trimmedLen.
    cbn [ShortDescription Price]. rewrite Hlen. exact Hr.
Qed.

Lemma negative_price_lowers_score_witness :
  cents "12.25" = Some 1225 /\ 1225 < 10 ^ 15
  /\ snd (strconv.ParseFloat "-12.25") = None
  /\ roundedPoints "-12.25" = - (1225 / 500)
  /\ roundedPoints "-12.25" <= 0
  /\ Z.rem (len (gostrings.TrimSpace "Emils Cheese Pizza")) 3 = 0
  /\ itemPoints {| ShortDescription := "Emils Cheese Pizza";
                   Price := "-12.25" |}
     = - (1225 / 500).
Proof.
  assert (Hc : 1225 < 10 ^ 15) by lia.
  destruct (negative_price_lowers_score "12.25" 1225 eq_refl Hc)
    as (Herr & Hr & Hle & Hitem).
  split; [reflexivity|]. split; [exact Hc|]. split; [exact Herr|].
  split; [exact Hr|]. split; [exact Hle|]. split; [reflexivity|].
  apply Hitem. reflexivity.
Defined.

(** ** The score of a receipt of the data model *)

Lemma itemPoints_exact item :
  validItem item = true -> priceBelowTenTrillion item = true ->
  itemPoints item = exactItemPoints item.
Proof.
  unfold validItem, priceBelowTenTrillion, isMoney, itemPoints, exactItemPoints.
  intros Hv Hb.
  destruct (cents (Price item)) as [c|] eqn:Hc; [|discriminate Hb].
  apply Z.ltb_lt in Hb.
  rewrite Z.rem_mod_nonneg by (unfold trimmedLen, len; lia).
  destruct (trimmedLen item mod 3 =? 0); [|reflexivity].
  apply roundedPoints_money; assumption.
Qed.

Lemma descriptionPoints_exact items :
  forallb validItem items = true ->
  forallb priceBelowTenTrillion items = true ->
  descriptionPoints items
  = fold_right (fun item acc => exactItemPoints item + acc) 0 items.
Proof.
  unfold descriptionPoints.
  induction items as [|item items IH]; intros Hv Hb; [reflexivity|].
  cbn [forallb] in Hv, Hb.
  apply andb_true_iff in Hv as [Hv1 Hv2], Hb as [Hb1 Hb2].
  cbn [fold_right]. rewrite (itemPoints_exact item Hv1 Hb1), (IH Hv2 Hb2).
  reflexivity.
Qed.

(** X18. On a receipt that follows the data model, of a size for
    which no [int] overflows (a retailer name shorter than [2^62]
    bytes, at most a million items, prices below ten trillion dollars,
    a total below [2^63] cents), [calculatePoints] returns exactly the
    points that its rules give in exact arithmetic: neither the
    floating-point product nor the texts' conversions lose or add a
    point. *)
Theorem score_of_valid_receipt receipt c :
  validReceipt receipt = true -> modest receipt = true ->
  cents (Total receipt) = Some c -> c < 2 ^ 63 ->
  calculatePoints receipt = Ok (exactScore receipt).
Proof.
  intros Hvalid Hmodest Hc Hlt.
  unfold validReceipt in Hvalid. unfold modest in Hmodest.
  rewrite !andb_true_iff in Hvalid. rewrite !andb_true_iff in Hmodest.
  destruct Hvalid as [[[[_ Hdate] Htime] _] Hitems].
  destruct Hmodest as [[Hret Hn] Hprices].
  apply Z.ltb_lt in Hret. apply Z.leb_le in Hn.
  destruct (dayPoints_date _ Hdate) as (dayText & Hday & _ & _ & Hdp).
  rewrite (calculatePoints_sum receipt dayText Hday). f_equal.
  pose proof (descriptionPoints_range _ Hitems Hprices) as Hdesc.
  pose proof (FindAllString_length (Retailer receipt)) as Hfind.
  assert (Hsum : pointsSum receipt dayText = exactScore receipt).
  { unfold pointsSum, exactScore. rewrite Hc.
    rewrite (roundDollarPoints_money receipt c Hc).
    rewrite (quarterPoints_money receipt c Hc).
    replace (c <? 2 ^ 63) with true by (symmetry; apply Z.ltb_lt, Hlt).
    cbn [andb].
    rewrite (itemCountPoints_small receipt) by lia.
    rewrite (descriptionPoints_exact _ Hitems Hprices), Hdp.
    rewrite (timePoints_afternoonText receipt), (afternoonText_window _ Htime).
    unfold retailerPoints, alnumCount. lia. }
  rewrite <- Hsum.
  apply wrap64_small.
  pose proof (dayPoints_range dayText) as Hdr.
  pose proof (timePoints_range receipt) as Htr.
  assert (Hrd : 0 <= roundDollarPoints receipt <= 50).
  { unfold roundDollarPoints. destruct (gostrings.HasSuffix _ _); lia. }
  assert (Hq : 0 <= quarterPoints receipt <= 25).
  { unfold quarterPoints. destruct (_ =? 0); lia. }
  assert (Hic : 0 <= itemCountPoints receipt <= 5 * 10 ^ 6).
  { rewrite (itemCountPoints_small receipt) by lia.
    pose proof (Z.div_pos (Z.of_nat (length (Items receipt))) 2
                  ltac:(lia) ltac:(lia)).
    assert (Z.of_nat (length (Items receipt)) / 2 < 10 ^ 6 + 1)
      by (apply Z.div_lt_upper_bound; lia).
    lia. }
  assert (Z.of_nat (length (Items receipt)) * (2 * 10 ^ 12)
          <= 10 ^ 6 * (2 * 10 ^ 12))
    by (apply Z.mul_le_mono_nonneg_r; lia).
  unfold pointsSum, retailerPoints, minInt64, maxInt64, len in *. lia.
Qed.

Lemma score_of_valid_receipt_witness :
  validReceipt scenarioA = true /\ modest scenarioA = true
  /\ cents (Total scenarioA) = Some 125 /\ 125 < 2 ^ 63
  /\ calculatePoints scenarioA = Ok (exactScore scenarioA).
Proof.
  split; [reflexivity|]. split; [reflexivity|]. split; [reflexivity|].
  split; [lia|].
  apply (score_of_valid_receipt scenarioA 125); reflexivity.
Defined.
